(** * Cart, order materialisation and payment reconciliation

    A shallow embedding of the checkout subsystem of the shop:

    - [ProductDoc]   : the fields of a product document that the cart reads
                       (src/models/Product.js);
    - [CartService]  : the session cart, src/services/cart.service.js;
    - [Sha256], [Json] : the digest and the serialisation used by
                       [computeCartHash];
    - [OrderModel]   : the Order collection with its validators and its
                       partial unique index, src/models/Order.js;
    - [OrderController] : src/controllers/order.controller.js;
    - [MpService]    : the preference of the payment gateway,
                       src/services/mp.service.js;
    - [Checkout]     : [postCheckout] of the order controller and the static
                       [updateMpFields] of the Order model;
    - [CartController] : src/controllers/cart.controller.js;
    - [AdminController], [CategoryController] : the manual change of
                       status of an order and the return address of a form;
    - [ProductNum], [CartNum] : the product and the cart service again,
                       with a stock and quantities that need not be whole;
    - [Whole]        : the documents and carts of [CartService] as
                       documents and carts of [CartNum].

    Conventions.  An amount of money that the code shows with two
    decimals ([fromCents c], that is [c / 100]) is kept as its number of
    cents, type [Money]; under that reading [Number(x.toFixed(2))]
    returns its argument.  Prices and percentages read from a product
    document are rationals and [Math.round] is taken on the exact value:
    the rounding error of IEEE doubles is not part of this model.
    Attempt counters and instants in milliseconds are values of [Z].

    The stock of a product is a number that the schema only requires not
    to be negative.  [ProductDoc] and [CartService] take it, and with it
    the quantity of a line, as a whole number, a value of [Z]: that is
    the case of a shop that counts its units, and what the serialisation
    of the digest and the orders are written for.  [ProductNum] and
    [CartNum] take both as rationals: the bounds that [add], [setQty] and
    [recalc] keep on the quantity of a line are proved there.  On
    documents and carts of whole numbers the two services do the same
    ([WholeFacts.run_whole]). *)

From Stdlib Require Import ZArith QArith Qround Qminmax String Ascii List Lia.
From Stdlib Require Import DecimalString DecimalZ DecimalN Lqa.
From stdpp Require Import base option list gmap strings.

Local Open Scope Z_scope.

(** Amount with two decimals, as a number of cents. *)
Definition Money := Z.

(** ** Code that reads and writes a state and can throw

    A computation runs on a state [S] (the cart of the session, the Order
    collection) and returns a value or throws an error; the state it
    leaves is there in both cases. *)

Definition SE (S E A : Type) : Type := S -> (E + A) * S.

Definition se_ret {S E A} (a : A) : SE S E A := fun s => (inr a, s).
Definition se_bind {S E A B} (m : SE S E A) (k : A -> SE S E B) : SE S E B :=
  fun s => match m s with
           | (inl e, s') => (inl e, s')
           | (inr a, s') => k a s'
           end.
Definition throw {S E A} (e : E) : SE S E A := fun s => (inl e, s).
Definition get_state {S E} : SE S E S := fun s => (inr s, s).
Definition put_state {S E} (s : S) : SE S E unit := fun _ => (inr tt, s).
(** [try { m } catch (e) { }] *)
Definition try_ignore {S E A} (m : SE S E A) : SE S E unit :=
  fun s => (inr tt, snd (m s)).
Definition when_throw {S E} (b : bool) (e : E) : SE S E unit :=
  if b then throw e else se_ret tt.

#[global] Instance SE_ret {S E} : MRet (SE S E) := fun A => @se_ret S E A.
#[global] Instance SE_bind {S E} : MBind (SE S E) :=
  fun A B k m => se_bind m k.

(** ** Product documents *)

Module ProductDoc.

Record t := mk {
  _id          : option string;   (* String(product._id), when present *)
  title        : option string;
  imageUrl     : option string;
  price        : option Q;
  stock        : option Z;
  active       : option bool;
  promoEnabled : bool;
  promoPct     : option Q
}.

End ProductDoc.

(** ** src/services/cart.service.js *)

Module CartService.

(** [Math.round]: the nearest integer, halves go up. *)
Definition Math_round (x : Q) : Z := Qfloor (x + (1 # 2))%Q.

Definition toCents (value : Q) : Z := Math_round (value * 100)%Q.

Definition fromCents (cents : Z) : Money := cents.

Record UnitPrice := mkUnitPrice {
  unitBaseCents     : Z;
  unitFinalCents    : Z;
  unitDiscountCents : Z
}.

(** What [computeUnitPrice] reads of its argument, which is a product
    document or, in [recalc], a line of the cart. *)
Record Priced := mkPriced {
  p_price        : option Q;
  p_promoEnabled : bool;
  p_promoPct     : option Q
}.

Definition computeUnitPrice (product : Priced) : UnitPrice :=
  let unitBaseCents := toCents (default 0%Q (p_price product)) in
  match p_promoEnabled product, p_promoPct product with
  | true, Some promoPct =>
      if Qlt_le_dec 0 promoPct then
        let pct := Qmin (Qmax promoPct 0) 100 in
        let unitFinalCents :=
          Math_round (inject_Z unitBaseCents * (1 - pct / 100))%Q in
        mkUnitPrice unitBaseCents unitFinalCents
                    (Z.max (unitBaseCents - unitFinalCents) 0)
      else mkUnitPrice unitBaseCents unitBaseCents 0
  | _, _ => mkUnitPrice unitBaseCents unitBaseCents 0
  end.

Definition promoPrice_of (u : UnitPrice) : option Money :=
  if Z.eqb (unitFinalCents u) (unitBaseCents u) then None
  else Some (fromCents (unitFinalCents u)).

Inductive CartErrorCode :=
  INVALID_PRODUCT | NOT_ACTIVE | OUT_OF_STOCK | INVALID_QTY.

(** A line of the cart.  [cents] is the triple [unitBaseCents],
    [unitFinalCents], [unitDiscountCents]; a line of an older snapshot
    has none. *)
Record Item := mkItem {
  productId    : string;
  title        : string;
  imageUrl     : option string;
  qty          : Z;
  stock        : option Z;
  price        : Money;
  promoPrice   : option Money;
  cents        : option UnitPrice;
  lineSubtotal : Money;
  _adjusted    : bool
}.

Record Meta := mkMeta {
  subtotalCents : Z;
  discountCents : Z;
  totalCents    : Z
}.

Record Cart := mkCart {
  items    : list Item;
  count    : Z;
  subtotal : Money;
  discount : Money;
  total    : Money;
  _meta    : Meta
}.

(** The cart that [ensureCart] puts in a session that has none. *)
Definition ensureCart : Cart :=
  mkCart [] 0 0 0 0 (mkMeta 0 0 0).

Definition priced_of_product (p : ProductDoc.t) : Priced :=
  mkPriced (ProductDoc.price p) (ProductDoc.promoEnabled p)
           (ProductDoc.promoPct p).

(** A line has a two-decimal [price] and no promotion fields. *)
Definition priced_of_item (it : Item) : Priced :=
  mkPriced (Some (inject_Z (price it) / 100)%Q) false None.

(** The snapshot fields that [add], [setQty] and [recalc] refresh from a
    product document. *)
Definition refresh_snapshot (p : ProductDoc.t) (it : Item)
           (newQty : Z) (newStock : Z) (adjusted : bool) : Item :=
  let u := computeUnitPrice (priced_of_product p) in
  {| productId    := productId it;
     title        := default (title it) (ProductDoc.title p);
     imageUrl     := match ProductDoc.imageUrl p with
                     | Some i => Some i
                     | None => imageUrl it
                     end;
     qty          := newQty;
     stock        := Some newStock;
     price        := fromCents (unitBaseCents u);
     promoPrice   := promoPrice_of u;
     cents        := Some u;
     lineSubtotal := lineSubtotal it;
     _adjusted    := adjusted |}.

Definition with_cents (it : Item) (u : UnitPrice) : Item :=
  {| productId := productId it; title := title it; imageUrl := imageUrl it;
     qty := qty it; stock := stock it;
     price := fromCents (unitBaseCents u);
     promoPrice := promoPrice_of u;
     cents := Some u;
     lineSubtotal := lineSubtotal it; _adjusted := _adjusted it |}.

Definition with_lineSubtotal (it : Item) (m : Money) : Item :=
  {| productId := productId it; title := title it; imageUrl := imageUrl it;
     qty := qty it; stock := stock it; price := price it;
     promoPrice := promoPrice it; cents := cents it;
     lineSubtotal := m; _adjusted := _adjusted it |}.

Definition with_qty (it : Item) (q : Z) : Item :=
  {| productId := productId it; title := title it; imageUrl := imageUrl it;
     qty := q; stock := stock it; price := price it;
     promoPrice := promoPrice it; cents := cents it;
     lineSubtotal := lineSubtotal it; _adjusted := _adjusted it |}.

Definition clampStock (s : option Z) : Z :=
  match s with Some n => Z.max n 0 | None => 0 end.

(** The running sums of [recalc]: [subtotalCents], [discountCents],
    [count]. *)
Record Sums := mkSums { s_subtotal : Z; s_discount : Z; s_count : Z }.

(** The first half of the callback of [recalc]: the refresh from a
    fresh product, when the map has one for the line. *)
Definition recalc_refresh (fresh : option ProductDoc.t) (it : Item) : Item :=
  match fresh with
  | Some f =>
      let stockFresh :=
        match ProductDoc.stock f with
        | Some s => Z.max s 0
        | None => default 0 (stock it)
        end in
      if stockFresh <? qty it
      then refresh_snapshot f it stockFresh stockFresh true
      else refresh_snapshot f it (qty it) stockFresh (_adjusted it)
  | None => it
  end.

(** The callback of [recalc] on one line: [None] when the line is
    removed, else the line as it is left and its two amounts. *)
Definition recalc_line (fresh : option ProductDoc.t) (it0 : Item)
  : option (Item * Z * Z) :=
  let it := recalc_refresh fresh it0 in
  let stockNow :=
    match fresh with
    | Some f => clampStock (ProductDoc.stock f)
    | None => clampStock (stock it)
    end in
  if (stockNow <=? 0) || (qty it <=? 0) then None
  else
    let it :=
      match cents it with
      | Some _ => it
      | None =>
          with_cents it
            (computeUnitPrice
               match fresh with
               | Some f => priced_of_product f
               | None => priced_of_item it
               end)
      end in
    let u := default (mkUnitPrice 0 0 0) (cents it) in
    let lineFinalCents := Z.max (unitFinalCents u * qty it) 0 in
    let lineDiscountCents := Z.max (unitDiscountCents u * qty it) 0 in
    Some (with_lineSubtotal it (fromCents lineFinalCents),
          lineFinalCents, lineDiscountCents).

Definition lookup_fresh (productsMap : option (gmap string ProductDoc.t))
           (it : Item) : option ProductDoc.t :=
  match productsMap with
  | Some m => m !! productId it
  | None => None
  end.

(** [cart.items.map(...).filter(Boolean)] with the three sums it
    accumulates on the way. *)
Fixpoint recalc_loop (productsMap : option (gmap string ProductDoc.t))
         (l : list Item) (acc : Sums) : list Item * Sums :=
  match l with
  | [] => ([], acc)
  | it :: rest =>
      match recalc_line (lookup_fresh productsMap it) it with
      | None => recalc_loop productsMap rest acc
      | Some (it', lineFinalCents, lineDiscountCents) =>
          let acc' := mkSums (s_subtotal acc + lineFinalCents)
                             (s_discount acc + lineDiscountCents)
                             (s_count acc + qty it') in
          let '(rest', out) := recalc_loop productsMap rest acc' in
          (it' :: rest', out)
      end
  end.

Definition recalc (productsMap : option (gmap string ProductDoc.t))
           (cart : Cart) : Cart :=
  let '(items', sums) := recalc_loop productsMap (items cart) (mkSums 0 0 0) in
  let totalCents := Z.max (s_subtotal sums) 0 in
  {| items    := items';
     count    := s_count sums;
     subtotal := fromCents (s_subtotal sums);
     discount := fromCents (s_discount sums);
     total    := fromCents totalCents;
     _meta    := mkMeta (s_subtotal sums) (s_discount sums) totalCents |}.

(** *** The methods that can throw *)
Abbreviation M := (SE Cart CartErrorCode).

Definition data : M Cart := get_state.
Definition set_items (l : list Item) : M unit :=
  fun c => (inr tt, mkCart l (count c) (subtotal c) (discount c) (total c)
                           (_meta c)).
Definition do_recalc (pm : option (gmap string ProductDoc.t)) : M unit :=
  fun c => (inr tt, recalc pm c).

(** [!product?._id] *)
Definition lacks_id (p : ProductDoc.t) : bool :=
  match ProductDoc._id p with
  | None => true
  | Some s => if decide (s = EmptyString) then true else false
  end.

Definition deactivated (p : ProductDoc.t) : bool :=
  match ProductDoc.active p with Some false => true | _ => false end.

(** [Math.max(Number(product.stock ?? 0), 0)] *)
Definition availableStock (p : ProductDoc.t) : Z :=
  Z.max (default 0 (ProductDoc.stock p)) 0.

(** [Number.isFinite(qty) ? Math.trunc(qty) : 1]; [None] stands for an
    argument that is missing or not a finite number. *)
Definition requestedQty (q : option Z) : Z := default 1 q.

Definition findIndex (pid : string) (l : list Item) : option (nat * Item) :=
  list_find (fun it => productId it = pid) l.

Definition add (product : ProductDoc.t) (qty0 : option Z) : M unit :=
  when_throw (lacks_id product) INVALID_PRODUCT;;
  let pid := default EmptyString (ProductDoc._id product) in
  when_throw (deactivated product) NOT_ACTIVE;;
  let stock := availableStock product in
  when_throw (stock <=? 0) OUT_OF_STOCK;;
  let addQty := requestedQty qty0 in
  when_throw (addQty <=? 0) INVALID_QTY;;
  let u := computeUnitPrice (priced_of_product product) in
  cart ← data;
  match findIndex pid (items cart) with
  | Some (idx, it) =>
      let newQty := Z.min (qty it + addQty) stock in
      set_items (<[idx := refresh_snapshot product it newQty stock (_adjusted it)]>
                   (items cart))
  | None =>
      let qtyClamped := Z.min addQty stock in
      set_items (items cart ++
        [ {| productId := pid;
             title := default "Producto"%string (ProductDoc.title product);
             imageUrl := ProductDoc.imageUrl product;
             qty := qtyClamped;
             stock := Some stock;
             price := fromCents (unitBaseCents u);
             promoPrice := promoPrice_of u;
             cents := Some u;
             lineSubtotal := 0;
             _adjusted := false |} ])
  end;;
  do_recalc None.

(** [setQty(productId, qty, product)]; [qty0 = None] stands for a
    quantity that [Math.trunc(Number(qty))] does not make finite. *)
Definition setQty (pid : string) (qty0 : option Z)
           (product : option ProductDoc.t) : M unit :=
  cart ← data;
  match findIndex pid (items cart) with
  | None => mret tt
  | Some (idx, it) =>
      match qty0 with
      | None => throw INVALID_QTY
      | Some newQty =>
          if newQty <? 1 then
            set_items (delete idx (items cart)) ;; do_recalc None
          else
            let maxStock := default 0 (stock it) in
            let '(maxStock, it) :=
              match product with
              | Some p =>
                  match ProductDoc.stock p with
                  | Some s =>
                      let m := Z.max s 0 in
                      (m, refresh_snapshot p it (qty it) m (_adjusted it))
                  | None => (maxStock, it)
                  end
              | None => (maxStock, it)
              end in
            set_items (<[idx := with_qty it (Z.min newQty (Z.max maxStock 0))]>
                         (items cart));;
            do_recalc None
      end
  end.

Definition remove (pid : string) : M unit :=
  cart ← data;
  set_items (filter (fun it => productId it <> pid) (items cart));;
  do_recalc None.

Definition clear : M unit :=
  set_items [] ;; do_recalc None.

(** *** The carts that the public operations reach *)

Inductive Op :=
| OpAdd (product : ProductDoc.t) (qty : option Z)
| OpSetQty (pid : string) (qty : option Z) (product : option ProductDoc.t)
| OpRemove (pid : string)
| OpClear
| OpRecalc (productsMap : option (gmap string ProductDoc.t)).

Definition run (o : Op) : M unit :=
  match o with
  | OpAdd p q => add p q
  | OpSetQty pid q p => setQty pid q p
  | OpRemove pid => remove pid
  | OpClear => clear
  | OpRecalc pm => do_recalc pm
  end.

(** The cart that an operation leaves in the session, whether it
    returns or throws. *)
Definition after (o : Op) (c : Cart) : Cart := snd (run o c).

Inductive reachable : Cart -> Prop :=
| reach_new : reachable ensureCart
| reach_op o c : reachable c -> reachable (after o c).

End CartService.

(** ** SHA-256 (FIPS 180-4), as [crypto.createHash('sha256')] computes it

    Words of 32 bits are values of [Z] in [0, 2^32); sums wrap around. *)

Module Sha256.

Definition mask32 : Z := 0xffffffff.
Definition add32 (x y : Z) : Z := (x + y) mod 2 ^ 32.
Definition shr (n x : Z) : Z := Z.shiftr x n.
Definition rotr (n x : Z) : Z :=
  Z.lor (Z.shiftr x n) (Z.land (Z.shiftl x (32 - n)) mask32).
Definition not32 (x : Z) : Z := Z.lxor x mask32.

Definition Ch (x y z : Z) : Z := Z.lxor (Z.land x y) (Z.land (not32 x) z).
Definition Maj (x y z : Z) : Z :=
  Z.lxor (Z.lxor (Z.land x y) (Z.land x z)) (Z.land y z).
Definition bsig0 (x : Z) : Z := Z.lxor (Z.lxor (rotr 2 x) (rotr 13 x)) (rotr 22 x).
Definition bsig1 (x : Z) : Z := Z.lxor (Z.lxor (rotr 6 x) (rotr 11 x)) (rotr 25 x).
Definition ssig0 (x : Z) : Z := Z.lxor (Z.lxor (rotr 7 x) (rotr 18 x)) (shr 3 x).
Definition ssig1 (x : Z) : Z := Z.lxor (Z.lxor (rotr 17 x) (rotr 19 x)) (shr 10 x).

(** The constants are the first 32 bits of the fractional parts of the
    cube roots (for [K]) and of the square roots (for [H0]) of the first
    primes. *)
Definition primes : list Z :=
  [ 2; 3; 5; 7; 11; 13; 17; 19; 23; 29; 31; 37; 41; 43; 47; 53;
    59; 61; 67; 71; 73; 79; 83; 89; 97; 101; 103; 107; 109; 113; 127; 131;
    137; 139; 149; 151; 157; 163; 167; 173; 179; 181; 191; 193; 197; 199;
    211; 223; 227; 229; 233; 239; 241; 251; 257; 263; 269; 271; 277; 281;
    283; 293; 307; 311 ].

(** The integer cube root of [n], one bit at a time from bit [i - 1]. *)
Fixpoint cube_root (i : nat) (n r : Z) : Z :=
  match i with
  | O => r
  | S i' =>
      let r' := r + 2 ^ Z.of_nat i' in
      cube_root i' n (if r' * r' * r' <=? n then r' else r)
  end.

Definition K : list Z :=
  Eval vm_compute in
    map (fun p => cube_root 35 (p * 2 ^ 96) 0 mod 2 ^ 32) primes.

Definition H0 : list Z :=
  Eval vm_compute in
    map (fun p => Z.sqrt (p * 2 ^ 64) mod 2 ^ 32) (firstn 8 primes).

(** Big-endian bytes of a number, [n] of them. *)
Fixpoint be_bytes (n : nat) (x : Z) : list Z :=
  match n with
  | O => []
  | S n' => be_bytes n' (Z.shiftr x 8) ++ [Z.land x 0xff]
  end.

Definition be_word (bs : list Z) : Z :=
  fold_left (fun acc b => Z.lor (Z.shiftl acc 8) b) bs 0.

(** The message, the bit 1, zeros up to 56 modulo 64, the bit length
    on 64 bits. *)
Definition pad (msg : list Z) : list Z :=
  let len := Z.of_nat (length msg) in
  let zeros := Z.to_nat ((55 - len) mod 64) in
  msg ++ [0x80] ++ repeat 0 zeros ++ be_bytes 8 (8 * len).

Fixpoint chunks (fuel n : nat) (l : list Z) : list (list Z) :=
  match fuel with
  | O => []
  | S fuel' =>
      match l with
      | [] => []
      | _ => firstn n l :: chunks fuel' n (skipn n l)
      end
  end.

(** The message schedule, latest word first. *)
Fixpoint schedule (n : nat) (rev_w : list Z) : list Z :=
  match n with
  | O => rev_w
  | S n' =>
      let w := add32 (add32 (ssig1 (nth 1 rev_w 0)) (nth 6 rev_w 0))
                     (add32 (ssig0 (nth 14 rev_w 0)) (nth 15 rev_w 0)) in
      schedule n' (w :: rev_w)
  end.

Record Regs := mkRegs { ra : Z; rb : Z; rc : Z; rd : Z;
                        re : Z; rf : Z; rg : Z; rh : Z }.

Definition round (r : Regs) (kw : Z * Z) : Regs :=
  let t1 := add32 (add32 (add32 (rh r) (bsig1 (re r)))
                         (add32 (Ch (re r) (rf r) (rg r)) (fst kw)))
                  (snd kw) in
  let t2 := add32 (bsig0 (ra r)) (Maj (ra r) (rb r) (rc r)) in
  mkRegs (add32 t1 t2) (ra r) (rb r) (rc r) (add32 (rd r) t1)
         (re r) (rf r) (rg r).

Definition regs_of (h : list Z) : Regs :=
  mkRegs (nth 0 h 0) (nth 1 h 0) (nth 2 h 0) (nth 3 h 0)
         (nth 4 h 0) (nth 5 h 0) (nth 6 h 0) (nth 7 h 0).

Definition compress (h : list Z) (block : list Z) : list Z :=
  let w16 := map be_word (chunks 16 4 block) in
  let w := rev (schedule 48 (rev w16)) in
  let s := regs_of h in
  let r := fold_left round (combine K w) s in
  [ add32 (ra s) (ra r); add32 (rb s) (rb r); add32 (rc s) (rc r);
    add32 (rd s) (rd r); add32 (re s) (re r); add32 (rf s) (rf r);
    add32 (rg s) (rg r); add32 (rh s) (rh r) ].

Definition digest (msg : list Z) : list Z :=
  let p := pad msg in
  let blocks := chunks (length p) 64 p in
  flat_map (be_bytes 4) (fold_left compress blocks H0).

Definition hex_digit (n : Z) : ascii :=
  if n <? 10 then ascii_of_nat (Z.to_nat (48 + n))
  else ascii_of_nat (Z.to_nat (87 + n)).

Fixpoint hex (bs : list Z) : string :=
  match bs with
  | [] => EmptyString
  | b :: rest =>
      String (hex_digit (Z.shiftr b 4))
             (String (hex_digit (Z.land b 0xf)) (hex rest))
  end.

Definition bytes_of_string (s : string) : list Z :=
  map (fun c => Z.of_nat (nat_of_ascii c)) (list_ascii_of_string s).

(** [createHash('sha256').update(s).digest('hex')] *)
Definition sha256_hex (s : string) : string := hex (digest (bytes_of_string s)).

End Sha256.

(** ** [JSON.stringify] on the values that [computeCartHash] serialises *)

Module Json.

Definition dquote : ascii := ascii_of_nat 34.
Definition backslash : ascii := ascii_of_nat 92.

Definition hex_digit (n : nat) : ascii :=
  if (n <? 10)%nat then ascii_of_nat (48 + n) else ascii_of_nat (87 + n).

(** Texts are sequences of bytes, the UTF-8 form of the JavaScript
    strings, which is what the digest is taken of. *)

(** One character of a string literal: the quote and the backslash
    take a backslash, a control character its short escape or
    [\u00xx], anything else stands for itself. *)
Definition escape_char (c : ascii) : string :=
  let n := nat_of_ascii c in
  if (n =? 34)%nat then String backslash (String dquote EmptyString)
  else if (n =? 92)%nat then String backslash (String backslash EmptyString)
  else if (n =? 8)%nat then String backslash "b"
  else if (n =? 12)%nat then String backslash "f"
  else if (n =? 10)%nat then String backslash "n"
  else if (n =? 13)%nat then String backslash "r"
  else if (n =? 9)%nat then String backslash "t"
  else if (n <? 32)%nat then
    String backslash
      (String "u" (String "0" (String "0"
         (String (hex_digit (n / 16)) (String (hex_digit (n mod 16)) EmptyString)))))
  else String c EmptyString.

Fixpoint escape (s : string) : string :=
  match s with
  | EmptyString => EmptyString
  | String c rest => escape_char c ++ escape rest
  end.

Definition str (s : string) : string :=
  String dquote (escape s ++ String dquote EmptyString).

(** An integer. *)
Definition int (z : Z) : string := NilZero.string_of_int (Z.to_int z).

Definition digit (d : Z) : string :=
  String (ascii_of_nat (48 + Z.to_nat d)) EmptyString.

(** The decimals of [frac / 100], for [frac] below 100: none, one or
    two digits after the point. *)
Definition decimals (frac : Z) : string :=
  if frac =? 0 then ""
  else "." ++ digit (frac / 10) ++
       (if frac mod 10 =? 0 then "" else digit (frac mod 10)).

(** The number [c / 100]: its sign, its whole part, its decimals. *)
Definition money (c : Money) : string :=
  let a := Z.abs c in
  (if c <? 0 then "-" else "") ++ int (a / 100) ++ decimals (a mod 100).

(** [[x1,x2,...]] *)
Fixpoint commas (l : list string) : string :=
  match l with
  | [] => EmptyString
  | [x] => x
  | x :: rest => x ++ "," ++ commas rest
  end.

Definition array (l : list string) : string := "[" ++ commas l ++ "]".

(** What follows the first entry of an array: nothing, or a comma and
    the other entries. *)
Definition more (l : list string) : string :=
  match l with
  | [] => ""
  | _ => "," ++ commas l
  end.

Definition key (k : string) : string := str k ++ ":".

(** *** Reading back

    The readers below take one escaped character, and the decimals of
    an amount, off the front of a text. *)

Definition hex_value (c : ascii) : nat :=
  let n := nat_of_ascii c in
  if (n <? 58)%nat then (n - 48)%nat else (n - 87)%nat.

Definition unescape_char (s : string) : option (ascii * string) :=
  match s with
  | EmptyString => None
  | String a r =>
      if (nat_of_ascii a =? 92)%nat then
        match r with
        | EmptyString => None
        | String x r' =>
            let n := nat_of_ascii x in
            if (n =? 34)%nat then Some (dquote, r')
            else if (n =? 92)%nat then Some (backslash, r')
            else if (n =? 98)%nat then Some (ascii_of_nat 8, r')
            else if (n =? 102)%nat then Some (ascii_of_nat 12, r')
            else if (n =? 110)%nat then Some (ascii_of_nat 10, r')
            else if (n =? 114)%nat then Some (ascii_of_nat 13, r')
            else if (n =? 116)%nat then Some (ascii_of_nat 9, r')
            else
              match r' with
              | String _ (String _ (String h1 (String h2 r''))) =>
                  Some (ascii_of_nat (16 * hex_value h1 + hex_value h2), r'')
              | _ => None
              end
        end
      else if (nat_of_ascii a =? 34)%nat then None
      else Some (a, r)
  end.

Definition is_digit (c : ascii) : bool :=
  let n := nat_of_ascii c in ((48 <=? n) && (n <=? 57))%nat.

Definition digit_value (c : ascii) : Z := Z.of_nat (nat_of_ascii c) - 48.

Definition read_decimals (s : string) : Z * string :=
  match s with
  | String p t =>
      if (nat_of_ascii p =? 46)%nat then
        match t with
        | String a rest =>
            match rest with
            | String b rest' =>
                if is_digit b then (10 * digit_value a + digit_value b, rest')
                else (10 * digit_value a, rest)
            | EmptyString => (10 * digit_value a, rest)
            end
        | EmptyString => (0, s)
        end
      else (0, s)
  | EmptyString => (0, s)
  end.

(** A text that does not go on with a digit. *)
Definition no_digit (r : string) : Prop :=
  match r with
  | EmptyString => True
  | String c _ => is_digit c = false
  end.

(** A text that goes on with a comma or a closing brace, as after a
    number in an object. *)
Definition ends (r : string) : Prop :=
  exists r0, r = String "," r0 \/ r = String "}" r0.

End Json.

(** ** src/models/Order.js: the Order collection

    Identifiers of users, products and addresses are strings that are
    taken to denote ObjectIds; the identifier of an order is the rank at
    which the collection created it. *)

Module OrderModel.

Inductive Status :=
  created | approved | pending | rejected | abandoned | expired.

Inductive ShippingMethod := pickup | delivery.

#[global] Instance Status_eq_dec : EqDecision Status.
Proof. solve_decision. Defined.

#[global] Instance ShippingMethod_eq_dec : EqDecision ShippingMethod.
Proof. solve_decision. Defined.

(** [OrderItemSchema] *)
Module OrderItem.
Record t := mk {
  productId : string;
  title     : string;
  price     : Money;
  qty       : Z;
  subtotal  : Money
}.
End OrderItem.

(** [OrderSchema], with the [createdAt] of [timestamps: true].  The
    [updatedAt] of the same option, which every write of a document sets
    to the time of the write and which nothing in the program reads, is
    not a field of this record: a statement on the fields of an order is
    a statement on the fields listed here. *)
Record Order := mkOrder {
  _id               : nat;
  userId            : string;
  items             : list OrderItem.t;
  subtotal          : Money;
  discount          : Money;
  total             : Money;
  shippingMethod    : ShippingMethod;
  shippingFee       : Money;
  shippingAddressId : option string;
  status            : Status;
  mpPreferenceId    : option string;
  mpPaymentId       : option string;
  cartHash          : option string;
  attemptCount      : Z;
  lastAttemptAt     : option Z;
  expiresAt         : option Z;
  createdAt         : Z
}.

(** The collection: its documents in the order of their insertion and
    the rank of the next one. *)
Record Db := mkDb { docs : list Order; nextId : nat }.

Inductive DbError := ValidationError | DuplicateKey | CastError.

Abbreviation DbM := (SE Db DbError).

(** *** Setters and validators of the schema *)

Definition is_space (c : ascii) : bool :=
  let n := nat_of_ascii c in
  ((n =? 32) || ((9 <=? n) && (n <=? 13)))%nat.

Fixpoint trim_left (s : string) : string :=
  match s with
  | EmptyString => EmptyString
  | String c rest => if is_space c then trim_left rest else s
  end.

Definition string_rev (s : string) : string :=
  string_of_list_ascii (rev (list_ascii_of_string s)).

(** [trim: true], on the white space of ASCII. *)
Definition trim (s : string) : string :=
  string_rev (trim_left (string_rev (trim_left s))).

(** The setter of an item: its title is trimmed. *)
Definition cast_item (i : OrderItem.t) : OrderItem.t :=
  OrderItem.mk (OrderItem.productId i) (trim (OrderItem.title i))
               (OrderItem.price i) (OrderItem.qty i) (OrderItem.subtotal i).

Definition nonempty (s : string) : bool :=
  match s with EmptyString => false | _ => true end.

Definition is_hex (c : ascii) : bool :=
  let n := nat_of_ascii c in
  (((48 <=? n) && (n <=? 57)) || ((97 <=? n) && (n <=? 102))
   || ((65 <=? n) && (n <=? 70)))%nat.

(** The cast of a string to an [ObjectId], as the current driver has
    it: it succeeds on 24 hexadecimal digits, and on no other string. *)
Definition isObjectId (s : string) : bool :=
  (String.length s =? 24)%nat && forallb is_hex (list_ascii_of_string s).

Definition lower_hex (c : ascii) : ascii :=
  let n := nat_of_ascii c in
  if ((65 <=? n) && (n <=? 70))%nat then ascii_of_nat (n + 32) else c.

(** The identifier that a cast string denotes, in its printed form:
    the digits in lower case. *)
Definition cast_oid (s : string) : string :=
  string_of_list_ascii (map lower_hex (list_ascii_of_string s)).

(** [required] on the title, [min: 0] on the price and the subtotal,
    [min: 1] on the quantity, and the cast of [productId] to an
    [ObjectId]. *)
Definition valid_item (i : OrderItem.t) : bool :=
  isObjectId (OrderItem.productId i)
  && nonempty (OrderItem.title i) && (0 <=? OrderItem.price i)
  && (1 <=? OrderItem.qty i) && (0 <=? OrderItem.subtotal i).

(** The validators of [OrderSchema]: at least one item, every item
    valid, [min: 0] on the four amounts, and the cast of
    [shippingAddressId], when it is given, to an [ObjectId].  The
    [userId] is the identifier of the user of the session. *)
Definition validate (o : Order) : bool :=
  match items o with [] => false | _ => true end
  && forallb valid_item (items o)
  && (0 <=? subtotal o) && (0 <=? discount o) && (0 <=? total o)
  && (0 <=? shippingFee o)
  && match shippingAddressId o with
     | Some a => isObjectId a
     | None => true
     end.

Definition is_created_of (u : string) (o : Order) : bool :=
  bool_decide (userId o = u) && bool_decide (status o = created).

(** The partial unique index on [userId] among the documents with
    [status: 'created']: would [o] collide with another document?
    [save] and [create] below are those of a collection on which the
    index that the model declares has been built. *)
Definition collides (o : Order) (l : list Order) : bool :=
  bool_decide (status o = created)
  && existsb (fun o' => is_created_of (userId o) o'
                        && negb (Nat.eqb (_id o') (_id o))) l.

Definition replace_doc (o : Order) (l : list Order) : list Order :=
  map (fun o' => if Nat.eqb (_id o') (_id o) then o else o') l.

(** *** Queries and writes *)

Definition findById (id : nat) : DbM (option Order) :=
  fun db => (inr (find (fun o => Nat.eqb (_id o) id) (docs db)), db).

(** [findOne({ mpPreferenceId })] *)
Definition findOne_mpPreferenceId (pref : string) : DbM (option Order) :=
  fun db =>
    (inr (find (fun o => bool_decide (mpPreferenceId o = Some pref)) (docs db)),
     db).

(** The later of two documents by [createdAt]; the earlier inserted
    one wins a tie. *)
Definition later (best : option Order) (o : Order) : option Order :=
  match best with
  | None => Some o
  | Some b => if createdAt b <? createdAt o then Some o else Some b
  end.

(** [findOne({ userId, status: 'created' }).sort({ createdAt: -1 })] *)
Definition findOne_created (u : string) : DbM (option Order) :=
  fun db =>
    (inr (fold_left later (List.filter (is_created_of u) (docs db)) None), db).

(** The fields that the caller of [Order.create] gives; the others
    take their defaults. *)
Definition new_doc (id : nat) (now : Z) (u : string)
           (its : list OrderItem.t) (sub disc tot : Money)
           (hash : string) (exp : Z)
           (method : ShippingMethod) (fee : Money)
           (addr : option string) : Order :=
  {| _id := id; userId := u; items := map cast_item its;
     subtotal := sub; discount := disc; total := tot;
     shippingMethod := method; shippingFee := fee;
     shippingAddressId := cast_oid <$> addr; status := created;
     mpPreferenceId := None; mpPaymentId := None;
     cartHash := Some hash; attemptCount := 0;
     lastAttemptAt := Some now; expiresAt := Some exp;
     createdAt := now |}.

(** [Order.create(doc)]: validation, then the insertion, which the
    unique index can refuse. *)
Definition create (mk_doc : nat -> Order) : DbM Order :=
  fun db =>
    let o := mk_doc (nextId db) in
    if negb (validate o) then (inl ValidationError, db)
    else if collides o (docs db) then (inl DuplicateKey, db)
    else (inr o, mkDb (docs db ++ [o]) (S (nextId db))).

(** [doc.save()] of a document read from the collection. *)
Definition save (o : Order) : DbM unit :=
  fun db =>
    if negb (validate o) then (inl ValidationError, db)
    else if collides o (docs db) then (inl DuplicateKey, db)
    else (inr tt, mkDb (replace_doc o (docs db)) (nextId db)).

Record Patch := mkPatch {
  patch_mpPaymentId    : option string;
  patch_mpPreferenceId : option string;
  patch_status         : Status
}.

Definition apply_patch (p : Patch) (o : Order) : Order :=
  {| _id := _id o; userId := userId o; items := items o;
     subtotal := subtotal o; discount := discount o; total := total o;
     shippingMethod := shippingMethod o; shippingFee := shippingFee o;
     shippingAddressId := shippingAddressId o;
     status := patch_status p;
     mpPreferenceId := patch_mpPreferenceId p;
     mpPaymentId := patch_mpPaymentId p;
     cartHash := cartHash o; attemptCount := attemptCount o;
     lastAttemptAt := lastAttemptAt o; expiresAt := expiresAt o;
     createdAt := createdAt o |}.

(** [findByIdAndUpdate(id, patch, { new: true })]: no validators run;
    the index is still enforced. *)
Definition findByIdAndUpdate (id : nat) (p : Patch) : DbM (option Order) :=
  fun db =>
    match find (fun o => Nat.eqb (_id o) id) (docs db) with
    | None => (inr None, db)
    | Some o =>
        let o' := apply_patch p o in
        if collides o' (docs db) then (inl DuplicateKey, db)
        else (inr (Some o'), mkDb (replace_doc o' (docs db)) (nextId db))
    end.

(** *** What the collection guarantees *)

(** The identifiers are distinct and older than the next one. *)
Definition ids_wf (db : Db) : Prop :=
  NoDup (map _id (docs db))
  /\ Forall (fun o => (_id o < nextId db)%nat) (docs db).

(** The orders of a user that are in status [created]. *)
Definition open_orders (u : string) (db : Db) : list Order :=
  List.filter (is_created_of u) (docs db).

(** A collection as the schema and its indexes keep it. *)
Definition Db_wf (db : Db) : Prop :=
  ids_wf db
  /\ Forall (fun o => validate o = true) (docs db)
  /\ (forall u, (length (open_orders u db) <= 1)%nat).

Definition order_of (id : nat) (db : Db) : option Order :=
  find (fun o => Nat.eqb (_id o) id) (docs db).

Definition status_of (id : nat) (db : Db) : option Status :=
  status <$> order_of id db.

End OrderModel.

(** ** src/controllers/order.controller.js *)

Module OrderController.

Import OrderModel.

(** [req.session.cart] as the controller reads it: the lines, and the
    three totals, each of which it replaces when it is missing. *)
Module SessionCart.
Record t := mk {
  items    : list CartService.Item;
  subtotal : option Money;
  discount : option Money;
  total    : option Money
}.
End SessionCart.

(** The cart that [CartService] keeps in the session. *)
Definition session_cart (c : CartService.Cart) : SessionCart.t :=
  SessionCart.mk (CartService.items c) (Some (CartService.subtotal c))
                 (Some (CartService.discount c)) (Some (CartService.total c)).

(** [req.body] *)
Module Body.
Record t := mk {
  shippingMethod    : option string;
  addressId         : option string;
  shippingAddressId : option string
}.
End Body.

(** [Number(x.toFixed(2))] of an amount with two decimals. *)
Definition toFixed2 (m : Money) : Money := m.

Definition method_name (m : ShippingMethod) : string :=
  match m with pickup => "pickup" | delivery => "delivery" end.

(** [x || null] on a string. *)
Definition truthy (s : option string) : option string :=
  match s with
  | Some EmptyString => None
  | _ => s
  end.

(** One entry of [payload.items]. *)
Definition payload_item (i : CartService.Item) : string :=
  ("{" ++ Json.key "productId" ++
     match truthy (Some (CartService.productId i)) with
     | Some p => Json.str p
     | None => "null"
     end ++
   "," ++ Json.key "title" ++ Json.str (CartService.title i) ++
   "," ++ Json.key "price" ++ Json.money (CartService.price i) ++
   "," ++ Json.key "qty" ++ Json.int (CartService.qty i) ++ "}")%string.

(** [JSON.stringify({ payload, shippingMethod, shippingFee })] *)
Definition hash_message (cart : SessionCart.t)
           (shippingMethod : ShippingMethod) (shippingFee : Money) : string :=
  ("{" ++ Json.key "payload" ++
     "{" ++ Json.key "items" ++
       Json.array (map payload_item (SessionCart.items cart)) ++ "}" ++
   "," ++ Json.key "shippingMethod" ++ Json.str (method_name shippingMethod) ++
   "," ++ Json.key "shippingFee" ++ Json.money shippingFee ++ "}")%string.

Definition computeCartHash (cart : SessionCart.t)
           (shippingMethod : ShippingMethod) (shippingFee : Money) : string :=
  Sha256.sha256_hex (hash_message cart shippingMethod shippingFee).

Definition shippingMethod_of (body : option Body.t) : ShippingMethod :=
  match body with
  | Some b =>
      if bool_decide (Body.shippingMethod b = Some "delivery"%string)
      then delivery else pickup
  | None => pickup
  end.

(** 2000, in cents, for a delivery. *)
Definition shippingFee_of (m : ShippingMethod) : Money :=
  match m with delivery => 200000 | pickup => 0 end.

(** [body?.addressId || body?.shippingAddressId || null] *)
Definition shippingAddressId_of (body : option Body.t) : option string :=
  match body with
  | Some b =>
      match truthy (Body.addressId b) with
      | Some a => Some a
      | None => truthy (Body.shippingAddressId b)
      end
  | None => None
  end.

Definition snapshot_item (i : CartService.Item) : OrderItem.t :=
  let price := CartService.price i in
  let qty := CartService.qty i in
  OrderItem.mk (CartService.productId i) (CartService.title i) price qty
               (toFixed2 (price * qty)).

Record Totals := mkTotals {
  t_subtotal : Money; t_discount : Money; t_total : Money
}.

Definition frozen_totals (cart : SessionCart.t) (items : list OrderItem.t)
           (shippingFee : Money) : Totals :=
  let subtotal :=
    toFixed2 (default (fold_left (fun a it => a + OrderItem.subtotal it) items 0)
                      (SessionCart.subtotal cart)) in
  let discount := toFixed2 (default 0 (SessionCart.discount cart)) in
  let baseTotal :=
    toFixed2 (default (subtotal - discount) (SessionCart.total cart)) in
  let total := toFixed2 (baseTotal + shippingFee) in
  mkTotals subtotal discount total.

Definition isExpired_at (now : Z) (open : option Order) : bool :=
  match open with
  | Some o => match expiresAt o with Some e => e <=? now | None => false end
  | None => false
  end.

(** The fields that the reuse branch writes on the open order. *)
Definition reuse_doc (o : Order) (now : Z) (items : list OrderItem.t)
           (t : Totals) (m : ShippingMethod) (fee : Money)
           (addr : option string) : Order :=
  {| _id := _id o; userId := userId o; items := map cast_item items;
     subtotal := t_subtotal t; discount := t_discount t; total := t_total t;
     shippingMethod := m; shippingFee := fee;
     shippingAddressId := cast_oid <$> addr;
     status := status o;
     mpPreferenceId := mpPreferenceId o; mpPaymentId := mpPaymentId o;
     cartHash := cartHash o; attemptCount := attemptCount o + 1;
     lastAttemptAt := Some now; expiresAt := expiresAt o;
     createdAt := createdAt o |}.

Definition with_status (o : Order) (s : Status) : Order :=
  {| _id := _id o; userId := userId o; items := items o;
     subtotal := subtotal o; discount := discount o; total := total o;
     shippingMethod := shippingMethod o; shippingFee := shippingFee o;
     shippingAddressId := shippingAddressId o; status := s;
     mpPreferenceId := mpPreferenceId o; mpPaymentId := mpPaymentId o;
     cartHash := cartHash o; attemptCount := attemptCount o;
     lastAttemptAt := lastAttemptAt o; expiresAt := expiresAt o;
     createdAt := createdAt o |}.

Record Materialized := mkMaterialized {
  order            : Order;
  m_shippingMethod : ShippingMethod;
  m_shippingFee    : Money;
  m_cartHash       : string
}.

(** [getOrCreateOrderFromCart({ userId, cart, body })], run at the
    instant [now]. *)
Definition getOrCreateOrderFromCart (userId : string) (cart : SessionCart.t)
           (body : option Body.t) (now : Z) : DbM Materialized :=
  let shippingMethod := shippingMethod_of body in
  let shippingFee := shippingFee_of shippingMethod in
  let items := map snapshot_item (SessionCart.items cart) in
  let t := frozen_totals cart items shippingFee in
  let addr := shippingAddressId_of body in
  let cartHash := computeCartHash cart shippingMethod shippingFee in
  open ← findOne_created userId;
  let isExpired := isExpired_at now open in
  let same := match open with
              | Some o => bool_decide (OrderModel.cartHash o = Some cartHash)
              | None => false
              end in
  match open with
  | Some o =>
      if negb isExpired && same then
        let o' := reuse_doc o now items t shippingMethod shippingFee addr in
        save o';;
        mret (mkMaterialized o' shippingMethod shippingFee cartHash)
      else
        try_ignore
          (save (with_status o (if isExpired then expired else abandoned)));;
        o' ← create (fun id =>
                new_doc id now userId items (t_subtotal t) (t_discount t)
                        (t_total t) cartHash (now + 24 * 60 * 60 * 1000)
                        shippingMethod shippingFee addr);
        mret (mkMaterialized o' shippingMethod shippingFee cartHash)
  | None =>
      o' ← create (fun id =>
              new_doc id now userId items (t_subtotal t) (t_discount t)
                      (t_total t) cartHash (now + 24 * 60 * 60 * 1000)
                      shippingMethod shippingFee addr);
      mret (mkMaterialized o' shippingMethod shippingFee cartHash)
  end.

(** The parts of [getOrCreateOrderFromCart], named: the open order it
    finds, the digest of the request, the document of the reuse branch
    and the one it creates. *)
Definition open_of (u : string) (d : Db) : option Order :=
  fold_left later (open_orders u d) None.

Definition hash_of (cart : SessionCart.t) (body : option Body.t) : string :=
  computeCartHash cart (shippingMethod_of body)
                  (shippingFee_of (shippingMethod_of body)).

Definition reused (o : Order) (cart : SessionCart.t) (body : option Body.t)
           (now : Z) : Order :=
  let m := shippingMethod_of body in
  let items := map snapshot_item (SessionCart.items cart) in
  reuse_doc o now items (frozen_totals cart items (shippingFee_of m)) m
            (shippingFee_of m) (shippingAddressId_of body).

Definition fresh_doc (u : string) (cart : SessionCart.t)
           (body : option Body.t) (now : Z) (id : nat) : Order :=
  let m := shippingMethod_of body in
  let items := map snapshot_item (SessionCart.items cart) in
  let t := frozen_totals cart items (shippingFee_of m) in
  new_doc id now u items (t_subtotal t) (t_discount t) (t_total t)
          (hash_of cart body) (now + 24 * 60 * 60 * 1000) m
          (shippingFee_of m) (shippingAddressId_of body).

Definition result_of (cart : SessionCart.t) (body : option Body.t)
           (o : Order) : Materialized :=
  mkMaterialized o (shippingMethod_of body)
                 (shippingFee_of (shippingMethod_of body)) (hash_of cart body).

(** One checkout: who, with which cart and form, and when. *)
Record Call := mkCall {
  c_userId : string;
  c_cart   : SessionCart.t;
  c_body   : option Body.t;
  c_now    : Z
}.

(** The collection after a checkout, whether it returned or threw. *)
Definition run_call (db : Db) (c : Call) : Db :=
  snd (getOrCreateOrderFromCart (c_userId c) (c_cart c) (c_body c) (c_now c) db).

(** Would the schema accept the order that this cart and this form
    give? *)
Definition accepted (cart : SessionCart.t) (body : option Body.t) : bool :=
  let m := shippingMethod_of body in
  let items := map snapshot_item (SessionCart.items cart) in
  let t := frozen_totals cart items (shippingFee_of m) in
  validate (new_doc 0 0 EmptyString items (t_subtotal t) (t_discount t)
                    (t_total t) EmptyString 0 m (shippingFee_of m)
                    (shippingAddressId_of body)).

(** What [computeCartHash] reads of a line. *)
Definition hashed_line (i : CartService.Item)
  : option string * string * Money * Z :=
  (truthy (Some (CartService.productId i)), CartService.title i,
   CartService.price i, CartService.qty i).

(** *** The return pages of the payment gateway *)

(** [external_reference] once [findById] has cast it. *)
Inductive Ref := NotAnObjectId | Oid (id : nat).

(** [req.query]; [external_reference] is [None] when it is missing or
    empty. *)
Record Query := mkQuery {
  payment_id         : option string;
  collection_id      : option string;
  q_status           : option string;
  collection_status  : option string;
  preference_id      : option string;
  external_reference : option Ref
}.

Record Params := mkParams {
  paymentId         : option string;
  p_status          : option string;
  preferenceId      : option string;
  externalReference : option Ref
}.

(** [a ?? b] *)
Definition coalesce {A} (a b : option A) : option A :=
  match a with Some _ => a | None => b end.

Definition getMpReturnParams (q : Query) : Params :=
  mkParams (truthy (coalesce (payment_id q) (collection_id q)))
           (truthy (coalesce (q_status q) (collection_status q)))
           (truthy (preference_id q))
           (external_reference q).

(** The order of the callback: by [externalReference], else by
    [preferenceId]. *)
Definition find_order (p : Params) : DbM (option Order) :=
  byRef ← match externalReference p with
          | Some NotAnObjectId => throw CastError
          | Some (Oid id) => findById id
          | None => mret None
          end;
  match byRef with
  | Some o => mret (Some o)
  | None =>
      match preferenceId p with
      | Some pref => findOne_mpPreferenceId pref
      | None => mret None
      end
  end.

Definition updateOrderMpFields (orderId : nat) (patch : Patch)
  : DbM (option Order) :=
  findByIdAndUpdate orderId patch.

(** What a handler answers: the HTTP status, the view, the order it
    shows. *)
Record Response := mkResponse {
  code       : nat;
  view       : string;
  shown      : option Order
}.

(** The collection and the cart of the session of the request. *)
Record World := mkWorld {
  db   : Db;
  cart : option CartService.Cart
}.

(** [a || b] on strings that may be missing. *)
Definition or_else (a b : option string) : option string :=
  match truthy a with Some x => Some x | None => b end.

(** The body of a handler runs in [try]; an error answers 500 and
    leaves what was written before it. *)
Definition handle (m : DbM (Response * bool)) (w : World) : World * Response :=
  match m (db w) with
  | (inr (r, clear_cart), db') =>
      (mkWorld db' (if clear_cart then None else cart w), r)
  | (inl _, db') =>
      (mkWorld db' (cart w), mkResponse 500 "checkout/failure" None)
  end.

Definition getCheckoutSuccess (q : Query) : World -> World * Response :=
  let p := getMpReturnParams q in
  handle (
    found ← find_order p;
    match found with
    | None => mret (mkResponse 404 "checkout/failure" None, false)
    | Some o =>
        let newStatus :=
          if bool_decide (p_status p = Some "approved"%string)
          then approved else status o in
        patched ← updateOrderMpFields (_id o)
          (mkPatch (or_else (paymentId p) (mpPaymentId o))
                   (or_else (preferenceId p) (mpPreferenceId o))
                   newStatus);
        mret (mkResponse 200 "checkout/success" patched,
              bool_decide (newStatus = approved))
    end).

Definition getCheckoutPending (q : Query) : World -> World * Response :=
  let p := getMpReturnParams q in
  handle (
    found ← find_order p;
    match found with
    | None => mret (mkResponse 404 "checkout/failure" None, false)
    | Some o =>
        patched ← updateOrderMpFields (_id o)
          (mkPatch (or_else (paymentId p) (mpPaymentId o))
                   (or_else (preferenceId p) (mpPreferenceId o))
                   pending);
        mret (mkResponse 200 "checkout/pending" patched, false)
    end).

Definition getCheckoutFailure (q : Query) : World -> World * Response :=
  let p := getMpReturnParams q in
  handle (
    found ← find_order p;
    match found with
    | None => mret (mkResponse 200 "checkout/failure" None, false)
    | Some o =>
        patched ← updateOrderMpFields (_id o)
          (mkPatch (or_else (paymentId p) (mpPaymentId o))
                   (or_else (preferenceId p) (mpPreferenceId o))
                   rejected);
        mret (mkResponse 200 "checkout/failure" patched, false)
    end).

End OrderController.

(** ** Sample data *)

Module Sample.

Import CartService.

(** A product at 1000.00 with a promotion of 25%, five in stock. *)
Definition mate : ProductDoc.t :=
  ProductDoc.mk (Some "64b7f0a1c2d3e4f5a6b7c8d9"%string) (Some "Mate"%string)
                None (Some 1000%Q) (Some 5) (Some true) true (Some 25%Q).

(** The same product with a promotion of 30%. *)
Definition mate30 : ProductDoc.t :=
  ProductDoc.mk (Some "64b7f0a1c2d3e4f5a6b7c8d9"%string) (Some "Mate"%string)
                None (Some 1000%Q) (Some 5) (Some true) true (Some 30%Q).

Definition termo : ProductDoc.t :=
  ProductDoc.mk (Some "64b7f0a1c2d3e4f5a6b7c8da"%string) (Some "Termo"%string)
                None (Some (2550 # 100)%Q) (Some 3) (Some true) false None.

Definition unnamed : ProductDoc.t :=
  ProductDoc.mk None (Some "Mate"%string) None (Some 1000%Q) (Some 5)
                (Some true) false None.

Definition paused : ProductDoc.t :=
  ProductDoc.mk (Some "64b7f0a1c2d3e4f5a6b7c8db"%string) (Some "Bombilla"%string)
                None (Some 300%Q) (Some 5) (Some false) false None.

Definition sold_out : ProductDoc.t :=
  ProductDoc.mk (Some "64b7f0a1c2d3e4f5a6b7c8dc"%string) (Some "Yerba"%string)
                None (Some 300%Q) (Some 0) (Some true) false None.

(** Two units of [mate] in a new cart. *)
Definition cart_mate : Cart := after (OpAdd mate (Some 2)) ensureCart.

Definition cart_mate30 : Cart := after (OpAdd mate30 (Some 2)) ensureCart.

Definition cart_mate_termo : Cart := after (OpAdd termo (Some 1)) cart_mate.

Definition user1 : string := "650000000000000000000001".

Definition empty_db : OrderModel.Db := OrderModel.mkDb [] 0.

(** Nine more units of [mate] asked for in [cart_mate]. *)
Definition cart_full : Cart :=
  Eval vm_compute in after (OpAdd mate (Some 9)) cart_mate.

(** The order that the first checkout of [user1] creates for
    [cart_mate]. *)
Definition order0 : OrderModel.Order :=
  OrderController.fresh_doc user1 (OrderController.session_cart cart_mate)
                            None 1000 0.

Definition delivery_form : OrderController.Body.t :=
  OrderController.Body.mk (Some "delivery"%string) None None.

(** Three checkouts of [user1]: twice the same cart, then a cart with
    one more product. *)
Definition three_calls : list OrderController.Call :=
  [ OrderController.mkCall user1 (OrderController.session_cart cart_mate)
                           None 1000;
    OrderController.mkCall user1 (OrderController.session_cart cart_mate)
                           None 61000;
    OrderController.mkCall user1 (OrderController.session_cart cart_mate_termo)
                           (Some delivery_form) 120000 ].

Definition db_created : OrderModel.Db :=
  OrderController.run_call empty_db
    (OrderController.mkCall user1 (OrderController.session_cart cart_mate)
                            None 1000).

(** The return of the gateway for the order 0, with a reported
    status. *)
Definition back (reported : string) : OrderController.Query :=
  OrderController.mkQuery (Some "1320099876"%string) None (Some reported) None
                          (Some "pref-0001"%string)
                          (Some (OrderController.Oid 0)).

(** The order 0 has been paid. *)
Definition world_paid : OrderController.World :=
  fst (OrderController.getCheckoutSuccess (back "approved")
         (OrderController.mkWorld db_created (Some cart_mate))).

(** The order 0 as [world_paid] holds it. *)
Definition order_paid : OrderModel.Order :=
  default order0 (OrderModel.order_of 0 (OrderController.db world_paid)).

Definition line_full : Item :=
  mkItem "64b7f0a1c2d3e4f5a6b7c8d9" "Mate" None 5 (Some 5) 100000
         (Some 75000) (Some (mkUnitPrice 100000 75000 25000)) 375000 false.

End Sample.

(** ** The preference of the payment gateway, src/services/mp.service.js *)

Module MpService.

Import CartService OrderController.

(** What the module computes from [process.env] when it is loaded. *)
Record Config := mkConfig {
  BASE_URL_CLEAN : string;
  IS_LOCAL       : bool
}.

Inductive MpError :=
| CART_EMPTY
| MISSING_ORDER_ID
| INVALID_ITEM_TITLE
| INVALID_ITEM_PRICE
| INVALID_ITEM_QTY
| BACK_URLS_EMPTY
| SdkError.

Module PreferenceItem.
Record t := mk {
  id          : string;
  title       : string;
  description : string;
  quantity    : Z;
  currency_id : string;
  unit_price  : Money
}.
End PreferenceItem.

(** [mapCartItemToMP]; a line of the cart has no [promoApplied], so
    that the description is empty.  The title is trimmed on the white
    space of ASCII. *)
Definition mapCartItemToMP (it : Item) : MpError + PreferenceItem.t :=
  let title := OrderModel.trim (CartService.title it) in
  let qty := CartService.qty it in
  let unit := CartService.price it in
  if negb (OrderModel.nonempty title) then inl INVALID_ITEM_TITLE
  else if unit <=? 0 then inl INVALID_ITEM_PRICE
  else if qty <=? 0 then inl INVALID_ITEM_QTY
  else inr (PreferenceItem.mk (productId it) title EmptyString qty "ARS" unit).

(** [cart.items.map(mapCartItemToMP)]: the first line that is refused
    throws. *)
Fixpoint map_items (l : list Item) : MpError + list PreferenceItem.t :=
  match l with
  | [] => inr []
  | it :: rest =>
      match mapCartItemToMP it with
      | inl e => inl e
      | inr x =>
          match map_items rest with
          | inl e => inl e
          | inr xs => inr (x :: xs)
          end
      end
  end.

Record BackUrls := mkBackUrls {
  bu_success : string;
  bu_failure : string;
  bu_pending : string
}.

Module PreferenceBody.
Record t := mk {
  items              : list PreferenceItem.t;
  back_urls          : BackUrls;
  external_reference : nat;
  binary_mode        : bool;
  auto_return        : option string
}.
End PreferenceBody.

(** What the SDK returns of the preference it has created. *)
Module Pref.
Record t := mk {
  id                 : string;
  init_point         : string;
  sandbox_init_point : option string
}.
End Pref.

(** [prefClient.create({ body })]; [None] when it throws. *)
Definition Gateway := PreferenceBody.t -> option Pref.t.

(** [createPreference(cart, orderId)]; [orderId] is [None] when it is
    falsy. *)
Definition createPreference (cfg : Config) (gateway : Gateway)
           (cart : option SessionCart.t) (orderId : option nat)
  : MpError + Pref.t :=
  match cart with
  | None => inl CART_EMPTY
  | Some c =>
      match SessionCart.items c with
      | [] => inl CART_EMPTY
      | _ =>
          match orderId with
          | None => inl MISSING_ORDER_ID
          | Some oid =>
              match map_items (SessionCart.items c) with
              | inl e => inl e
              | inr items =>
                  let back_urls :=
                    mkBackUrls (BASE_URL_CLEAN cfg ++ "/checkout/success")
                               (BASE_URL_CLEAN cfg ++ "/checkout/failure")
                               (BASE_URL_CLEAN cfg ++ "/checkout/pending") in
                  let body :=
                    PreferenceBody.mk items back_urls oid true
                      (if IS_LOCAL cfg then None else Some "approved"%string) in
                  if negb (OrderModel.nonempty (bu_success back_urls))
                  then inl BACK_URLS_EMPTY
                  else
                    match gateway body with
                    | None => inl SdkError
                    | Some pref => inr pref
                    end
              end
          end
      end
  end.

End MpService.

(** ** [postCheckout], src/controllers/order.controller.js *)

Module Checkout.

Import OrderModel OrderController.

(** An update document: the keys that it sets. *)
Record Update := mkUpdate {
  set_mpPaymentId    : option (option string);
  set_mpPreferenceId : option (option string);
  set_status         : option Status
}.

Definition apply_update (u : Update) (o : Order) : Order :=
  {| _id := _id o; userId := userId o; items := items o;
     subtotal := subtotal o; discount := discount o; total := total o;
     shippingMethod := shippingMethod o; shippingFee := shippingFee o;
     shippingAddressId := shippingAddressId o;
     status := default (status o) (set_status u);
     mpPreferenceId := default (mpPreferenceId o) (set_mpPreferenceId u);
     mpPaymentId := default (mpPaymentId o) (set_mpPaymentId u);
     cartHash := cartHash o; attemptCount := attemptCount o;
     lastAttemptAt := lastAttemptAt o; expiresAt := expiresAt o;
     createdAt := createdAt o |}.

(** [findByIdAndUpdate(id, update, { new: true })] for an update that
    sets some of the three keys. *)
Definition findByIdAndUpdate_keys (id : nat) (u : Update) : DbM (option Order) :=
  fun db =>
    match find (fun o => Nat.eqb (_id o) id) (docs db) with
    | None => (inr None, db)
    | Some o =>
        let o' := apply_update u o in
        if collides o' (docs db) then (inl DuplicateKey, db)
        else (inr (Some o'), mkDb (replace_doc o' (docs db)) (nextId db))
    end.

(** The static [updateMpFields] of the model: only the fields of the
    patch that are truthy are set. *)
Definition updateMpFields (orderId : nat) (mpPreferenceId mpPaymentId : option string)
           (status : option Status) : DbM (option Order) :=
  findByIdAndUpdate_keys orderId
    (mkUpdate (Some <$> truthy mpPaymentId) (Some <$> truthy mpPreferenceId)
              status).

Definition lower_char (c : ascii) : ascii :=
  let n := nat_of_ascii c in
  if ((65 <=? n) && (n <=? 90))%nat then ascii_of_nat (n + 32) else c.

(** [toLowerCase], on the letters of ASCII. *)
Fixpoint toLowerCase (s : string) : string :=
  match s with
  | EmptyString => EmptyString
  | String c rest => String (lower_char c) (toLowerCase rest)
  end.

Definition includes (needle hay : string) : bool :=
  match String.index 0 needle hay with Some _ => true | None => false end.

Module SessionUser.
Record t := mk { _id : option string; id : option string }.
End SessionUser.

(** What [postCheckout] reads of the request. *)
Record Request := mkRequest {
  accept           : option string;
  x_requested_with : option string;
  user             : option SessionUser.t;
  body             : option Body.t
}.

Definition wantsJson (req : Request) : bool :=
  includes "application/json" (default EmptyString (accept req))
  || bool_decide (toLowerCase (default EmptyString (x_requested_with req))
                  = "xmlhttprequest"%string).

(** The environment of the process and the gateway. *)
Record Env := mkEnv {
  NODE_ENV : option string;
  mp       : MpService.Config;
  gateway  : MpService.Gateway
}.

Inductive Failure :=
| DbFailed (e : DbError)
| MpFailed (e : MpService.MpError).

(** The JSON of the answer 201. *)
Record Started := mkStarted {
  orderId              : nat;
  preferenceId         : string;
  s_init_point         : string;
  s_sandbox_init_point : option string;
  url                  : string;
  env                  : string
}.

Inductive Answer :=
| Json (code : nat) (error : string)
| Created (payload : Started)
| Redirect (location : string)
| SeeOther (location : string)
| Next (err : Failure).

Definition userId_of (req : Request) : option string :=
  match user req with
  | Some su => or_else (SessionUser._id su) (SessionUser.id su)
  | None => None
  end.

(** The [catch] of [postCheckout]. *)
Definition failed (isAjax : bool) (err : Failure) : Answer :=
  if isAjax then Json 500 "No se pudo iniciar el checkout" else Next err.

(** [postCheckout], run at the instant [now]. *)
Definition postCheckout (e : Env) (now : Z) (req : Request) (w : World)
  : World * Answer :=
  let isAjax := wantsJson req in
  match userId_of req with
  | None =>
      (w, if isAjax then Json 401 "No autenticado" else Redirect "/login")
  | Some userId =>
      match cart w with
      | None | Some {| CartService.items := [] |} =>
          (w, if isAjax then Json 400 "El carrito está vacío"
              else Redirect "/cart")
      | Some c =>
          let cart := session_cart c in
          match getOrCreateOrderFromCart userId cart (body req) now (db w) with
          | (inl err, db1) =>
              (mkWorld db1 (OrderController.cart w), failed isAjax (DbFailed err))
          | (inr m, db1) =>
              let order := order m in
              match MpService.createPreference (mp e) (gateway e) (Some cart)
                                               (Some (_id order)) with
              | inl err =>
                  (mkWorld db1 (OrderController.cart w),
                   failed isAjax (MpFailed err))
              | inr pref =>
                  match findByIdAndUpdate_keys (_id order)
                          (mkUpdate None (Some (Some (MpService.Pref.id pref)))
                                    None) db1 with
                  | (inl err, db2) =>
                      (mkWorld db2 (OrderController.cart w),
                       failed isAjax (DbFailed err))
                  | (inr _, db2) =>
                      let isProd :=
                        bool_decide (NODE_ENV e = Some "production"%string) in
                      let url :=
                        if isProd then MpService.Pref.init_point pref
                        else default (MpService.Pref.init_point pref)
                               (truthy (MpService.Pref.sandbox_init_point pref)) in
                      (mkWorld db2 (OrderController.cart w),
                       if isAjax
                       then Created
                              (mkStarted (_id order) (MpService.Pref.id pref)
                                 (MpService.Pref.init_point pref)
                                 (MpService.Pref.sandbox_init_point pref) url
                                 (if isProd then "production" else "development"))
                       else SeeOther url)
                  end
              end
          end
      end
  end.

(** Has the request been answered with the address of the gateway? *)
Definition started (a : Answer) : bool :=
  match a with
  | Created _ | SeeOther _ => true
  | _ => false
  end.

(** The address of the gateway in the answer. *)
Definition gateway_url (a : Answer) : option string :=
  match a with
  | Created p => Some (url p)
  | SeeOther u => Some u
  | _ => None
  end.

(** The checkout that [postCheckout] runs for a user and a cart. *)
Definition call_of (u : string) (c : CartService.Cart) (req : Request)
           (now : Z) : Call :=
  mkCall u (session_cart c) (body req) now.

End Checkout.

(** ** The handlers of the cart, src/controllers/cart.controller.js *)

Module CartController.

Import CartService.

(** The collection of the products. *)
Definition Catalog := list ProductDoc.t.

(** What [Number(req.body?.qty)] can be. *)
Inductive JsNumber := Finite (q : Q) | NaN | PosInfinity | NegInfinity.

(** [Math.trunc] of a finite number: towards zero. *)
Definition Math_trunc (q : Q) : Z := Z.quot (Qnum q) (Z.pos (Qden q)).

Definition is_active (id : string) (p : ProductDoc.t) : bool :=
  bool_decide (ProductDoc._id p = Some id)
  && bool_decide (ProductDoc.active p = Some true).

(** [Product.findOne({ _id: id, active: true })] *)
Definition findOne_active (catalog : Catalog) (id : string)
  : option ProductDoc.t :=
  find (is_active id) catalog.

Definition wanted (ids : list string) (p : ProductDoc.t) : bool :=
  match ProductDoc._id p with
  | Some k => bool_decide (k ∈ ids)
  | None => false
  end
  && bool_decide (ProductDoc.active p = Some true).

Definition map_set (m : gmap string ProductDoc.t) (d : ProductDoc.t)
  : gmap string ProductDoc.t :=
  match ProductDoc._id d with
  | Some k => <[k := d]> m
  | None => m
  end.

(** [getProductsMap(ids)]: the active products among [ids], keyed by
    their identifier. *)
Definition getProductsMap (catalog : Catalog) (ids : list string)
  : gmap string ProductDoc.t :=
  fold_left map_set (List.filter (wanted ids) catalog) ∅.

Record Flash := mkFlash { kind : string; text : string }.

(** [getSummary()] *)
Module SummaryItem.
Record t := mk {
  productId    : string;
  title        : string;
  imageUrl     : option string;
  qty          : Z;
  price        : Money;
  promoPrice   : option Money;
  lineSubtotal : Money
}.
End SummaryItem.

Record Summary := mkSummary {
  s_items    : list SummaryItem.t;
  s_count    : Z;
  s_subtotal : Money;
  s_discount : Money;
  s_total    : Money
}.

Definition getSummary (c : Cart) : Summary :=
  mkSummary
    (map (fun it => SummaryItem.mk (productId it) (title it) (imageUrl it)
                      (qty it) (price it) (promoPrice it) (lineSubtotal it))
         (items c))
    (count c) (subtotal c) (discount c) (total c).

Inductive View :=
| RedirectTo (location : string)
| Render (view : string) (summary : Summary).

(** What a handler leaves: the cart of the session, the messages it
    has flashed, its answer. *)
Record Result := mkResult {
  session : option Cart;
  flashes : list Flash;
  answer  : View
}.

(** The message of a [CartError]. *)
Definition message (code : CartErrorCode) : string :=
  match code with
  | INVALID_PRODUCT => "Producto inválido."
  | NOT_ACTIVE => "El producto no está activo."
  | OUT_OF_STOCK => "Sin stock disponible."
  | INVALID_QTY => "Cantidad inválida."
  end.

(** [delete it._adjusted] *)
Definition without_flag (it : Item) : Item :=
  {| productId := productId it; title := title it; imageUrl := imageUrl it;
     qty := qty it; stock := stock it; price := price it;
     promoPrice := promoPrice it; cents := cents it;
     lineSubtotal := lineSubtotal it; _adjusted := false |}.

Definition with_items (c : Cart) (l : list Item) : Cart :=
  mkCart l (count c) (subtotal c) (discount c) (total c) (_meta c).

(** [new CartService(req.session)] and its [data]. *)
Definition cart_of (session : option Cart) : Cart := default ensureCart session.

Definition viewCart (catalog : Catalog) (session : option Cart) : Result :=
  let cart := cart_of session in
  let ids := map productId (items cart) in
  let productsMap := getProductsMap catalog ids in
  let cart := recalc (Some productsMap) cart in
  let adjusted := existsb _adjusted (items cart) in
  let cart := if adjusted then with_items cart (map without_flag (items cart))
              else cart in
  let warned :=
    if adjusted
    then [mkFlash "warning"
            "Actualizamos cantidades según stock disponible. Revisa tu carrito."]
    else [] in
  match items cart with
  | [] =>
      mkResult (Some cart)
        (warned ++ [mkFlash "info"
             "Tu carrito está vacío. Agrega productos para continuar."])
        (RedirectTo "/")
  | _ => mkResult (Some cart) warned (Render "cart/cart" (getSummary cart))
  end.

(** The quantity that [addToCart] hands to [add]. *)
Definition add_qty (n : JsNumber) : Z :=
  let qty := match n with Finite q => Math_trunc q | _ => 1 end in
  if 0 <? qty then qty else 1.

Definition added_text (p : ProductDoc.t) : string :=
  ("Se agregó " ++ String Json.dquote
     (default "undefined" (ProductDoc.title p)
      ++ String Json.dquote " al carrito."))%string.

Definition addToCart (catalog : Catalog) (id : string) (n : JsNumber)
           (session : option Cart) : Result :=
  match findOne_active catalog id with
  | None =>
      mkResult session
        [mkFlash "error" "El producto no existe o no está disponible."]
        (RedirectTo "back")
  | Some product =>
      match add product (Some (add_qty n)) (cart_of session) with
      | (inr _, cart) =>
          mkResult (Some cart) [mkFlash "success" (added_text product)]
                   (RedirectTo "/cart")
      | (inl code, cart) =>
          mkResult (Some cart) [mkFlash "error" (message code)]
                   (RedirectTo "/cart")
      end
  end.

(** [Math.trunc(Number(req.body?.qty))], when it is finite. *)
Definition update_qty (n : JsNumber) : option Z :=
  match n with Finite q => Some (Math_trunc q) | _ => None end.

(** [qty < 1] in [updateQty]. *)
Definition below_one (n : JsNumber) : bool :=
  match n with
  | Finite q => Math_trunc q <? 1
  | NegInfinity => true
  | _ => false
  end.

Definition updateQty (catalog : Catalog) (id : string) (n : JsNumber)
           (session : option Cart) : Result :=
  let fresh := findOne_active catalog id in
  match setQty id (update_qty n) fresh (cart_of session) with
  | (inr _, cart) =>
      mkResult (Some cart)
        [mkFlash "success"
           (if below_one n then "Se eliminó el producto del carrito."
            else "Cantidad actualizada.")]
        (RedirectTo "/cart")
  | (inl code, cart) =>
      mkResult (Some cart) [mkFlash "error" (message code)] (RedirectTo "/cart")
  end.

Definition removeItem (id : string) (session : option Cart) : Result :=
  mkResult (Some (after (OpRemove id) (cart_of session)))
           [mkFlash "success" "Producto eliminado del carrito."]
           (RedirectTo "/cart").

Definition clearCart (session : option Cart) : Result :=
  mkResult (Some (after OpClear (cart_of session)))
           [mkFlash "success" "Carrito vacío."]
           (RedirectTo "/").

(** The requests that the routes of the cart serve. *)
Inductive Action :=
| GetCart
| PostAdd (id : string) (n : JsNumber)
| PostQty (id : string) (n : JsNumber)
| PostRemove (id : string)
| PostClear.

Definition serve (catalog : Catalog) (a : Action) (session : option Cart)
  : Result :=
  match a with
  | GetCart => viewCart catalog session
  | PostAdd id n => addToCart catalog id n session
  | PostQty id n => updateQty catalog id n session
  | PostRemove id => removeItem id session
  | PostClear => clearCart session
  end.

End CartController.

(** ** More sample data *)

Module Sample2.

Import CartService.

(** A product whose title is blank. *)
Definition blank : ProductDoc.t :=
  ProductDoc.mk (Some "64b7f0a1c2d3e4f5a6b7c8dd"%string) (Some "  "%string)
                None (Some 300%Q) (Some 5) (Some true) false None.

Definition cart_blank : Cart := after (OpAdd blank (Some 1)) ensureCart.

(** The order 0 rejected, and the order 1 that the next checkout of
    the same cart creates. *)
Definition db_two_orders : OrderModel.Db :=
  OrderController.run_call
    (OrderController.db
       (fst (OrderController.getCheckoutFailure (Sample.back "rejected")
               (OrderController.mkWorld Sample.db_created None))))
    (OrderController.mkCall Sample.user1
       (OrderController.session_cart Sample.cart_mate) None 61000).

(** A form whose address is not an identifier. *)
Definition home_form : OrderController.Body.t :=
  OrderController.Body.mk None (Some "home"%string) None.

(** One day and more after the first checkout of [Sample.db_created]. *)
Definition next_day : Z := 1000 + 24 * 60 * 60 * 1000 + 1.

(** A form posted by the user of [Sample.user1]. *)
Definition form_post : Checkout.Request :=
  Checkout.mkRequest (Some "text/html"%string) None
    (Some (Checkout.SessionUser.mk (Some Sample.user1) None)) None.

Definition development : MpService.Config :=
  MpService.mkConfig "http://localhost:8080" true.

(** The gateway does not answer. *)
Definition gateway_down : Checkout.Env :=
  Checkout.mkEnv None development (fun _ => None).

(** The gateway answers with a preference named after the order. *)
Definition gateway_up : Checkout.Env :=
  Checkout.mkEnv None development
    (fun b => Some (MpService.Pref.mk
                      (if Nat.eqb (MpService.PreferenceBody.external_reference b) 0
                       then "pref-0001" else "pref-other")
                      "https://mp.example/pay"
                      (Some "https://sandbox.mp.example/pay"%string))).

Definition world_cart : OrderController.World :=
  OrderController.mkWorld Sample.empty_db (Some Sample.cart_mate).

(** The shop: [Sample.mate] with two units left, and a product that
    is paused. *)
Definition mate_two_left : ProductDoc.t :=
  ProductDoc.mk (Some "64b7f0a1c2d3e4f5a6b7c8d9"%string) (Some "Mate"%string)
                None (Some 1000%Q) (Some 2) (Some true) true (Some 25%Q).

Definition termo_paused : ProductDoc.t :=
  ProductDoc.mk (Some "64b7f0a1c2d3e4f5a6b7c8da"%string) (Some "Termo"%string)
                None (Some (2550 # 100)%Q) (Some 3) (Some false) false None.

Definition shop : CartController.Catalog :=
  [Sample.mate; Sample.termo; Sample.sold_out; Sample.paused].

Definition shop_later : CartController.Catalog :=
  [mate_two_left; termo_paused].

End Sample2.

(** ** The lines and the sums of a cart *)

Module CartLines.

Import CartService.

Definition sum_of {A} (f : A -> Z) (l : list A) : Z :=
  fold_right (fun x acc => f x + acc) 0 l.

(** The two amounts of a line, as [recalc] takes them from its cents. *)
Definition lineFinalCents (it : Item) : Z :=
  match cents it with
  | Some u => Z.max (unitFinalCents u * qty it) 0
  | None => 0
  end.

Definition lineDiscountCents (it : Item) : Z :=
  match cents it with
  | Some u => Z.max (unitDiscountCents u * qty it) 0
  | None => 0
  end.

(** A line as [recalc] leaves it: a quantity and a stock of one or
    more, its cents, and its subtotal computed from them. *)
Definition settled (it : Item) : Prop :=
  1 <= qty it
  /\ (exists s, stock it = Some s /\ 1 <= s)
  /\ (exists u, cents it = Some u)
  /\ lineSubtotal it = lineFinalCents it.

(** What a line has taken from the fresh document of its product. *)
Definition refreshed_from (f : ProductDoc.t) (it : Item) : Prop :=
  stock it = Some (clampStock (ProductDoc.stock f))
  /\ qty it <= clampStock (ProductDoc.stock f)
  /\ cents it = Some (computeUnitPrice (priced_of_product f))
  /\ price it = unitBaseCents (computeUnitPrice (priced_of_product f))
  /\ promoPrice it = promoPrice_of (computeUnitPrice (priced_of_product f)).

(** A line whose quantity is between one and its stock. *)
Definition within_stock (it : Item) : Prop :=
  exists s, stock it = Some s /\ 1 <= qty it <= s.

(** A line whose quantity does not exceed its stock, when it has one
    that is positive. *)
Definition capped (it : Item) : Prop :=
  forall s, stock it = Some s -> 0 < s -> qty it <= s.

(** A line that [recalc] keeps: a quantity and a stock above zero,
    and its cents. *)
Definition live (it : Item) : Prop :=
  0 < qty it
  /\ (exists s, stock it = Some s /\ 0 < s)
  /\ (exists u, cents it = Some u).

(** A line whose quantity is above zero and within its stock. *)
Definition in_stock (it : Item) : Prop :=
  exists s, stock it = Some s /\ 0 < qty it <= s.

(** What identifies a line to the buyer: its product and its
    quantity. *)
Definition line_key (it : Item) : string * Z := (productId it, qty it).

End CartLines.

(** ** The routes of the return pages *)

Module CheckoutRoutes.

Import OrderModel OrderController.

(** The three return URLs of src/routes/checkout.js. *)
Inductive ReturnPage := Success | Pending | Failure.

Definition return_page (r : ReturnPage) : Query -> World -> World * Response :=
  match r with
  | Success => getCheckoutSuccess
  | Pending => getCheckoutPending
  | Failure => getCheckoutFailure
  end.

(** The status that a return page writes on the order [o] it has
    found. *)
Definition written_status (r : ReturnPage) (p : Params) (o : Order) : Status :=
  match r with
  | Success =>
      if bool_decide (p_status p = Some "approved"%string)
      then approved else status o
  | Pending => pending
  | Failure => rejected
  end.

(** Does the page empty the cart of the session, having written the
    status [s]? *)
Definition clears_cart (r : ReturnPage) (s : Status) : bool :=
  match r with
  | Success => bool_decide (s = approved)
  | _ => false
  end.

(** An order with its status and its two identifiers of Mercado Pago
    blanked: what is left is the user, the lines, the amounts, the
    shipping, the digest of the cart, the attempts, the expiry and the
    date of creation. *)
Definition kept (o : Order) : Order :=
  apply_patch (mkPatch None None created) o.

End CheckoutRoutes.

(** ** The manual change of status, src/controllers/admin.controller.js *)

Module AdminController.

Import OrderModel OrderController Checkout.

(** The statuses of [ALLOWED]. *)
Definition allowed (status : option string) : option Status :=
  match status with
  | Some s =>
      if bool_decide (s = "created"%string) then Some created
      else if bool_decide (s = "approved"%string) then Some approved
      else if bool_decide (s = "pending"%string) then Some pending
      else if bool_decide (s = "rejected"%string) then Some rejected
      else None
  | None => None
  end.

Inductive Answer :=
| Flashed (kind text : string)
| NextErr (e : DbError).

(** [Order.updateOne({ _id: id }, { $set: { status } })], which gives
    the count of the documents matched.  The partial unique index of the
    model refuses the update only where it has been built: [indexed]
    tells whether it has ([autoIndex] is off in production). *)
Definition updateOne_status (indexed : bool) (id : nat) (st : Status)
  : DbM nat :=
  fun db =>
    match find (fun o => Nat.eqb (_id o) id) (docs db) with
    | None => (inr 0%nat, db)
    | Some o =>
        let o' := apply_update (mkUpdate None None (Some st)) o in
        if indexed && collides o' (docs db) then (inl DuplicateKey, db)
        else (inr 1%nat, mkDb (replace_doc o' (docs db)) (nextId db))
    end.

(** [updateOrderStatus]: [id] is the parameter of the route once
    [ObjectId.isValid] has read it, [status] the field of the form.  It
    redirects to the list of the orders unless it fails. *)
Definition updateOrderStatus (indexed : bool) (id : Ref)
           (status : option string) (d : Db) : Db * Answer :=
  match allowed status with
  | None => (d, Flashed "error" "Estado inválido.")
  | Some st =>
      match id with
      | NotAnObjectId => (d, Flashed "error" "Pedido no encontrado.")
      | Oid n =>
          match updateOne_status indexed n st d with
          | (inl e, d') => (d', NextErr e)
          | (inr O, d') => (d', Flashed "error" "Pedido no encontrado.")
          | (inr _, d') =>
              (d', Flashed "success" "Estado actualizado correctamente.")
          end
      end
  end.

End AdminController.

(** ** The return address of a form, src/controllers/category.controller.js *)

Module CategoryController.

Import OrderController.

Fixpoint startsWith (s p : string) {struct p} : bool :=
  match p with
  | EmptyString => true
  | String a p' =>
      match s with
      | EmptyString => false
      | String b s' => Ascii.eqb a b && startsWith s' p'
      end
  end.

(** [safeReturnTo(req)], given [req.query.returnTo] and
    [req.body.returnTo]; the white space trimmed is that of ASCII. *)
Definition safeReturnTo (query_returnTo body_returnTo : option string)
  : option string :=
  let raw :=
    OrderModel.trim
      (default EmptyString (or_else query_returnTo (truthy body_returnTo))) in
  if negb (OrderModel.nonempty raw) then None
  else if negb (startsWith raw "/") || startsWith raw "//" then None
  else Some raw.

End CategoryController.

(** ** The carts of the sessions *)

Module CartSession.

Import CartService.

(** What the cart of a session is to satisfy: one line per product,
    quantities above zero and within the stock, and a total that is the
    subtotal. *)
Definition tidy (c : Cart) : Prop :=
  NoDup (productId <$> items c)
  /\ Forall CartLines.in_stock (items c)
  /\ total c = subtotal c.

(** A session with no cart, or with a tidy one. *)
Definition tidy_session (session : option Cart) : Prop :=
  match session with
  | Some c => tidy c
  | None => True
  end.

End CartSession.

(** ** The cart with the numbers of the Product schema

    [stock] of the Product schema is a [Number] with [min: 0], and the
    form of the administrator takes any number that is finite and not
    negative: nothing makes it whole.  [add], [setQty] and [recalc] cap
    the quantity of a line with it, so that the stock and the quantity
    of a line and the count of the cart are numbers as well.  The
    modules [ProductDoc] and [CartService] above have them in [Z]; here
    they are rationals, and [Math.round] is applied to the amounts of a
    line as the code applies it. *)

Module ProductNum.

Record t := mk {
  _id          : option string;   (* String(product._id), when present *)
  title        : option string;
  imageUrl     : option string;
  price        : option Q;
  stock        : option Q;
  active       : option bool;
  promoEnabled : bool;
  promoPct     : option Q
}.

End ProductNum.

Module CartNum.

(** [x < y] on numbers. *)
Definition Qltb (x y : Q) : bool := negb (Qle_bool y x).

Record Item := mkItem {
  productId    : string;
  title        : string;
  imageUrl     : option string;
  qty          : Q;
  stock        : option Q;
  price        : Money;
  promoPrice   : option Money;
  cents        : option CartService.UnitPrice;
  lineSubtotal : Money;
  _adjusted    : bool
}.

Record Cart := mkCart {
  items    : list Item;
  count    : Q;
  subtotal : Money;
  discount : Money;
  total    : Money;
  _meta    : CartService.Meta
}.

Definition ensureCart : Cart :=
  mkCart [] 0%Q 0 0 0 (CartService.mkMeta 0 0 0).

Definition priced_of_product (p : ProductNum.t) : CartService.Priced :=
  CartService.mkPriced (ProductNum.price p) (ProductNum.promoEnabled p)
                       (ProductNum.promoPct p).

Definition priced_of_item (it : Item) : CartService.Priced :=
  CartService.mkPriced (Some (inject_Z (price it) / 100)%Q) false None.

Definition refresh_snapshot (p : ProductNum.t) (it : Item)
           (newQty : Q) (newStock : Q) (adjusted : bool) : Item :=
  let u := CartService.computeUnitPrice (priced_of_product p) in
  {| productId    := productId it;
     title        := default (title it) (ProductNum.title p);
     imageUrl     := match ProductNum.imageUrl p with
                     | Some i => Some i
                     | None => imageUrl it
                     end;
     qty          := newQty;
     stock        := Some newStock;
     price        := CartService.fromCents (CartService.unitBaseCents u);
     promoPrice   := CartService.promoPrice_of u;
     cents        := Some u;
     lineSubtotal := lineSubtotal it;
     _adjusted    := adjusted |}.

Definition with_cents (it : Item) (u : CartService.UnitPrice) : Item :=
  {| productId := productId it; title := title it; imageUrl := imageUrl it;
     qty := qty it; stock := stock it;
     price := CartService.fromCents (CartService.unitBaseCents u);
     promoPrice := CartService.promoPrice_of u;
     cents := Some u;
     lineSubtotal := lineSubtotal it; _adjusted := _adjusted it |}.

Definition with_lineSubtotal (it : Item) (m : Money) : Item :=
  {| productId := productId it; title := title it; imageUrl := imageUrl it;
     qty := qty it; stock := stock it; price := price it;
     promoPrice := promoPrice it; cents := cents it;
     lineSubtotal := m; _adjusted := _adjusted it |}.

Definition with_qty (it : Item) (q : Q) : Item :=
  {| productId := productId it; title := title it; imageUrl := imageUrl it;
     qty := q; stock := stock it; price := price it;
     promoPrice := promoPrice it; cents := cents it;
     lineSubtotal := lineSubtotal it; _adjusted := _adjusted it |}.

(** [typeof s === 'number' ? Math.max(s, 0) : 0] *)
Definition clampStock (s : option Q) : Q :=
  match s with Some n => Qmax n 0 | None => 0%Q end.

Record Sums := mkSums { s_subtotal : Z; s_discount : Z; s_count : Q }.

Definition recalc_refresh (fresh : option ProductNum.t) (it : Item) : Item :=
  match fresh with
  | Some f =>
      let stockFresh :=
        match ProductNum.stock f with
        | Some s => Qmax s 0
        | None => default 0%Q (stock it)
        end in
      if Qltb stockFresh (qty it)
      then refresh_snapshot f it stockFresh stockFresh true
      else refresh_snapshot f it (qty it) stockFresh (_adjusted it)
  | None => it
  end.

(** [Math.max(Math.round(unitCents * qty), 0)] *)
Definition line_cents (unitCents : Z) (q : Q) : Z :=
  Z.max (CartService.Math_round (inject_Z unitCents * q)%Q) 0.

Definition recalc_line (fresh : option ProductNum.t) (it0 : Item)
  : option (Item * Z * Z) :=
  let it := recalc_refresh fresh it0 in
  let stockNow :=
    match fresh with
    | Some f => clampStock (ProductNum.stock f)
    | None => clampStock (stock it)
    end in
  if Qle_bool stockNow 0 || Qle_bool (qty it) 0 then None
  else
    let it :=
      match cents it with
      | Some _ => it
      | None =>
          with_cents it
            (CartService.computeUnitPrice
               match fresh with
               | Some f => priced_of_product f
               | None => priced_of_item it
               end)
      end in
    let u := default (CartService.mkUnitPrice 0 0 0) (cents it) in
    let lineFinalCents := line_cents (CartService.unitFinalCents u) (qty it) in
    let lineDiscountCents :=
      line_cents (CartService.unitDiscountCents u) (qty it) in
    Some (with_lineSubtotal it (CartService.fromCents lineFinalCents),
          lineFinalCents, lineDiscountCents).

Definition lookup_fresh (productsMap : option (gmap string ProductNum.t))
           (it : Item) : option ProductNum.t :=
  match productsMap with
  | Some m => m !! productId it
  | None => None
  end.

Fixpoint recalc_loop (productsMap : option (gmap string ProductNum.t))
         (l : list Item) (acc : Sums) : list Item * Sums :=
  match l with
  | [] => ([], acc)
  | it :: rest =>
      match recalc_line (lookup_fresh productsMap it) it with
      | None => recalc_loop productsMap rest acc
      | Some (it', lineFinalCents, lineDiscountCents) =>
          let acc' := mkSums (s_subtotal acc + lineFinalCents)
                             (s_discount acc + lineDiscountCents)
                             (s_count acc + qty it')%Q in
          let '(rest', out) := recalc_loop productsMap rest acc' in
          (it' :: rest', out)
      end
  end.

Definition recalc (productsMap : option (gmap string ProductNum.t))
           (cart : Cart) : Cart :=
  let '(items', sums) :=
    recalc_loop productsMap (items cart) (mkSums 0 0 0%Q) in
  let totalCents := Z.max (s_subtotal sums) 0 in
  {| items    := items';
     count    := s_count sums;
     subtotal := CartService.fromCents (s_subtotal sums);
     discount := CartService.fromCents (s_discount sums);
     total    := CartService.fromCents totalCents;
     _meta    := CartService.mkMeta (s_subtotal sums) (s_discount sums)
                                    totalCents |}.

Abbreviation M := (SE Cart CartService.CartErrorCode).

Definition data : M Cart := get_state.
Definition set_items (l : list Item) : M unit :=
  fun c => (inr tt, mkCart l (count c) (subtotal c) (discount c) (total c)
                           (_meta c)).
Definition do_recalc (pm : option (gmap string ProductNum.t)) : M unit :=
  fun c => (inr tt, recalc pm c).

(** [!product?._id] *)
Definition lacks_id (p : ProductNum.t) : bool :=
  match ProductNum._id p with
  | None => true
  | Some s => if decide (s = EmptyString) then true else false
  end.

Definition deactivated (p : ProductNum.t) : bool :=
  match ProductNum.active p with Some false => true | _ => false end.

(** [Math.max(Number(product.stock ?? 0), 0)] *)
Definition availableStock (p : ProductNum.t) : Q :=
  Qmax (default 0%Q (ProductNum.stock p)) 0.

(** [add(product, qty = 1)]; as in [CartService.add], [qty0] is the
    argument once [Math.trunc] has cut it, [None] when it is missing or
    not finite. *)
Definition add (product : ProductNum.t) (qty0 : option Z) : M unit :=
  when_throw (lacks_id product) CartService.INVALID_PRODUCT;;
  let pid := default EmptyString (ProductNum._id product) in
  when_throw (deactivated product) CartService.NOT_ACTIVE;;
  let stock := availableStock product in
  when_throw (Qle_bool stock 0) CartService.OUT_OF_STOCK;;
  let addQty := CartService.requestedQty qty0 in
  when_throw (addQty <=? 0) CartService.INVALID_QTY;;
  let u := CartService.computeUnitPrice (priced_of_product product) in
  cart ← data;
  match list_find (fun it => productId it = pid) (items cart) with
  | Some (idx, it) =>
      let newQty := Qmin (qty it + inject_Z addQty) stock in
      set_items (<[idx := refresh_snapshot product it newQty stock (_adjusted it)]>
                   (items cart))
  | None =>
      let qtyClamped := Qmin (inject_Z addQty) stock in
      set_items (items cart ++
        [ {| productId := pid;
             title := default "Producto"%string (ProductNum.title product);
             imageUrl := ProductNum.imageUrl product;
             qty := qtyClamped;
             stock := Some stock;
             price := CartService.fromCents (CartService.unitBaseCents u);
             promoPrice := CartService.promoPrice_of u;
             cents := Some u;
             lineSubtotal := 0;
             _adjusted := false |} ])
  end;;
  do_recalc None.

(** [setQty(productId, qty, product)]; [qty0 = None] stands for a
    quantity that [Math.trunc(Number(qty))] does not make finite. *)
Definition setQty (pid : string) (qty0 : option Z)
           (product : option ProductNum.t) : M unit :=
  cart ← data;
  match list_find (fun it => productId it = pid) (items cart) with
  | None => mret tt
  | Some (idx, it) =>
      match qty0 with
      | None => throw CartService.INVALID_QTY
      | Some newQty =>
          if newQty <? 1 then
            set_items (delete idx (items cart)) ;; do_recalc None
          else
            let maxStock := default 0%Q (stock it) in
            let '(maxStock, it) :=
              match product with
              | Some p =>
                  match ProductNum.stock p with
                  | Some s =>
                      let m := Qmax s 0 in
                      (m, refresh_snapshot p it (qty it) m (_adjusted it))
                  | None => (maxStock, it)
                  end
              | None => (maxStock, it)
              end in
            set_items
              (<[idx := with_qty it (Qmin (inject_Z newQty) (Qmax maxStock 0))]>
                 (items cart));;
            do_recalc None
      end
  end.

Definition remove (pid : string) : M unit :=
  cart ← data;
  set_items (filter (fun it => productId it <> pid) (items cart));;
  do_recalc None.

Definition clear : M unit :=
  set_items [] ;; do_recalc None.

Inductive Op :=
| OpAdd (product : ProductNum.t) (qty : option Z)
| OpSetQty (pid : string) (qty : option Z) (product : option ProductNum.t)
| OpRemove (pid : string)
| OpClear
| OpRecalc (productsMap : option (gmap string ProductNum.t)).

Definition run (o : Op) : M unit :=
  match o with
  | OpAdd p q => add p q
  | OpSetQty pid q p => setQty pid q p
  | OpRemove pid => remove pid
  | OpClear => clear
  | OpRecalc pm => do_recalc pm
  end.

(** The cart that an operation leaves in the session, whether it
    returns or throws. *)
Definition after (o : Op) (c : Cart) : Cart := snd (run o c).

Inductive reachable : Cart -> Prop :=
| reach_new : reachable ensureCart
| reach_op o c : reachable c -> reachable (after o c).

(** *** What is said of a line *)

Definition lineFinalCents (it : Item) : Z :=
  match cents it with
  | Some u => line_cents (CartService.unitFinalCents u) (qty it)
  | None => 0
  end.

Definition lineDiscountCents (it : Item) : Z :=
  match cents it with
  | Some u => line_cents (CartService.unitDiscountCents u) (qty it)
  | None => 0
  end.

(** A line as [recalc] leaves it: a quantity and a stock above zero,
    its cents, and its subtotal computed from them. *)
Definition settled (it : Item) : Prop :=
  (0 < qty it)%Q
  /\ (exists s, stock it = Some s /\ (0 < s)%Q)
  /\ (exists u, cents it = Some u)
  /\ lineSubtotal it = lineFinalCents it.

(** What a line has taken from the fresh document of its product. *)
Definition refreshed_from (f : ProductNum.t) (it : Item) : Prop :=
  stock it = Some (clampStock (ProductNum.stock f))
  /\ (qty it <= clampStock (ProductNum.stock f))%Q
  /\ cents it = Some (CartService.computeUnitPrice (priced_of_product f))
  /\ price it
     = CartService.unitBaseCents
         (CartService.computeUnitPrice (priced_of_product f))
  /\ promoPrice it
     = CartService.promoPrice_of
         (CartService.computeUnitPrice (priced_of_product f)).

(** A line whose quantity is above zero and within its stock. *)
Definition within_stock (it : Item) : Prop :=
  exists s, stock it = Some s /\ (0 < qty it)%Q /\ (qty it <= s)%Q.

(** A line whose quantity does not exceed its stock, when it has one
    that is positive. *)
Definition capped (it : Item) : Prop :=
  forall s, stock it = Some s -> (0 < s)%Q -> (qty it <= s)%Q.

(** The stock that [setQty] is given in a fresh document. *)
Definition given_stock (product : option ProductNum.t) : option Q :=
  match product with
  | Some p => ProductNum.stock p
  | None => None
  end.

(** *** Sample data: yerba sold by weight *)

(** Half a kilo left, at 10.10 the kilo. *)
Definition yerba_half : ProductNum.t :=
  ProductNum.mk (Some "64b7f0a1c2d3e4f5a6b7c8dd"%string) (Some "Yerba"%string)
                None (Some (1010 # 100)%Q) (Some (1 # 2)%Q) (Some true)
                false None.

(** A kilo and a half left. *)
Definition yerba_more : ProductNum.t :=
  ProductNum.mk (Some "64b7f0a1c2d3e4f5a6b7c8dd"%string) (Some "Yerba"%string)
                None (Some (1010 # 100)%Q) (Some (3 # 2)%Q) (Some true)
                false None.

(** Five units of a product that is counted. *)
Definition mate_five : ProductNum.t :=
  ProductNum.mk (Some "64b7f0a1c2d3e4f5a6b7c8d9"%string) (Some "Mate"%string)
                None (Some 1000%Q) (Some 5%Q) (Some true) true (Some 25%Q).

Definition cart_half : Cart := after (OpAdd yerba_half (Some 1)) ensureCart.

(** The line of [cart_half]: half a kilo. *)
Definition line_half : Item :=
  mkItem "64b7f0a1c2d3e4f5a6b7c8dd" "Yerba" None (1 # 2)%Q (Some (1 # 2)%Q)
         1010 None (Some (CartService.mkUnitPrice 1010 1010 0)) 505 false.

(** The line of [cart_more]: a kilo and a half. *)
Definition line_more : Item :=
  mkItem "64b7f0a1c2d3e4f5a6b7c8dd" "Yerba" None (3 # 2)%Q (Some (3 # 2)%Q)
         1010 None (Some (CartService.mkUnitPrice 1010 1010 0)) 1515 false.

Definition cart_more : Cart := after (OpAdd yerba_more (Some 1)) cart_half.

Definition cart_yerba_mate : Cart := after (OpAdd mate_five (Some 2)) cart_half.

End CartNum.

(** ** The cart of whole numbers among the carts of numbers *)

Module Whole.

(** The documents and the carts of [CartService], read as documents and
    carts of [CartNum]. *)
Definition of_product (p : ProductDoc.t) : ProductNum.t :=
  ProductNum.mk (ProductDoc._id p) (ProductDoc.title p)
                (ProductDoc.imageUrl p) (ProductDoc.price p)
                (inject_Z <$> ProductDoc.stock p) (ProductDoc.active p)
                (ProductDoc.promoEnabled p) (ProductDoc.promoPct p).

Definition of_item (it : CartService.Item) : CartNum.Item :=
  CartNum.mkItem (CartService.productId it) (CartService.title it)
                 (CartService.imageUrl it) (inject_Z (CartService.qty it))
                 (inject_Z <$> CartService.stock it) (CartService.price it)
                 (CartService.promoPrice it) (CartService.cents it)
                 (CartService.lineSubtotal it) (CartService._adjusted it).

Definition of_cart (c : CartService.Cart) : CartNum.Cart :=
  CartNum.mkCart (of_item <$> CartService.items c)
                 (inject_Z (CartService.count c)) (CartService.subtotal c)
                 (CartService.discount c) (CartService.total c)
                 (CartService._meta c).

Definition of_map (pm : option (gmap string ProductDoc.t))
  : option (gmap string ProductNum.t) :=
  fmap (M := gmap string) of_product <$> pm.

Definition of_sums (a : CartService.Sums) : CartNum.Sums :=
  CartNum.mkSums (CartService.s_subtotal a) (CartService.s_discount a)
                 (inject_Z (CartService.s_count a)).

Definition of_line (r : CartService.Item * Z * Z) : CartNum.Item * Z * Z :=
  let '(it, a, b) := r in (of_item it, a, b).

Definition of_op (o : CartService.Op) : CartNum.Op :=
  match o with
  | CartService.OpAdd p q => CartNum.OpAdd (of_product p) q
  | CartService.OpSetQty pid q p => CartNum.OpSetQty pid q (of_product <$> p)
  | CartService.OpRemove pid => CartNum.OpRemove pid
  | CartService.OpClear => CartNum.OpClear
  | CartService.OpRecalc pm => CartNum.OpRecalc (of_map pm)
  end.

End Whole.

(** * Properties of the cart *)

Module CartFacts.

Import CartService.

Lemma when_throw_true {S E} (e : E) (s : S) A (k : SE S E A) :
  (when_throw true e ;; k) s = (inl e, s).
Proof. reflexivity. Qed.

Lemma when_throw_false {S E} (e : E) A (k : SE S E A) :
  (when_throw false e ;; k) = k.
Proof. reflexivity. Qed.

(** ** The validation cascade of [add] *)

(** The body of [add] once its four checks have passed. *)
Lemma add_checked product qty0 cart :
  lacks_id product = false ->
  deactivated product = false ->
  0 < availableStock product ->
  0 < requestedQty qty0 ->
  exists l, add product qty0 cart
            = (inr tt, recalc None (mkCart l (count cart) (subtotal cart)
                                     (discount cart) (total cart) (_meta cart)))
            /\ (match findIndex (default EmptyString (ProductDoc._id product))
                                (items cart) with
                | Some (idx, it) =>
                    l = <[idx := refresh_snapshot product it
                                   (Z.min (qty it + requestedQty qty0)
                                          (availableStock product))
                                   (availableStock product) (_adjusted it)]>
                          (items cart)
                | None =>
                    exists new, l = items cart ++ [new]
                      /\ productId new = default EmptyString (ProductDoc._id product)
                      /\ qty new = Z.min (requestedQty qty0) (availableStock product)
                      /\ stock new = Some (availableStock product)
                end).
Proof.
  intros Hid Hact Hst Hq. unfold add.
  rewrite Hid, Hact, !when_throw_false.
  replace (availableStock product <=? 0) with false by (symmetry; apply Z.leb_gt; lia).
  rewrite when_throw_false.
  replace (requestedQty qty0 <=? 0) with false by (symmetry; apply Z.leb_gt; lia).
  rewrite when_throw_false.
  destruct (findIndex _ (items cart)) as [[idx it]|] eqn:Hf.
  - eexists. split.
    + unfold mbind, SE_bind, se_bind, data, get_state. simpl. rewrite Hf. reflexivity.
    + reflexivity.
  - eexists. split.
    + unfold mbind, SE_bind, se_bind, data, get_state. simpl. rewrite Hf. reflexivity.
    + eexists. split; [reflexivity|]. simpl. auto.
Qed.

(** C7.  [add] fails with INVALID_PRODUCT when the product lacks an
    identifier; else with NOT_ACTIVE when it is deactivated; else with
    OUT_OF_STOCK when its available stock is 0; else with INVALID_QTY
    when the requested quantity is 0 or less; it succeeds otherwise;
    and a failure leaves the cart as it was. *)
Theorem add_validation (product : ProductDoc.t) (qty0 : option Z) (cart : Cart) :
  (lacks_id product = true ->
     add product qty0 cart = (inl INVALID_PRODUCT, cart))
  /\ (lacks_id product = false -> deactivated product = true ->
     add product qty0 cart = (inl NOT_ACTIVE, cart))
  /\ (lacks_id product = false -> deactivated product = false ->
      availableStock product = 0 ->
     add product qty0 cart = (inl OUT_OF_STOCK, cart))
  /\ (lacks_id product = false -> deactivated product = false ->
      availableStock product <> 0 ->
      forall q, qty0 = Some q -> q <= 0 ->
     add product qty0 cart = (inl INVALID_QTY, cart))
  /\ (lacks_id product = false -> deactivated product = false ->
      availableStock product <> 0 ->
      (forall q, qty0 = Some q -> 0 < q) ->
     exists cart', add product qty0 cart = (inr tt, cart'))
  /\ (forall e cart', add product qty0 cart = (inl e, cart') -> cart' = cart).
Proof.
  assert (Hst : 0 <= availableStock product) by (unfold availableStock; lia).
  repeat split.
  - intros Hid. unfold add. rewrite Hid. reflexivity.
  - intros Hid Hact. unfold add. rewrite Hid, Hact. reflexivity.
  - intros Hid Hact H0. unfold add. rewrite Hid, Hact, H0. reflexivity.
  - intros Hid Hact H0 q -> Hq. unfold add. rewrite Hid, Hact, !when_throw_false.
    replace (availableStock product <=? 0) with false by (symmetry; apply Z.leb_gt; lia).
    rewrite when_throw_false. simpl requestedQty.
    replace (q <=? 0) with true by (symmetry; apply Z.leb_le; lia).
    reflexivity.
  - intros Hid Hact H0 Hq.
    destruct (add_checked product qty0 cart) as (l & -> & _); auto; try lia.
    + destruct qty0 as [q|]; simpl; [apply Hq; reflexivity | lia].
    + eauto.
  - intros e cart'.
    destruct (lacks_id product) eqn:Hid;
      [unfold add; rewrite Hid; intros [= _ <-]; reflexivity|].
    destruct (deactivated product) eqn:Hact;
      [unfold add; rewrite Hid, Hact; intros [= _ <-]; reflexivity|].
    destruct (Z.leb_spec (availableStock product) 0) as [Hs|Hs].
    { unfold add. rewrite Hid, Hact, !when_throw_false.
      replace (availableStock product <=? 0) with true by (symmetry; apply Z.leb_le; lia).
      intros [= _ <-]; reflexivity. }
    destruct (Z.leb_spec (requestedQty qty0) 0) as [Hq|Hq].
    { unfold add. rewrite Hid, Hact, !when_throw_false.
      replace (availableStock product <=? 0) with false by (symmetry; apply Z.leb_gt; lia).
      rewrite when_throw_false.
      replace (requestedQty qty0 <=? 0) with true by (symmetry; apply Z.leb_le; lia).
      intros [= _ <-]; reflexivity. }
    destruct (add_checked product qty0 cart) as (l & -> & _); auto.
    discriminate.
Qed.

Lemma add_success_inv product qty0 cart cart' :
  add product qty0 cart = (inr tt, cart') ->
  lacks_id product = false /\ deactivated product = false
  /\ 0 < availableStock product /\ 0 < requestedQty qty0.
Proof.
  unfold add.
  destruct (lacks_id product); [discriminate|].
  destruct (deactivated product); [discriminate|].
  rewrite !when_throw_false.
  destruct (Z.leb_spec (availableStock product) 0); [discriminate|].
  rewrite when_throw_false.
  destruct (Z.leb_spec (requestedQty qty0) 0); [discriminate|].
  auto.
Qed.

(** ** What [recalc] keeps of a line *)

Lemma recalc_refresh_productId fresh it :
  productId (recalc_refresh fresh it) = productId it.
Proof.
  unfold recalc_refresh. destruct fresh as [f|]; [|reflexivity].
  destruct (_ <? _); reflexivity.
Qed.

Lemma recalc_line_productId fresh it it' a b :
  recalc_line fresh it = Some (it', a, b) -> productId it' = productId it.
Proof.
  unfold recalc_line. destruct (_ || _); [discriminate|].
  intros [= <- _ _]. simpl.
  destruct (cents (recalc_refresh fresh it)); simpl;
    apply recalc_refresh_productId.
Qed.

(** Without fresh products a surviving line keeps its quantity, which
    is positive. *)
Lemma recalc_line_None_qty it it' a b :
  recalc_line None it = Some (it', a, b) -> qty it' = qty it /\ 0 < qty it.
Proof.
  unfold recalc_line. simpl recalc_refresh.
  destruct (_ <=? 0) eqn:Hs; [discriminate|].
  destruct (qty it <=? 0) eqn:Hq; [discriminate|].
  simpl. intros [= <- _ _]. apply Z.leb_gt in Hq.
  destruct (cents it); simpl; auto.
Qed.

Lemma recalc_loop_elem pm l : forall acc l' s,
  recalc_loop pm l acc = (l', s) ->
  forall it', it' ∈ l' ->
    exists it a b, it ∈ l /\ recalc_line (lookup_fresh pm it) it = Some (it', a, b).
Proof.
  induction l as [|x l IH]; intros acc l' s; simpl.
  - intros [= <- _] it' Hin. inversion Hin.
  - destruct (recalc_line (lookup_fresh pm x) x) as [[[x' a] b]|] eqn:Hx.
    + destruct (recalc_loop pm l _) as [r out] eqn:Hr.
      intros [= <- _] it' Hin. apply elem_of_cons in Hin as [->|Hin].
      * exists x, a, b. split; [left|assumption].
      * destruct (IH _ _ _ Hr it' Hin) as (it & a' & b' & Hit & Hl).
        exists it, a', b'. split; [right; assumption|assumption].
    + intros Hr it' Hin.
      destruct (IH _ _ _ Hr it' Hin) as (it & a' & b' & Hit & Hl).
      exists it, a', b'. split; [right; assumption|assumption].
Qed.

Lemma recalc_items pm c :
  items (recalc pm c) = fst (recalc_loop pm (items c) (mkSums 0 0 0)).
Proof. unfold recalc. destruct (recalc_loop _ _ _). reflexivity. Qed.

(** ** [recalc] run twice *)

Lemma default_default {A} (x : A) (o : option A) :
  default (default x o) o = default x o.
Proof. destruct o; reflexivity. Qed.

(** A line that [recalc] has left is left as it is by the same
    [recalc]. *)
Lemma recalc_line_idem fresh it it' a b :
  recalc_line fresh it = Some (it', a, b) ->
  recalc_line fresh it' = Some (it', a, b).
Proof.
  unfold recalc_line. destruct fresh as [f|].
  - destruct (clampStock (ProductDoc.stock f) <=? 0) eqn:Hs; [discriminate|].
    destruct (ProductDoc.stock f) as [s|] eqn:Hfs; [|discriminate].
    simpl in Hs. apply Z.leb_gt in Hs.
    unfold recalc_refresh. rewrite Hfs.
    destruct (Z.max s 0 <? qty it) eqn:Hlt; simpl.
    + destruct (Z.max s 0 <=? 0) eqn:Hq; [discriminate|]. simpl.
      intros [= <- <- <-]. simpl.
      rewrite Z.ltb_irrefl. simpl. rewrite Hq. simpl.
      unfold with_lineSubtotal, refresh_snapshot. simpl.
      rewrite default_default. destruct (ProductDoc.imageUrl f); reflexivity.
    + destruct (qty it <=? 0) eqn:Hq; [discriminate|]. simpl.
      intros [= <- <- <-]. simpl.
      rewrite Hlt. simpl. rewrite Hq. simpl.
      unfold with_lineSubtotal, refresh_snapshot. simpl.
      rewrite default_default. destruct (ProductDoc.imageUrl f); reflexivity.
  - simpl recalc_refresh.
    destruct (clampStock (stock it) <=? 0) eqn:Hs; [discriminate|].
    destruct (qty it <=? 0) eqn:Hq; [discriminate|]. simpl.
    intros [= <- <- <-].
    destruct (cents it) as [u|] eqn:Hc; simpl; rewrite ?Hc, Hs, Hq; simpl;
      rewrite ?Hc; reflexivity.
Qed.

Lemma lookup_fresh_productId pm it it' :
  productId it' = productId it -> lookup_fresh pm it' = lookup_fresh pm it.
Proof. intros H. unfold lookup_fresh. rewrite H. reflexivity. Qed.

Lemma recalc_line_qty_unchanged fresh it it' a b :
  recalc_line fresh it = Some (it', a, b) ->
  qty it' = qty (recalc_refresh fresh it).
Proof.
  unfold recalc_line. destruct (_ || _); [discriminate|].
  intros [= <- _ _]. simpl. destruct (cents _); reflexivity.
Qed.

Lemma recalc_loop_idem pm l : forall acc l' s,
  recalc_loop pm l acc = (l', s) -> recalc_loop pm l' acc = (l', s).
Proof.
  induction l as [|x l IH]; intros acc l' s; simpl.
  - intros [= <- <-]. reflexivity.
  - destruct (recalc_line (lookup_fresh pm x) x) as [[[x' a] b]|] eqn:Hx.
    + destruct (recalc_loop pm l _) as [r out] eqn:Hr.
      intros [= <- <-]. simpl.
      rewrite (lookup_fresh_productId pm x x')
        by (eapply recalc_line_productId; eassumption).
      rewrite (recalc_line_idem _ _ _ _ _ Hx).
      rewrite (IH _ _ _ Hr). reflexivity.
    + apply IH.
Qed.

(** C9.  Calling [recalc] a second time with the same products map
    leaves the whole cart (its subtotal, discount, total, count and
    lines) as the first call left it. *)
Theorem recalc_idempotent (productsMap : option (gmap string ProductDoc.t))
        (c : Cart) :
  recalc productsMap (recalc productsMap c) = recalc productsMap c.
Proof.
  unfold recalc.
  destruct (recalc_loop productsMap (items c) _) as [l s] eqn:Hl. simpl.
  rewrite (recalc_loop_idem _ _ _ _ _ Hl). reflexivity.
Qed.

(** ** The total of a cart *)

Lemma recalc_line_amount fresh it it' a b :
  recalc_line fresh it = Some (it', a, b) -> 0 <= a.
Proof.
  unfold recalc_line. destruct (_ || _); [discriminate|].
  intros [= _ <- _]. lia.
Qed.

Lemma recalc_loop_subtotal pm l : forall acc l' s,
  recalc_loop pm l acc = (l', s) -> 0 <= s_subtotal acc -> 0 <= s_subtotal s.
Proof.
  induction l as [|x l IH]; intros acc l' s; simpl.
  - intros [= _ <-]. auto.
  - destruct (recalc_line (lookup_fresh pm x) x) as [[[x' a] b]|] eqn:Hx.
    + destruct (recalc_loop pm l _) as [r out] eqn:Hr.
      intros [= _ <-] Hacc. eapply IH; [exact Hr|]. simpl.
      pose proof (recalc_line_amount _ _ _ _ _ Hx). lia.
    + apply IH.
Qed.

Lemma recalc_total pm c :
  total (recalc pm c) = subtotal (recalc pm c)
  /\ totalCents (_meta (recalc pm c)) = subtotalCents (_meta (recalc pm c)).
Proof.
  unfold recalc.
  destruct (recalc_loop pm (items c) _) as [l s] eqn:Hl. simpl.
  pose proof (recalc_loop_subtotal _ _ _ _ _ Hl) as H. simpl in H.
  unfold fromCents. lia.
Qed.

(** ** The lines of a cart have distinct products *)

Lemma recalc_loop_ids pm l : forall acc l' s,
  recalc_loop pm l acc = (l', s) ->
  (productId <$> l') `sublist_of` (productId <$> l).
Proof.
  induction l as [|x l IH]; intros acc l' s; simpl.
  - intros [= <- _]. constructor.
  - destruct (recalc_line (lookup_fresh pm x) x) as [[[x' a] b]|] eqn:Hx.
    + destruct (recalc_loop pm l _) as [r out] eqn:Hr.
      intros [= <- _]. rewrite ?fmap_cons.
      rewrite (recalc_line_productId _ _ _ _ _ Hx).
      apply sublist_skip. eapply IH. exact Hr.
    + intros Hr. rewrite ?fmap_cons. apply sublist_cons. eapply IH. exact Hr.
Qed.

Lemma recalc_nodup pm c :
  NoDup (productId <$> items c) -> NoDup (productId <$> items (recalc pm c)).
Proof.
  intros Hnd. rewrite recalc_items.
  destruct (recalc_loop pm (items c) (mkSums 0 0 0)) as [l s] eqn:Hl. simpl.
  eapply sublist_NoDup; [exact Hnd|]. eapply recalc_loop_ids. exact Hl.
Qed.

(** Writing at its place a line of the same product keeps the products
    of the lines. *)
Lemma insert_same_product (l : list Item) idx it it' :
  l !! idx = Some it -> productId it' = productId it ->
  productId <$> <[idx := it']> l = productId <$> l.
Proof.
  intros Hidx Hp. rewrite list_fmap_insert, Hp.
  apply list_insert_id. rewrite list_lookup_fmap, Hidx. reflexivity.
Qed.

(** An operation leaves the cart as it was or as a [recalc] left it,
    run on lines that have distinct products when those of the cart
    have. *)
Lemma after_shape o c :
  after o c = c
  \/ exists pm c0, after o c = recalc pm c0
       /\ (NoDup (productId <$> items c) -> NoDup (productId <$> items c0)).
Proof.
  unfold after. destruct o as [p q|pid q p| pid | | pm]; simpl run.
  - destruct (add p q c) as [[e|[]] c'] eqn:Ha.
    + left. simpl.
      destruct (lacks_id p) eqn:Hid;
        [unfold add in Ha; rewrite Hid in Ha; injection Ha as _ <-; reflexivity|].
      destruct (deactivated p) eqn:Hact;
        [unfold add in Ha; rewrite Hid, Hact in Ha; injection Ha as _ <-; reflexivity|].
      destruct (Z.leb_spec (availableStock p) 0) as [Hs|Hs].
      { unfold add in Ha. rewrite Hid, Hact, !when_throw_false in Ha.
        replace (availableStock p <=? 0) with true in Ha
          by (symmetry; apply Z.leb_le; lia).
        injection Ha as _ <-; reflexivity. }
      destruct (Z.leb_spec (requestedQty q) 0) as [Hq|Hq].
      { unfold add in Ha. rewrite Hid, Hact, !when_throw_false in Ha.
        replace (availableStock p <=? 0) with false in Ha
          by (symmetry; apply Z.leb_gt; lia).
        rewrite when_throw_false in Ha.
        replace (requestedQty q <=? 0) with true in Ha
          by (symmetry; apply Z.leb_le; lia).
        injection Ha as _ <-; reflexivity. }
      destruct (add_checked p q c) as (l & Heq & _); auto. congruence.
    + right. destruct (add_success_inv _ _ _ _ Ha) as (Hid & Hact & Hst & Hq).
      destruct (add_checked p q c Hid Hact Hst Hq) as (l & Heq & Hl).
      rewrite Heq in Ha. injection Ha as <-. simpl.
      eexists _, _. split; [reflexivity|]. simpl. intros Hnd.
      unfold findIndex in Hl.
      destruct (list_find _ (items c)) as [[idx it]|] eqn:Hf.
      * subst l. apply list_find_Some in Hf as (Hidx & _ & _).
        rewrite (insert_same_product _ _ it); [exact Hnd|exact Hidx|reflexivity].
      * destruct Hl as (new & -> & Hnp & _).
        apply list_find_None in Hf. rewrite fmap_app. simpl.
        apply NoDup_app. split; [exact Hnd|]. split; [|apply NoDup_singleton].
        intros x Hx Hx'. apply list_elem_of_singleton in Hx'. subst x.
        apply list_elem_of_fmap in Hx as (y & Hy & Hin).
        rewrite Forall_forall in Hf. apply (Hf y Hin). congruence.
  - unfold setQty, mbind, SE_bind, se_bind, data, get_state. simpl.
    unfold findIndex.
    destruct (list_find _ (items c)) as [[idx it]|] eqn:Hf; [|left; reflexivity].
    apply list_find_Some in Hf as (Hidx & _ & _).
    destruct q as [newQty|]; [|left; reflexivity].
    destruct (newQty <? 1).
    { right. simpl. eexists _, _. split; [reflexivity|]. simpl. intros Hnd.
      rewrite list_fmap_delete.
      eapply sublist_NoDup; [exact Hnd|apply sublist_delete]. }
    destruct p as [p|]; [destruct (ProductDoc.stock p)|]; right; simpl;
      (eexists _, _; split; [reflexivity|]; simpl; intros Hnd;
       rewrite (insert_same_product _ _ it); [exact Hnd|exact Hidx|reflexivity]).
  - right. unfold remove, mbind, SE_bind, se_bind, data, get_state. simpl.
    eexists _, _. split; [reflexivity|]. simpl. intros Hnd.
    eapply sublist_NoDup; [exact Hnd|]. apply fmap_sublist, sublist_filter.
  - right. unfold clear, mbind, SE_bind, se_bind. simpl.
    eexists _, _. split; [reflexivity|]. simpl. intros _. apply NoDup_nil_2.
  - right. unfold do_recalc. simpl. eauto.
Qed.

Lemma after_cases o c :
  after o c = c \/ exists pm c0, after o c = recalc pm c0.
Proof.
  destruct (after_shape o c) as [H|(pm & c0 & H & _)]; eauto.
Qed.

(** The lines of a cart that the operations reach have distinct
    products. *)
Lemma reachable_nodup c : reachable c -> NoDup (productId <$> items c).
Proof.
  induction 1 as [|o c Hc IH].
  - apply NoDup_nil_2.
  - destruct (after_shape o c) as [->|(pm & c0 & -> & H)]; [exact IH|].
    apply recalc_nodup, H, IH.
Qed.

Lemma reachable_total c :
  reachable c ->
  total c = subtotal c
  /\ totalCents (_meta c) = subtotalCents (_meta c).
Proof.
  induction 1 as [|o c Hc IH].
  - split; reflexivity.
  - destruct (after_cases o c) as [->|(pm & c0 & ->)]; [exact IH|].
    apply recalc_total.
Qed.


(** ** The theorems at work on the sample data *)

Import Sample.

Lemma add_validation_witness :
  add unnamed (Some 1) ensureCart = (inl INVALID_PRODUCT, ensureCart)
  /\ add paused (Some 1) ensureCart = (inl NOT_ACTIVE, ensureCart)
  /\ add sold_out (Some 1) ensureCart = (inl OUT_OF_STOCK, ensureCart)
  /\ add mate (Some 0) ensureCart = (inl INVALID_QTY, ensureCart)
  /\ (exists cart', add mate (Some 2) ensureCart = (inr tt, cart'))
  /\ snd (add mate (Some (-3)) cart_mate) = cart_mate.
Proof.
  split; [|split; [|split; [|split; [|split]]]].
  - apply (proj1 (add_validation unnamed (Some 1) ensureCart)). reflexivity.
  - destruct (add_validation paused (Some 1) ensureCart) as (_ & H & _).
    apply H; reflexivity.
  - destruct (add_validation sold_out (Some 1) ensureCart) as (_ & _ & H & _).
    apply H; reflexivity.
  - destruct (add_validation mate (Some 0) ensureCart) as (_ & _ & _ & H & _).
    apply (H eq_refl eq_refl) with (q := 0);
      [vm_compute; discriminate | reflexivity | lia].
  - destruct (add_validation mate (Some 2) ensureCart) as (_ & _ & _ & _ & H & _).
    apply (H eq_refl eq_refl); [vm_compute; discriminate|].
    intros q [= <-]. lia.
  - destruct (add_validation mate (Some (-3)) cart_mate) as (_ & _ & _ & _ & _ & H).
    apply (H INVALID_QTY). vm_compute. reflexivity.
Defined.


End CartFacts.

(** * Properties of the orders *)

Module OrderFacts.

Import OrderModel OrderController.

(** ** The writes of the collection *)

Lemma replace_doc_ids o l : map _id (replace_doc o l) = map _id l.
Proof.
  induction l as [|x l IH]; simpl; [reflexivity|].
  rewrite IH. destruct (Nat.eqb_spec (_id x) (_id o)); congruence.
Qed.

Lemma replace_doc_absent o l :
  (forall o', In o' l -> _id o' <> _id o) -> replace_doc o l = l.
Proof.
  induction l as [|x l IH]; simpl; intros H; [reflexivity|].
  destruct (Nat.eqb_spec (_id x) (_id o)) as [E|_].
  - exfalso. apply (H x); auto.
  - rewrite IH; auto.
Qed.

Lemma save_cases o db :
  (exists e, save o db = (inl e, db))
  \/ (save o db = (inr tt, mkDb (replace_doc o (docs db)) (nextId db))
      /\ validate o = true /\ collides o (docs db) = false).
Proof.
  unfold save. destruct (validate o); simpl; [|left; eauto].
  destruct (collides o (docs db)); [left; eauto|right; auto].
Qed.

Lemma create_cases mk db :
  (exists e, create mk db = (inl e, db))
  \/ (create mk db = (inr (mk (nextId db)),
                      mkDb (docs db ++ [mk (nextId db)]) (S (nextId db)))
      /\ validate (mk (nextId db)) = true
      /\ collides (mk (nextId db)) (docs db) = false).
Proof.
  unfold create. destruct (validate _); simpl; [|left; eauto].
  destruct (collides _ (docs db)); [left; eauto|right; auto].
Qed.

(** What the unique index checks. *)
Lemma collides_false o l :
  status o = created -> collides o l = false ->
  forall o', In o' l -> is_created_of (userId o) o' = true -> _id o' = _id o.
Proof.
  intros Hs Hc o' Hin Ho'. unfold collides in Hc.
  rewrite Hs, bool_decide_eq_true_2 in Hc by reflexivity. simpl in Hc.
  destruct (Nat.eqb_spec (_id o') (_id o)) as [E|N]; [exact E|].
  exfalso. assert (existsb (fun o'0 => is_created_of (userId o) o'0
                             && negb (Nat.eqb (_id o'0) (_id o))) l = true).
  { apply existsb_exists. exists o'. split; [exact Hin|].
    rewrite Ho'. simpl. apply Nat.eqb_neq in N. rewrite N. reflexivity. }
  congruence.
Qed.

Lemma collides_not_created o l : status o <> created -> collides o l = false.
Proof.
  intros H. unfold collides. rewrite bool_decide_eq_false_2 by exact H.
  reflexivity.
Qed.

Lemma filter_replace_other (P : Order -> bool) o l :
  P o = false ->
  (length (List.filter P (replace_doc o l)) <= length (List.filter P l))%nat.
Proof.
  intros HP. induction l as [|x l IH]; simpl; [lia|].
  destruct (Nat.eqb (_id x) (_id o)).
  - rewrite HP. destruct (P x); simpl; lia.
  - destruct (P x); simpl; lia.
Qed.

Lemma filter_none (P : Order -> bool) l :
  (forall o', In o' l -> P o' = false) -> List.filter P l = [].
Proof.
  induction l as [|x l IH]; simpl; intros H; [reflexivity|].
  rewrite (H x) by auto. apply IH. auto.
Qed.

Lemma filter_replace_same (P : Order -> bool) o l :
  NoDup (map _id l) ->
  (forall o', In o' l -> P o' = true -> _id o' = _id o) ->
  (length (List.filter P (replace_doc o l)) <= 1)%nat.
Proof.
  induction l as [|x l IH]; simpl; intros Hnd H; [lia|].
  apply NoDup_cons in Hnd as [Hx Hnd].
  destruct (Nat.eqb_spec (_id x) (_id o)) as [E|N].
  - assert (Hl : forall o', In o' l -> _id o' <> _id o).
    { intros o' Hin E'. apply Hx. rewrite E, <- E'.
      apply list_elem_of_In, in_map, Hin. }
    rewrite (replace_doc_absent _ _ Hl).
    rewrite (filter_none P l).
    + destruct (P o); simpl; lia.
    + intros o' Hin. destruct (P o') eqn:Ho'; [|reflexivity].
      exfalso. apply (Hl o' Hin). apply H; auto.
  - destruct (P x) eqn:Hpx.
    + exfalso. apply N, H; auto.
    + apply IH; auto.
Qed.

Lemma ids_wf_replace o db :
  ids_wf db -> ids_wf (mkDb (replace_doc o (docs db)) (nextId db)).
Proof.
  intros [Hnd Hlt]. split; simpl.
  - rewrite replace_doc_ids. exact Hnd.
  - rewrite Forall_forall in *. intros x Hx.
    apply list_elem_of_In in Hx. unfold replace_doc in Hx.
    apply in_map_iff in Hx as (y & <- & Hy).
    destruct (Nat.eqb_spec (_id y) (_id o)) as [E|_].
    + rewrite <- E. apply Hlt, list_elem_of_In, Hy.
    + apply Hlt, list_elem_of_In, Hy.
Qed.

Lemma ids_wf_insert o db :
  _id o = nextId db -> ids_wf db ->
  ids_wf (mkDb (docs db ++ [o]) (S (nextId db))).
Proof.
  intros Hid [Hnd Hlt]. split; simpl.
  - rewrite map_app. simpl. apply NoDup_app. split; [exact Hnd|].
    split; [|apply NoDup_singleton].
    intros i Hi Hi'. apply list_elem_of_singleton in Hi'. subst i.
    apply list_elem_of_In, in_map_iff in Hi as (y & Hy & Hin).
    rewrite Forall_forall in Hlt.
    specialize (Hlt y (proj2 (list_elem_of_In _ _) Hin)). lia.
  - apply Forall_app. split.
    + eapply Forall_impl; [exact Hlt|]. simpl. intros; lia.
    + apply Forall_singleton. lia.
Qed.

(** [save] keeps the identifiers well formed and at most one open
    order per user. *)
Lemma save_inv u o db :
  ids_wf db -> (length (open_orders u db) <= 1)%nat ->
  ids_wf (snd (save o db))
  /\ (length (open_orders u (snd (save o db))) <= 1)%nat.
Proof.
  intros Hwf Hone.
  destruct (save_cases o db) as [[e ->]|(-> & _ & Hc)]; simpl; [auto|].
  split; [apply ids_wf_replace, Hwf|].
  unfold open_orders. simpl.
  destruct (is_created_of u o) eqn:Hu.
  - apply andb_true_iff in Hu as [Hu Hs].
    apply bool_decide_eq_true in Hu. apply bool_decide_eq_true in Hs.
    apply filter_replace_same; [apply Hwf|].
    intros o' Hin Ho'. subst u. eapply collides_false; eassumption.
  - etransitivity; [apply filter_replace_other, Hu|exact Hone].
Qed.

Lemma create_inv u mk db :
  (forall id, _id (mk id) = id) ->
  ids_wf db -> (length (open_orders u db) <= 1)%nat ->
  ids_wf (snd (create mk db))
  /\ (length (open_orders u (snd (create mk db))) <= 1)%nat.
Proof.
  intros Hmk Hwf Hone.
  destruct (create_cases mk db) as [[e ->]|(-> & _ & Hc)]; simpl; [auto|].
  split; [apply ids_wf_insert; auto|].
  unfold open_orders in *. simpl. rewrite List.filter_app, length_app. simpl.
  destruct (is_created_of u (mk (nextId db))) eqn:Hu; simpl; [|lia].
  apply andb_true_iff in Hu as [Hu Hs].
  apply bool_decide_eq_true in Hu. apply bool_decide_eq_true in Hs.
  rewrite (filter_none (is_created_of u) (docs db)); [simpl; lia|].
  intros o' Hin. destruct (is_created_of u o') eqn:Ho'; [|reflexivity].
  exfalso. subst u.
  pose proof (collides_false _ _ Hs Hc o' Hin Ho') as E.
  destruct Hwf as [_ Hlt]. rewrite Forall_forall in Hlt.
  specialize (Hlt o' (proj2 (list_elem_of_In _ _) Hin)).
  rewrite Hmk in E. lia.
Qed.

(** ** [getOrCreateOrderFromCart], branch by branch *)

Lemma materialize_eq u cart body now d :
  getOrCreateOrderFromCart u cart body now d =
  match open_of u d with
  | Some o =>
      if negb (isExpired_at now (Some o))
         && bool_decide (cartHash o = Some (hash_of cart body))
      then
        match save (reused o cart body now) d with
        | (inl e, d') => (inl e, d')
        | (inr _, d') => (inr (result_of cart body (reused o cart body now)), d')
        end
      else
        match create (fresh_doc u cart body now)
                     (snd (save (with_status o
                                   (if isExpired_at now (Some o)
                                    then expired else abandoned)) d)) with
        | (inl e, d') => (inl e, d')
        | (inr o', d') => (inr (result_of cart body o'), d')
        end
  | None =>
      match create (fresh_doc u cart body now) d with
      | (inl e, d') => (inl e, d')
      | (inr o', d') => (inr (result_of cart body o'), d')
      end
  end.
Proof.
  unfold getOrCreateOrderFromCart, open_of, mbind, SE_bind, se_bind,
    findOne_created, open_orders. simpl.
  destruct (fold_left later _ None) as [o|]; [|reflexivity].
  destruct (negb _ && _); [|reflexivity].
  unfold reused. destruct (save _ d) as [[e|[]] d']; reflexivity.
Qed.

Lemma fresh_doc_id u cart body now id : _id (fresh_doc u cart body now id) = id.
Proof. reflexivity. Qed.

(** A checkout keeps the identifiers well formed and at most one open
    order per user. *)
Lemma run_call_inv u d c :
  ids_wf d -> (length (open_orders u d) <= 1)%nat ->
  ids_wf (run_call d c) /\ (length (open_orders u (run_call d c)) <= 1)%nat.
Proof.
  intros Hwf Hone. unfold run_call. rewrite materialize_eq.
  destruct (open_of (c_userId c) d) as [o|].
  - destruct (negb _ && _).
    + pose proof (save_inv u (reused o (c_cart c) (c_body c) (c_now c)) d Hwf Hone) as H.
      destruct (save _ d) as [[e|[]] d']; exact H.
    + match goal with |- context [save ?x d] =>
        destruct (save_inv u x d Hwf Hone) as [Hwf1 Hone1];
        set (d1 := snd (save x d)) in * end.
      pose proof (create_inv u (fresh_doc (c_userId c) (c_cart c) (c_body c) (c_now c))
                    d1 (fresh_doc_id _ _ _ _) Hwf1 Hone1) as H.
      destruct (create _ d1) as [[e|o'] d']; exact H.
  - pose proof (create_inv u (fresh_doc (c_userId c) (c_cart c) (c_body c) (c_now c))
                  d (fresh_doc_id _ _ _ _) Hwf Hone) as H.
    destruct (create _ d) as [[e|o'] d']; exact H.
Qed.

Lemma run_calls_inv u calls : forall d,
  ids_wf d -> (length (open_orders u d) <= 1)%nat ->
  (length (open_orders u (fold_left run_call calls d)) <= 1)%nat.
Proof.
  induction calls as [|c calls IH]; simpl; intros d Hwf Hone; [exact Hone|].
  destruct (run_call_inv u d c Hwf Hone) as [Hwf' Hone']. apply IH; assumption.
Qed.

(** C3.  From a collection that holds no order in status [created]
    for a user, any sequence of checkouts, run one after the other,
    leaves at most one such order for that user. *)
Theorem at_most_one_created (u : string) (d : Db) (calls : list Call) :
  ids_wf d ->
  open_orders u d = [] ->
  (length (open_orders u (fold_left run_call calls d)) <= 1)%nat.
Proof.
  intros Hwf Hnone. apply run_calls_inv; [exact Hwf|].
  rewrite Hnone. simpl. lia.
Qed.

(** ** The open order after a checkout *)

Lemma later_fold_in l : forall b o,
  fold_left later l b = Some o -> b = Some o \/ In o l.
Proof.
  induction l as [|x l IH]; simpl; intros b o H; [auto|].
  destruct (IH _ _ H) as [Hb|Hin]; [|auto].
  destruct b as [b|]; simpl in Hb.
  - destruct (createdAt b <? createdAt x); injection Hb as <-; auto.
  - injection Hb as <-; auto.
Qed.

Lemma open_of_in u d o :
  open_of u d = Some o -> In o (docs d) /\ is_created_of u o = true.
Proof.
  unfold open_of, open_orders. intros H.
  apply later_fold_in in H as [H|H]; [discriminate|].
  apply filter_In in H. exact H.
Qed.

Lemma is_created_of_inv u o :
  is_created_of u o = true -> userId o = u /\ status o = created.
Proof.
  unfold is_created_of. intros H. apply andb_true_iff in H as [H1 H2].
  apply bool_decide_eq_true in H1. apply bool_decide_eq_true in H2. auto.
Qed.

Lemma filter_replace_exact (P : Order -> bool) o l :
  NoDup (map _id l) ->
  (exists o0, In o0 l /\ _id o0 = _id o) ->
  (forall o', In o' l -> P o' = true -> _id o' = _id o) ->
  P o = true ->
  List.filter P (replace_doc o l) = [o].
Proof.
  induction l as [|x l IH]; simpl; intros Hnd (o0 & Hin & E0) H HP;
    [contradiction|].
  apply NoDup_cons in Hnd as [Hx Hnd].
  destruct (Nat.eqb_spec (_id x) (_id o)) as [E|N].
  - assert (Hl : forall o', In o' l -> _id o' <> _id o).
    { intros o' Hin' E'. apply Hx. rewrite E, <- E'.
      apply list_elem_of_In, in_map, Hin'. }
    rewrite (replace_doc_absent _ _ Hl), HP, (filter_none P l); [reflexivity|].
    intros o' Hin'. destruct (P o') eqn:Ho'; [|reflexivity].
    exfalso. apply (Hl o' Hin'). apply H; auto.
  - destruct (P x) eqn:Hpx; [exfalso; apply N, H; auto|].
    apply IH; auto.
    exists o0. split; [|exact E0]. destruct Hin as [->|Hin]; [congruence|exact Hin].
Qed.

Lemma filter_replace_none (P : Order -> bool) o l :
  (forall o', In o' l -> P o' = true -> _id o' = _id o) ->
  P o = false ->
  List.filter P (replace_doc o l) = [].
Proof.
  induction l as [|x l IH]; simpl; intros H HP; [reflexivity|].
  destruct (Nat.eqb_spec (_id x) (_id o)) as [E|N].
  - rewrite HP. apply IH; auto.
  - destruct (P x) eqn:Hpx; [exfalso; apply N, H; auto|].
    apply IH; auto.
Qed.

Lemma collides_single o o0 d :
  open_orders (userId o) d = [o0] -> _id o0 = _id o ->
  collides o (docs d) = false.
Proof.
  intros Hopen E. unfold collides.
  destruct (bool_decide (status o = created)); [simpl|reflexivity].
  apply not_true_is_false. intros Hex.
  apply existsb_exists in Hex as (x & Hin & Hx).
  apply andb_true_iff in Hx as [Hc Hne].
  assert (Hx : In x (open_orders (userId o) d))
    by (apply filter_In; auto).
  rewrite Hopen in Hx. destruct Hx as [<-|[]].
  rewrite E, Nat.eqb_refl in Hne. discriminate.
Qed.

Lemma collides_no_open o d :
  open_orders (userId o) d = [] -> collides o (docs d) = false.
Proof.
  intros Hopen. unfold collides.
  destruct (bool_decide (status o = created)); [simpl|reflexivity].
  apply not_true_is_false. intros Hex.
  apply existsb_exists in Hex as (x & Hin & Hx).
  apply andb_true_iff in Hx as [Hc Hne].
  assert (Hx : In x (open_orders (userId o) d))
    by (apply filter_In; auto).
  rewrite Hopen in Hx. destruct Hx.
Qed.

(** After an insertion that the index accepted the new order is the
    open order of its user. *)
Lemma open_after_create o d :
  ids_wf d -> _id o = nextId d -> status o = created ->
  collides o (docs d) = false ->
  open_orders (userId o) (mkDb (docs d ++ [o]) (S (nextId d))) = [o].
Proof.
  intros [_ Hlt] Hid Hs Hc. unfold open_orders. simpl.
  rewrite List.filter_app. simpl.
  assert (Ho : is_created_of (userId o) o = true).
  { unfold is_created_of. rewrite !bool_decide_eq_true_2; auto. }
  rewrite Ho, (filter_none (is_created_of (userId o)) (docs d)); [reflexivity|].
  intros o' Hin. destruct (is_created_of (userId o) o') eqn:Ho'; [|reflexivity].
  exfalso. pose proof (collides_false _ _ Hs Hc o' Hin Ho') as E.
  rewrite Forall_forall in Hlt.
  specialize (Hlt o' (proj2 (list_elem_of_In _ _) Hin)). lia.
Qed.

(** After a write of the open order that the index accepted it is
    still the open order of its user. *)
Lemma open_after_save o o0 d :
  ids_wf d -> In o0 (docs d) -> _id o0 = _id o -> status o = created ->
  collides o (docs d) = false ->
  open_orders (userId o) (mkDb (replace_doc o (docs d)) (nextId d)) = [o].
Proof.
  intros [Hnd _] Hin E Hs Hc. unfold open_orders. simpl.
  apply filter_replace_exact; [exact Hnd|eauto| |].
  - intros o' Hin' Ho'. eapply collides_false; eassumption.
  - unfold is_created_of. rewrite !bool_decide_eq_true_2; auto.
Qed.

Lemma validate_reused o cart body now :
  validate (reused o cart body now) = accepted cart body.
Proof. reflexivity. Qed.

Lemma validate_fresh u cart body now id :
  validate (fresh_doc u cart body now id) = accepted cart body.
Proof. reflexivity. Qed.

(** What a checkout that returns has done: the order it returns is
    the open order of the user, carries the digest of the request, and
    the schema accepts the cart. *)
Lemma materialize_returns u cart body now d r d' :
  ids_wf d ->
  getOrCreateOrderFromCart u cart body now d = (inr r, d') ->
  ids_wf d'
  /\ open_orders u d' = [order r]
  /\ userId (order r) = u
  /\ cartHash (order r) = Some (hash_of cart body)
  /\ accepted cart body = true
  /\ ((exists o, open_of u d = Some o /\ order r = reused o cart body now)
      \/ exists id, order r = fresh_doc u cart body now id).
Proof.
  intros Hwf. rewrite materialize_eq.
  assert (Hcreate : forall d1, ids_wf d1 ->
    match create (fresh_doc u cart body now) d1 with
    | (inl e, d2) => (inl e, d2)
    | (inr o', d2) => (inr (result_of cart body o'), d2)
    end = (inr r, d') ->
    ids_wf d' /\ open_orders u d' = [order r] /\ userId (order r) = u
    /\ cartHash (order r) = Some (hash_of cart body)
    /\ accepted cart body = true
    /\ ((exists o, open_of u d = Some o /\ order r = reused o cart body now)
        \/ exists id, order r = fresh_doc u cart body now id)).
  { intros d1 Hwf1 H.
    destruct (create_cases (fresh_doc u cart body now) d1)
      as [[e He]|(He & Hv & Hc)]; rewrite He in H; [discriminate|].
    injection H as <- <-. simpl.
    split; [apply ids_wf_insert; auto|].
    split; [apply (open_after_create (fresh_doc u cart body now (nextId d1)));
            auto|].
    repeat split; eauto. }
  destruct (open_of u d) as [o|] eqn:Hopen; [|apply Hcreate, Hwf].
  destruct (negb _ && _) eqn:Hcond.
  - intros H.
    destruct (save_cases (reused o cart body now) d)
      as [[e He]|(He & Hv & Hc)]; rewrite He in H; [discriminate|].
    injection H as <- <-. simpl.
    destruct (open_of_in _ _ _ Hopen) as [Hin Ho].
    destruct (is_created_of_inv _ _ Ho) as [Hu Hs].
    apply andb_true_iff in Hcond as [_ Hh]. apply bool_decide_eq_true in Hh.
    split; [apply ids_wf_replace, Hwf|].
    split.
    { rewrite <- Hu.
      apply (open_after_save (reused o cart body now) o); auto. }
    repeat split; eauto.
  - apply Hcreate.
    destruct (save_cases (with_status o (if isExpired_at now (Some o)
                                         then expired else abandoned)) d)
      as [[e ->]|(-> & _)]; simpl; [exact Hwf|apply ids_wf_replace, Hwf].
Qed.

(** C2.  When a checkout has returned an order, the same checkout
    (same user, cart and form) run next, at an instant at which that
    order has not expired, returns the order of the same identifier
    with one attempt more. *)
Theorem checkout_twice (u : string) (cart : SessionCart.t)
        (body : option Body.t) (now1 now2 : Z) (d d1 : Db) (r1 : Materialized) :
  ids_wf d ->
  getOrCreateOrderFromCart u cart body now1 d = (inr r1, d1) ->
  isExpired_at now2 (Some (order r1)) = false ->
  exists r2 d2,
    getOrCreateOrderFromCart u cart body now2 d1 = (inr r2, d2)
    /\ _id (order r2) = _id (order r1)
    /\ attemptCount (order r2) = attemptCount (order r1) + 1.
Proof.
  intros Hwf H1 Hexp.
  destruct (materialize_returns _ _ _ _ _ _ _ Hwf H1)
    as (Hwf1 & Hopen & Hu & Hh & Hacc & _).
  rewrite materialize_eq.
  unfold open_of. rewrite Hopen. simpl fold_left. cbv beta iota.
  rewrite Hexp, bool_decide_eq_true_2 by exact Hh. simpl.
  unfold save. rewrite validate_reused, Hacc. simpl.
  rewrite (collides_single (reused (order r1) cart body now2) (order r1) d1);
    [|simpl; rewrite Hu; exact Hopen|reflexivity].
  eexists _, _. split; [reflexivity|]. split; reflexivity.
Qed.

(** ** A checkout with a cart that has changed *)

Lemma at_most_one_eq {A} (l : list A) a b :
  (length l <= 1)%nat -> In a l -> In b l -> a = b.
Proof.
  destruct l as [|x [|y l]]; simpl; intros Hl Ha Hb; try lia; try contradiction.
  destruct Ha as [<-|[]], Hb as [<-|[]]. reflexivity.
Qed.

Lemma order_of_replace o d :
  (exists o0, In o0 (docs d) /\ _id o0 = _id o) ->
  find (fun x => Nat.eqb (_id x) (_id o)) (replace_doc o (docs d)) = Some o.
Proof.
  induction (docs d) as [|x l IH]; simpl; intros (o0 & Hin & E); [contradiction|].
  destruct (Nat.eqb_spec (_id x) (_id o)) as [Ex|N]; simpl.
  - rewrite Nat.eqb_refl. reflexivity.
  - apply Nat.eqb_neq in N. rewrite N. apply IH.
    exists o0. split; [|exact E].
    destruct Hin as [->|Hin]; [|exact Hin].
    apply Nat.eqb_neq in N. congruence.
Qed.

Lemma find_app_l {A} (f : A -> bool) l1 l2 x :
  find f l1 = Some x -> find f (l1 ++ l2) = Some x.
Proof.
  induction l1 as [|y l1 IH]; simpl; [discriminate|].
  destruct (f y); auto.
Qed.

Lemma find_app_r {A} (f : A -> bool) l1 l2 :
  (forall y, In y l1 -> f y = false) -> find f (l1 ++ l2) = find f l2.
Proof.
  induction l1 as [|y l1 IH]; simpl; intros H; [reflexivity|].
  rewrite (H y) by auto. apply IH. auto.
Qed.

Lemma at_most_one_single {A} (l : list A) a :
  (length l <= 1)%nat -> In a l -> l = [a].
Proof.
  destruct l as [|x [|y l]]; simpl; intros Hl Ha; try lia; try contradiction.
  destruct Ha as [<-|[]]. reflexivity.
Qed.

(** In a well-formed collection the open order of a user is the only
    one. *)
Lemma open_orders_single u d o :
  Db_wf d -> open_of u d = Some o -> open_orders u d = [o].
Proof.
  intros (_ & _ & Hone) Hopen.
  destruct (open_of_in _ _ _ Hopen) as [Hin Ho].
  apply at_most_one_single; [apply Hone|]. apply filter_In. auto.
Qed.

(** The second branch of a checkout: the open order is retired and a
    new order is inserted, when the schema accepts the cart. *)
Lemma retire_then_create u cart body now d o s :
  Db_wf d -> open_of u d = Some o -> s <> created ->
  accepted cart body = true ->
  save (with_status o s) d
  = (inr tt, mkDb (replace_doc (with_status o s) (docs d)) (nextId d))
  /\ create (fresh_doc u cart body now)
            (mkDb (replace_doc (with_status o s) (docs d)) (nextId d))
     = (inr (fresh_doc u cart body now (nextId d)),
        mkDb (replace_doc (with_status o s) (docs d)
                ++ [fresh_doc u cart body now (nextId d)])
             (S (nextId d))).
Proof.
  intros Hwf Hopen Hs Hacc.
  pose proof (open_orders_single _ _ _ Hwf Hopen) as Hsingle.
  destruct Hwf as (Hids & Hval & Hone).
  destruct (open_of_in _ _ _ Hopen) as [Hin Ho].
  set (gone := with_status o s).
  split.
  - unfold save.
    replace (validate gone) with (validate o) by reflexivity.
    rewrite Forall_forall in Hval.
    rewrite (Hval o (proj2 (list_elem_of_In _ _) Hin)).
    rewrite collides_not_created by exact Hs. reflexivity.
  - set (d1 := mkDb (replace_doc gone (docs d)) (nextId d)).
    assert (Hnone : open_orders u d1 = []).
    { unfold open_orders, d1. simpl. apply filter_replace_none.
      - intros o' Hin' Ho'.
        assert (Hm : In o' (open_orders u d)) by (apply filter_In; auto).
        rewrite Hsingle in Hm. destruct Hm as [<-|[]]. reflexivity.
      - unfold is_created_of, gone. simpl.
        rewrite (bool_decide_eq_false_2 (s = created)) by exact Hs.
        apply andb_false_r. }
    pose proof (collides_no_open (fresh_doc u cart body now (nextId d1)) d1 Hnone)
      as Hc.
    unfold create. rewrite validate_fresh, Hacc. cbv beta iota zeta.
    simpl negb. cbv iota. rewrite Hc. reflexivity.
Qed.

(** C6, as the code has it.  In a collection that satisfies its
    schema, when the open order of a user has not expired and the digest
    of the request differs from the one it stores, a checkout with a
    cart and a form that the schema accepts (at least one line, valid
    lines and totals, an address that casts to an identifier when one is
    given) sets that order to [abandoned] and creates and returns an
    order in status [created] under a new identifier. *)
Theorem changed_cart_abandons (u : string) (cart : SessionCart.t)
        (body : option Body.t) (now : Z) (d : Db) (o : Order) :
  Db_wf d ->
  open_of u d = Some o ->
  isExpired_at now (Some o) = false ->
  cartHash o <> Some (hash_of cart body) ->
  accepted cart body = true ->
  exists r d',
    getOrCreateOrderFromCart u cart body now d = (inr r, d')
    /\ status (order r) = created
    /\ userId (order r) = u
    /\ _id (order r) <> _id o
    /\ order_of (_id (order r)) d = None
    /\ order_of (_id (order r)) d' = Some (order r)
    /\ order_of (_id o) d' = Some (with_status o abandoned).
Proof.
  intros Hwf Hopen Hexp Hhash Hacc.
  destruct (open_of_in _ _ _ Hopen) as [Hin Ho].
  destruct (retire_then_create u cart body now d o abandoned Hwf Hopen
              ltac:(discriminate) Hacc) as [Hsave Hcreate].
  rewrite materialize_eq, Hopen, Hexp.
  rewrite bool_decide_eq_false_2 by exact Hhash. simpl andb. cbv iota.
  rewrite Hsave. simpl snd.
  set (gone := with_status o abandoned) in *.
  set (d1 := mkDb (replace_doc gone (docs d)) (nextId d)) in *.
  set (new := fresh_doc u cart body now (nextId d)) in *.
  rewrite Hcreate.
  destruct Hwf as ([Hnd Hlt] & _ & _). rewrite Forall_forall in Hlt.
  assert (Hfresh : forall y, In y (docs d) -> Nat.eqb (_id y) (nextId d) = false).
  { intros y Hy. apply Nat.eqb_neq.
    specialize (Hlt y (proj2 (list_elem_of_In _ _) Hy)). lia. }
  exists (result_of cart body new),
    (mkDb (replace_doc gone (docs d) ++ [new]) (S (nextId d))).
  split; [reflexivity|]. simpl.
  split; [reflexivity|]. split; [reflexivity|].
  split.
  { specialize (Hlt o (proj2 (list_elem_of_In _ _) Hin)). lia. }
  split.
  { unfold order_of. destruct (find _ (docs d)) as [y|] eqn:Hf; [|reflexivity].
    apply find_some in Hf as [Hy Hf]. rewrite (Hfresh y Hy) in Hf. discriminate. }
  split.
  { unfold order_of. simpl. rewrite find_app_r.
    - simpl. rewrite Nat.eqb_refl. reflexivity.
    - intros y Hy. unfold replace_doc in Hy.
      apply in_map_iff in Hy as (z & <- & Hz).
      destruct (Nat.eqb (_id z) (_id gone)); [apply (Hfresh o Hin)|apply (Hfresh z Hz)]. }
  unfold order_of. simpl. apply find_app_l.
  apply (order_of_replace gone d). exists o. auto.
Qed.

(** ** A checkout returns, and keeps the collection well formed *)

Lemma later_fold_some l : forall b, fold_left later l (Some b) <> None.
Proof.
  induction l as [|x l IH]; simpl; intros b; [discriminate|].
  destruct (createdAt b <? createdAt x); apply IH.
Qed.

Lemma open_of_none u d : open_of u d = None -> open_orders u d = [].
Proof.
  unfold open_of. destruct (open_orders u d) as [|x l]; [reflexivity|].
  simpl. intros H. exfalso. exact (later_fold_some _ _ H).
Qed.

(** In a well-formed collection a checkout with a cart that the schema
    accepts returns an order. *)
Lemma materialize_total u cart body now d :
  Db_wf d -> accepted cart body = true ->
  exists r d', getOrCreateOrderFromCart u cart body now d = (inr r, d').
Proof.
  intros Hwf Hacc. rewrite materialize_eq.
  destruct (open_of u d) as [o|] eqn:Hopen.
  - destruct (negb _ && _).
    + pose proof (open_orders_single _ _ _ Hwf Hopen) as Hsingle.
      destruct (open_of_in _ _ _ Hopen) as [_ Ho].
      destruct (is_created_of_inv _ _ Ho) as [Hu _].
      unfold save. rewrite validate_reused, Hacc. simpl negb. cbv iota.
      rewrite (collides_single (reused o cart body now) o d);
        [eauto|simpl; rewrite Hu; exact Hsingle|reflexivity].
    + destruct (retire_then_create u cart body now d o
                  (if isExpired_at now (Some o) then expired else abandoned)
                  Hwf Hopen) as [Hsave Hcreate]; [|exact Hacc|].
      { destruct (isExpired_at now (Some o)); discriminate. }
      rewrite Hsave. cbn [snd]. rewrite Hcreate. eauto.
  - apply open_of_none in Hopen.
    pose proof (collides_no_open (fresh_doc u cart body now (nextId d)) d Hopen)
      as Hc.
    unfold create. rewrite validate_fresh, Hacc. simpl negb. cbv iota.
    rewrite Hc. eauto.
Qed.

Lemma save_valid o d :
  Forall (fun x => validate x = true) (docs d) ->
  Forall (fun x => validate x = true) (docs (snd (save o d))).
Proof.
  intros Hval.
  destruct (save_cases o d) as [[e ->]|(-> & Hv & _)]; simpl; [exact Hval|].
  rewrite Forall_forall in *. intros x Hx.
  apply list_elem_of_In in Hx. unfold replace_doc in Hx.
  apply in_map_iff in Hx as (y & <- & Hy).
  destruct (Nat.eqb (_id y) (_id o)); [exact Hv|].
  apply Hval, list_elem_of_In, Hy.
Qed.

Lemma create_valid mk d :
  Forall (fun x => validate x = true) (docs d) ->
  Forall (fun x => validate x = true) (docs (snd (create mk d))).
Proof.
  intros Hval.
  destruct (create_cases mk d) as [[e ->]|(-> & Hv & _)]; simpl; [exact Hval|].
  apply Forall_app. split; [exact Hval|]. apply Forall_singleton, Hv.
Qed.

Lemma run_call_valid d c :
  Forall (fun x => validate x = true) (docs d) ->
  Forall (fun x => validate x = true) (docs (run_call d c)).
Proof.
  intros Hval. unfold run_call. rewrite materialize_eq.
  destruct (open_of (c_userId c) d) as [o|].
  - destruct (negb _ && _).
    + pose proof (save_valid (reused o (c_cart c) (c_body c) (c_now c)) d Hval) as H.
      destruct (save _ d) as [[e|[]] d']; exact H.
    + match goal with |- context [save ?x d] =>
        pose proof (save_valid x d Hval) as Hval1;
        set (d1 := snd (save x d)) in * end.
      pose proof (create_valid (fresh_doc (c_userId c) (c_cart c) (c_body c) (c_now c))
                    d1 Hval1) as H.
      destruct (create _ d1) as [[e|o'] d']; exact H.
  - pose proof (create_valid (fresh_doc (c_userId c) (c_cart c) (c_body c) (c_now c))
                  d Hval) as H.
    destruct (create _ d) as [[e|o'] d']; exact H.
Qed.

(** Well-formedness is an invariant of the checkouts. *)
Lemma run_call_wf d c : Db_wf d -> Db_wf (run_call d c).
Proof.
  intros (Hids & Hval & Hone). split; [|split].
  - exact (proj1 (run_call_inv EmptyString d c Hids (Hone _))).
  - apply run_call_valid, Hval.
  - intros u. exact (proj2 (run_call_inv u d c Hids (Hone u))).
Qed.

(** ** The frozen totals *)

Lemma materialize_order u cart body now d r d' :
  getOrCreateOrderFromCart u cart body now d = (inr r, d') ->
  (exists o, order r = reused o cart body now)
  \/ (exists id, order r = fresh_doc u cart body now id).
Proof.
  rewrite materialize_eq.
  assert (Hcreate : forall d1,
    match create (fresh_doc u cart body now) d1 with
    | (inl e, d2) => (inl e, d2)
    | (inr o', d2) => (inr (result_of cart body o'), d2)
    end = (inr r, d') ->
    exists id, order r = fresh_doc u cart body now id).
  { intros d1 H.
    destruct (create_cases (fresh_doc u cart body now) d1)
      as [[e He]|(He & _)]; rewrite He in H; [discriminate|].
    injection H as <- _. simpl. eauto. }
  destruct (open_of u d) as [o|]; [|right; eapply Hcreate; eassumption].
  destruct (negb _ && _); [|right; eapply Hcreate; eassumption].
  destruct (save _ d) as [[e|[]] d2]; [discriminate|].
  intros [= <- _]. left. simpl. eauto.
Qed.

(** What the code freezes: the order that a checkout returns for a cart
    of [CartService] has the subtotal and the discount of the cart, and
    its total is that subtotal plus the shipping fee. *)
Lemma frozen_total (c : CartService.Cart) (u : string)
        (body : option Body.t) (now : Z) (d d' : Db) (r : Materialized) :
  CartService.reachable c ->
  getOrCreateOrderFromCart u (session_cart c) body now d = (inr r, d') ->
  total (order r) = subtotal (order r) + shippingFee (order r)
  /\ subtotal (order r) = CartService.subtotal c
  /\ discount (order r) = CartService.discount c.
Proof.
  intros Hc H. destruct (CartFacts.reachable_total c Hc) as [Ht _].
  destruct (materialize_order _ _ _ _ _ _ _ H) as [[o ->]|[id ->]];
    simpl; unfold toFixed2; rewrite Ht; auto.
Qed.

(** ** The return pages *)

Lemma find_order_in p d o d' :
  find_order p d = (inr (Some o), d') -> d' = d /\ In o (docs d).
Proof.
  unfold find_order, mbind, SE_bind, se_bind.
  destruct (externalReference p) as [[|id]|]; simpl.
  - discriminate.
  - destruct (find _ (docs d)) as [x|] eqn:Hf; simpl.
    + intros [= <- <-]. apply find_some in Hf as [Hin _]. auto.
    + destruct (preferenceId p) as [pref|]; simpl; [|discriminate].
      unfold findOne_mpPreferenceId.
      destruct (find (fun o0 => bool_decide _) (docs d)) as [x|] eqn:Hg;
        [intros [= <- <-]|discriminate].
      apply find_some in Hg as [Hin _]. auto.
  - destruct (preferenceId p) as [pref|]; simpl; [|discriminate].
    unfold findOne_mpPreferenceId.
    destruct (find _ (docs d)) as [x|] eqn:Hg; [intros [= <- <-]|discriminate].
    apply find_some in Hg as [Hin _]. auto.
Qed.

(** A patch to a status other than [created] is written. *)
Lemma update_status o p d :
  In o (docs d) -> patch_status p <> created ->
  exists o' d',
    updateOrderMpFields (_id o) p d = (inr (Some o'), d')
    /\ status_of (_id o) d' = Some (patch_status p).
Proof.
  intros Hin Hs. unfold updateOrderMpFields, findByIdAndUpdate.
  destruct (find _ (docs d)) as [x|] eqn:Hf.
  - apply find_some in Hf as [Hx Ex]. apply Nat.eqb_eq in Ex.
    rewrite collides_not_created by exact Hs.
    eexists _, _. split; [reflexivity|].
    unfold status_of, order_of. simpl.
    rewrite <- Ex.
    change (_id x) with (_id (apply_patch p x)) at 1.
    rewrite (order_of_replace (apply_patch p x) d); [reflexivity|].
    exists x. auto.
  - exfalso. apply (find_none _ _ Hf) in Hin.
    rewrite Nat.eqb_refl in Hin. discriminate.
Qed.

(** C1, as the code has it.  For an order that is [approved], the
    success page leaves it [approved] whatever status the gateway
    reports; the pending page sets the order it finds to [pending] and
    the failure page sets it to [rejected], whatever its status is. *)
Theorem approved_after_return (q : Query) (w : World) (o : Order) :
  find_order (getMpReturnParams q) (db w) = (inr (Some o), db w) ->
  (status o = approved ->
   status_of (_id o) (db (fst (getCheckoutSuccess q w))) = Some approved)
  /\ status_of (_id o) (db (fst (getCheckoutPending q w))) = Some pending
  /\ status_of (_id o) (db (fst (getCheckoutFailure q w))) = Some rejected.
Proof.
  intros Hfind.
  destruct (find_order_in _ _ _ _ Hfind) as [_ Hin].
  split; [|split].
  - intros Hs. unfold getCheckoutSuccess, handle, mbind, SE_bind, se_bind.
    rewrite Hfind, Hs.
    match goal with |- context [updateOrderMpFields _ ?p _] =>
      destruct (update_status o p (db w) Hin) as (o' & d' & -> & Hst);
        [destruct (bool_decide _); discriminate|] end.
    simpl. rewrite Hst. destruct (bool_decide _); reflexivity.
  - unfold getCheckoutPending, handle, mbind, SE_bind, se_bind.
    rewrite Hfind.
    match goal with |- context [updateOrderMpFields _ ?p _] =>
      destruct (update_status o p (db w) Hin) as (o' & d' & -> & Hst);
        [discriminate|] end.
    simpl. exact Hst.
  - unfold getCheckoutFailure, handle, mbind, SE_bind, se_bind.
    rewrite Hfind.
    match goal with |- context [updateOrderMpFields _ ?p _] =>
      destruct (update_status o p (db w) Hin) as (o' & d' & -> & Hst);
        [discriminate|] end.
    simpl. exact Hst.
Qed.

(** ** The theorems at work on the sample data *)

Import Sample.

Lemma db_created_eq : db_created = mkDb [order0] 1.
Proof. vm_compute. reflexivity. Qed.

Lemma ids_wf_empty : ids_wf empty_db.
Proof. split; simpl; constructor. Qed.

Lemma Db_wf_empty : Db_wf empty_db.
Proof.
  split; [exact ids_wf_empty|]. split; [constructor|].
  intros u. simpl. lia.
Qed.

Lemma at_most_one_created_witness :
  ids_wf empty_db
  /\ open_orders user1 empty_db = []
  /\ (length (open_orders user1 (fold_left run_call three_calls empty_db))
       <= 1)%nat.
Proof.
  split; [exact ids_wf_empty|]. split; [reflexivity|].
  exact (at_most_one_created user1 empty_db three_calls ids_wf_empty eq_refl).
Defined.

Lemma checkout_twice_witness :
  getOrCreateOrderFromCart user1 (session_cart cart_mate) None 1000 empty_db
  = (inr (result_of (session_cart cart_mate) None order0), db_created)
  /\ isExpired_at 61000 (Some order0) = false
  /\ exists r2 d2,
       getOrCreateOrderFromCart user1 (session_cart cart_mate) None 61000
                                db_created = (inr r2, d2)
       /\ _id (order r2) = _id order0
       /\ attemptCount (order r2) = attemptCount order0 + 1.
Proof.
  assert (H1 : getOrCreateOrderFromCart user1 (session_cart cart_mate) None
                 1000 empty_db
               = (inr (result_of (session_cart cart_mate) None order0),
                  db_created))
    by (vm_compute; reflexivity).
  assert (H2 : isExpired_at 61000 (Some order0) = false) by reflexivity.
  split; [exact H1|]. split; [exact H2|].
  exact (checkout_twice user1 (session_cart cart_mate) None 1000 61000
           empty_db db_created _ ids_wf_empty H1 H2).
Defined.

Lemma changed_cart_abandons_witness :
  open_of user1 db_created = Some order0
  /\ cartHash order0
      <> Some (hash_of (session_cart cart_mate_termo) (Some delivery_form))
  /\ exists r d',
       getOrCreateOrderFromCart user1 (session_cart cart_mate_termo)
                                (Some delivery_form) 120000 db_created
       = (inr r, d')
       /\ status (order r) = created
       /\ userId (order r) = user1
       /\ _id (order r) <> _id order0
       /\ order_of (_id (order r)) db_created = None
       /\ order_of (_id (order r)) d' = Some (order r)
       /\ order_of (_id order0) d' = Some (with_status order0 abandoned).
Proof.
  assert (Hwf : Db_wf db_created) by (apply run_call_wf, Db_wf_empty).
  assert (Hopen : open_of user1 db_created = Some order0)
    by (vm_compute; reflexivity).
  assert (Hh : cartHash order0
               <> Some (hash_of (session_cart cart_mate_termo)
                                (Some delivery_form)))
    by (vm_compute; discriminate).
  split; [exact Hopen|]. split; [exact Hh|].
  apply (changed_cart_abandons user1 (session_cart cart_mate_termo)
           (Some delivery_form) 120000 db_created order0 Hwf Hopen).
  - reflexivity.
  - exact Hh.
  - vm_compute. reflexivity.
Defined.

(** C6, as the specification states it, fails on a form that the
    schema refuses: [user1] has the open order [order0], which has not
    expired; the
    checkout of another cart with the address [home], which is no
    identifier, sets that order to [abandoned] and throws a validation
    error: no order is created or returned, and the user is left with no
    open order. *)
Lemma changed_cart_refused_counterexample :
  open_of user1 db_created = Some order0
  /\ isExpired_at 120000 (Some order0) = false
  /\ cartHash order0
     <> Some (hash_of (session_cart cart_mate_termo) (Some Sample2.home_form))
  /\ getOrCreateOrderFromCart user1 (session_cart cart_mate_termo)
                              (Some Sample2.home_form) 120000 db_created
     = (inl ValidationError, mkDb [with_status order0 abandoned] 1)
  /\ open_orders user1 (mkDb [with_status order0 abandoned] 1) = [].
Proof.
  split; [vm_compute; reflexivity|]. split; [reflexivity|].
  split; [vm_compute; discriminate|].
  split; vm_compute; reflexivity.
Qed.

(** C5.  The frozen totals are to satisfy
    [total = subtotal - discount + shippingFee].  On the first checkout
    of [cart_mate] (two units at 1000.00 with 25% off, pickup) the order
    has subtotal 1500.00, discount 500.00, fee 0 and total 1500.00, where
    the formula gives 1000.00. *)
Theorem frozen_total_at_promotion :
  CartService.reachable cart_mate
  /\ getOrCreateOrderFromCart user1 (session_cart cart_mate) None 1000 empty_db
     = (inr (result_of (session_cart cart_mate) None order0), db_created)
  /\ subtotal order0 = 150000
  /\ discount order0 = 50000
  /\ shippingFee order0 = 0
  /\ total order0 = 150000
  /\ subtotal order0 - discount order0 + shippingFee order0 = 100000.
Proof.
  split; [apply CartService.reach_op, CartService.reach_new|].
  split; [vm_compute; reflexivity|].
  repeat split; vm_compute; reflexivity.
Qed.

Example frozen_total_delivery :
  CartService.reachable cart_mate_termo
  /\ exists r d',
       getOrCreateOrderFromCart user1 (session_cart cart_mate_termo)
                                (Some delivery_form) 120000 empty_db
       = (inr r, d')
       /\ total (order r) = subtotal (order r) + shippingFee (order r)
       /\ subtotal (order r) = CartService.subtotal cart_mate_termo
       /\ discount (order r) = CartService.discount cart_mate_termo.
Proof.
  assert (Hr : CartService.reachable cart_mate_termo)
    by (do 2 apply CartService.reach_op; apply CartService.reach_new).
  split; [exact Hr|].
  eexists _, _. split; [vm_compute; reflexivity|].
  eapply (frozen_total cart_mate_termo user1 (Some delivery_form) 120000
            empty_db _ _ Hr).
  vm_compute. reflexivity.
Qed.

(** C1, as the specification states it, fails on the order 0 once it is paid:
    the pending page sets it to [pending], the failure page to
    [rejected]. *)
Lemma approved_downgraded_counterexample :
  status_of 0 (db world_paid) = Some approved
  /\ status_of 0 (db (fst (getCheckoutPending (back "pending") world_paid)))
     = Some pending
  /\ status_of 0 (db (fst (getCheckoutFailure (back "rejected") world_paid)))
     = Some rejected.
Proof. repeat split; vm_compute; reflexivity. Qed.

Lemma approved_after_return_witness :
  find_order (getMpReturnParams (back "pending")) (db world_paid)
  = (inr (Some order_paid), db world_paid)
  /\ status order_paid = approved
  /\ status_of (_id order_paid)
       (db (fst (getCheckoutSuccess (back "pending") world_paid)))
     = Some approved
  /\ status_of (_id order_paid)
       (db (fst (getCheckoutPending (back "pending") world_paid)))
     = Some pending
  /\ status_of (_id order_paid)
       (db (fst (getCheckoutFailure (back "pending") world_paid)))
     = Some rejected.
Proof.
  assert (Hf : find_order (getMpReturnParams (back "pending")) (db world_paid)
               = (inr (Some order_paid), db world_paid))
    by (vm_compute; reflexivity).
  assert (Hs : status order_paid = approved) by (vm_compute; reflexivity).
  split; [exact Hf|]. split; [exact Hs|].
  destruct (approved_after_return (back "pending") world_paid order_paid Hf)
    as (H1 & H2 & H3).
  split; [exact (H1 Hs)|]. split; [exact H2|exact H3].
Defined.

End OrderFacts.


(** * Properties of the serialisation and of the digest *)

Module JsonFacts.

Import Json.
Local Open Scope string_scope.

Lemma app_String c s t : String c s ++ t = String c (s ++ t).
Proof. reflexivity. Qed.

Lemma app_empty t : "" ++ t = t.
Proof. reflexivity. Qed.

Lemma app_assoc s t u : (s ++ t) ++ u = s ++ (t ++ u).
Proof.
  induction s as [|c s IH]; [reflexivity|].
  rewrite !app_String, IH. reflexivity.
Qed.

(** ** String literals *)

Lemma unescape_escape c r : unescape_char (escape_char c ++ r) = Some (c, r).
Proof. destruct c as [[] [] [] [] [] [] [] []]; reflexivity. Qed.

Lemma escape_char_inj c c' r r' :
  escape_char c ++ r = escape_char c' ++ r' -> c = c' /\ r = r'.
Proof.
  intros H. apply (f_equal unescape_char) in H.
  rewrite !unescape_escape in H. injection H as -> ->. auto.
Qed.

Lemma escape_char_no_quote c r r' : escape_char c ++ r <> String dquote r'.
Proof.
  intros H. apply (f_equal unescape_char) in H.
  rewrite unescape_escape in H. discriminate.
Qed.

Lemma escape_cons c s : escape (String c s) = escape_char c ++ escape s.
Proof. reflexivity. Qed.

Lemma escape_inj s : forall s' r r',
  escape s ++ String dquote r = escape s' ++ String dquote r' ->
  s = s' /\ r = r'.
Proof.
  induction s as [|c s IH]; intros [|c' s'] r r'; rewrite ?escape_cons, ?app_assoc.
  - intros [= ->]. auto.
  - intros H. symmetry in H. exfalso. exact (escape_char_no_quote _ _ _ H).
  - intros H. exfalso. exact (escape_char_no_quote _ _ _ H).
  - intros H. apply escape_char_inj in H as [-> H].
    apply IH in H as [-> ->]. auto.
Qed.

Lemma str_app s r : str s ++ r = String dquote (escape s ++ String dquote r).
Proof. unfold str. rewrite app_String, app_assoc. reflexivity. Qed.

Lemma str_inj s s' r r' : str s ++ r = str s' ++ r' -> s = s' /\ r = r'.
Proof. rewrite !str_app. intros [= H]. apply escape_inj in H. exact H. Qed.

(** ** Numbers *)

Lemma uint_inj d : forall d' r r',
  no_digit r -> no_digit r' ->
  NilEmpty.string_of_uint d ++ r = NilEmpty.string_of_uint d' ++ r' ->
  d = d' /\ r = r'.
Proof.
  induction d as [|d IH|d IH|d IH|d IH|d IH|d IH|d IH|d IH|d IH|d IH];
    intros [|d'|d'|d'|d'|d'|d'|d'|d'|d'|d'] r r' Hr Hr';
    cbn [NilEmpty.string_of_uint]; rewrite ?app_String, ?app_empty; intros H;
    try discriminate H;
    try (subst r; discriminate Hr);
    try (subst r'; discriminate Hr');
    try (injection H as H; destruct (IH _ _ _ Hr Hr' H) as [-> ->]; auto).
  auto.
Qed.

Lemma uint_first d :
  d <> Decimal.Nil ->
  exists c s, NilEmpty.string_of_uint d = String c s /\ is_digit c = true.
Proof. destruct d; intros H; [contradiction|..]; simpl; eauto. Qed.

(** The text of an integer: digits, after a minus sign when it is
    negative. *)
Lemma int_shape z :
  exists d, d <> Decimal.Nil
    /\ ((0 <= z)%Z /\ Z.to_int z = Decimal.Pos d
         /\ int z = NilEmpty.string_of_uint d
        \/ (z < 0)%Z /\ Z.to_int z = Decimal.Neg d
           /\ int z = String "-" (NilEmpty.string_of_uint d)).
Proof.
  destruct z as [|p|p]; unfold int; simpl.
  - exists (Decimal.D0 Decimal.Nil). split; [discriminate|]. left. auto with zarith.
  - pose proof (DecimalPos.Unsigned.to_uint_nonnil p) as Hn.
    exists (Pos.to_uint p). split; [exact Hn|]. left.
    split; [lia|]. split; [reflexivity|].
    unfold NilZero.string_of_uint. destruct (Pos.to_uint p); [contradiction|..]; reflexivity.
  - pose proof (DecimalPos.Unsigned.to_uint_nonnil p) as Hn.
    exists (Pos.to_uint p). split; [exact Hn|]. right.
    split; [lia|]. split; [reflexivity|].
    unfold NilZero.string_of_uint. destruct (Pos.to_uint p); [contradiction|..]; reflexivity.
Qed.

Lemma int_inj z z' r r' :
  no_digit r -> no_digit r' ->
  int z ++ r = int z' ++ r' -> z = z' /\ r = r'.
Proof.
  intros Hr Hr'.
  destruct (int_shape z) as (d & Hd & [(Hz & Hi & ->)|(Hz & Hi & ->)]);
  destruct (int_shape z') as (d' & Hd' & [(Hz' & Hi' & ->)|(Hz' & Hi' & ->)]);
    rewrite ?app_String; intros H.
  - apply uint_inj in H as [-> ->]; auto.
    split; [|reflexivity]. apply DecimalZ.to_int_inj. congruence.
  - destruct (uint_first d Hd) as (c & s & E & Hc). rewrite E, app_String in H.
    injection H as -> _. discriminate Hc.
  - destruct (uint_first d' Hd') as (c & s & E & Hc). rewrite E, app_String in H.
    injection H as <- _. discriminate Hc.
  - injection H as H. apply uint_inj in H as [-> ->]; auto.
    split; [|reflexivity]. apply DecimalZ.to_int_inj. congruence.
Qed.

Lemma ends_no_digit r : ends r -> no_digit r.
Proof. intros (r0 & [->| ->]); reflexivity. Qed.

Lemma read_decimals_ok f r :
  (0 <= f < 100)%Z -> ends r -> read_decimals (decimals f ++ r) = (f, r).
Proof.
  intros Hf (r0 & Hr).
  assert (Hn : exists n, f = Z.of_nat n /\ (n < 100)%nat)
    by (exists (Z.to_nat f); lia).
  destruct Hn as (n & -> & Hn).
  destruct Hr as [-> | ->];
    do 100 (destruct n as [|n]; [reflexivity|]); lia.
Qed.

Lemma decimals_inj f f' r r' :
  (0 <= f < 100)%Z -> (0 <= f' < 100)%Z -> ends r -> ends r' ->
  decimals f ++ r = decimals f' ++ r' -> f = f' /\ r = r'.
Proof.
  intros Hf Hf' Hr Hr' H. apply (f_equal read_decimals) in H.
  rewrite !read_decimals_ok in H by assumption. injection H as -> ->. auto.
Qed.

Lemma decimals_no_digit f r : ends r -> no_digit (decimals f ++ r).
Proof.
  intros Hr. unfold decimals. destruct (f =? 0)%Z.
  - rewrite app_empty. apply ends_no_digit, Hr.
  - rewrite app_String. reflexivity.
Qed.

Lemma money_inj c c' r r' :
  ends r -> ends r' -> money c ++ r = money c' ++ r' -> c = c' /\ r = r'.
Proof.
  intros Hr Hr'. unfold money. rewrite !app_assoc.
  assert (Hm : forall x, (0 <= Z.abs x mod 100 < 100)%Z)
    by (intros x; apply Z.mod_pos_bound; lia).
  assert (Hrec : forall x y,
            Z.abs x / 100 = Z.abs y / 100 -> Z.abs x mod 100 = Z.abs y mod 100 ->
            Z.abs x = Z.abs y).
  { intros x y Hq Hmod.
    rewrite (Z.div_mod (Z.abs x) 100), (Z.div_mod (Z.abs y) 100) by lia.
    rewrite Hq, Hmod. reflexivity. }
  assert (Hbody : forall x y,
            int (Z.abs x / 100) ++ decimals (Z.abs x mod 100) ++ r
            = int (Z.abs y / 100) ++ decimals (Z.abs y mod 100) ++ r' ->
            Z.abs x = Z.abs y /\ r = r').
  { intros x y H.
    apply int_inj in H as [Hq H]; [|apply decimals_no_digit; assumption..].
    apply decimals_inj in H as [Hmod ->]; auto. }
  assert (Hmix : forall x y s,
            String "-" s <> int (Z.abs y / 100) ++ decimals (Z.abs y mod 100) ++ x).
  { intros x y s H.
    destruct (int_shape (Z.abs y / 100)) as (d & Hd & [(_ & _ & E)|(Hneg & _)]).
    - destruct (uint_first d Hd) as (a & t & Ea & Ha).
      rewrite E, Ea, app_String in H. injection H as <- _. discriminate Ha.
    - assert (0 <= Z.abs y / 100)%Z by (apply Z.div_pos; lia). lia. }
  destruct (Z.ltb_spec c 0) as [Hc|Hc], (Z.ltb_spec c' 0) as [Hc'|Hc'];
    rewrite ?app_String, ?app_empty; intros H.
  - injection H as H. apply Hbody in H as [Ha ->]. split; [lia|reflexivity].
  - exfalso. exact (Hmix _ _ _ H).
  - exfalso. symmetry in H. exact (Hmix _ _ _ H).
  - apply Hbody in H as [Ha ->]. split; [lia|reflexivity].
Qed.

End JsonFacts.

Module HashFacts.

Import Json JsonFacts OrderModel OrderController.
Local Open Scope string_scope.

Lemma app_inv_head s a b : s ++ a = s ++ b -> a = b.
Proof. apply (inj (String.append s)). Qed.

Lemma cons_inv c a b : String c a = String c b -> a = b.
Proof. intros [= H]. exact H. Qed.

Lemma key_app k r : key k ++ r = str k ++ String ":" r.
Proof. unfold key. rewrite app_assoc. reflexivity. Qed.

Lemma str_not_null p r r' : str p ++ r <> String "n" r'.
Proof. rewrite str_app. discriminate. Qed.

Lemma ends_comma r : ends (String "," r).
Proof. exists r. auto. Qed.

Lemma ends_brace r : ends (String "}" r).
Proof. exists r. auto. Qed.

(** The text of a line, followed by anything, gives back what was
    hashed of the line. *)
Lemma payload_item_inj i j r r' :
  payload_item i ++ r = payload_item j ++ r' ->
  hashed_line i = hashed_line j /\ r = r'.
Proof.
  unfold payload_item, hashed_line.
  generalize (truthy (Some (CartService.productId i)))
             (truthy (Some (CartService.productId j))).
  intros ti tj.
  rewrite ?app_assoc, ?app_String, ?app_empty, ?key_app.
  rewrite ?app_assoc, ?app_String, ?app_empty, ?key_app.
  intros H. apply cons_inv in H.
  apply str_inj in H as [_ H]. apply cons_inv in H.
  assert (Hp : ti = tj
               /\ String ","
                    (str "title" ++ String ":"
                       (str (CartService.title i) ++ String ","
                          (str "price" ++ String ":"
                             (money (CartService.price i) ++ String ","
                                (str "qty" ++ String ":"
                                   (int (CartService.qty i) ++ String "}" r))))))
                  = String ","
                    (str "title" ++ String ":"
                       (str (CartService.title j) ++ String ","
                          (str "price" ++ String ":"
                             (money (CartService.price j) ++ String ","
                                (str "qty" ++ String ":"
                                   (int (CartService.qty j) ++ String "}" r'))))))).
  { destruct ti as [p|], tj as [q|].
    - apply str_inj in H as [-> H]. auto.
    - exfalso. rewrite app_String in H. exact (str_not_null _ _ _ H).
    - exfalso. rewrite app_String in H. symmetry in H.
      exact (str_not_null _ _ _ H).
    - apply app_inv_head in H. auto. }
  destruct Hp as [-> Ht]. clear H.
  apply cons_inv in Ht as H.
  apply str_inj in H as [_ H]. apply cons_inv in H.
  apply str_inj in H as [-> H]. apply cons_inv in H.
  apply str_inj in H as [_ H]. apply cons_inv in H.
  apply money_inj in H as [-> H]; [|apply ends_comma..]. apply cons_inv in H.
  apply str_inj in H as [_ H]. apply cons_inv in H.
  apply int_inj in H as [-> H]; [|reflexivity..]. apply cons_inv in H.
  subst r'. auto.
Qed.

Lemma commas_cons x l : commas (x :: l) = x ++ more l.
Proof.
  destruct l as [|y l]; simpl; [|reflexivity].
  induction x as [|c x IH]; [reflexivity|].
  rewrite app_String, <- IH. reflexivity.
Qed.

Lemma payload_item_brace i r : exists t, payload_item i ++ r = String "{" t.
Proof. unfold payload_item. rewrite app_String. eauto. Qed.

Lemma more_inj l : forall l' r r',
  more (map payload_item l) ++ String "]" r
  = more (map payload_item l') ++ String "]" r' ->
  map hashed_line l = map hashed_line l' /\ r = r'.
Proof.
  induction l as [|i l IH]; intros [|j l'] r r'; simpl map; unfold more;
    rewrite ?commas_cons, ?app_assoc, ?app_String, ?app_empty; intros H.
  - apply cons_inv in H. subst r'. auto.
  - discriminate H.
  - discriminate H.
  - apply cons_inv in H. apply payload_item_inj in H as [Hij H].
    apply IH in H as [Hl ->]. rewrite Hij, Hl. auto.
Qed.

Lemma array_inj l l' r r' :
  array (map payload_item l) ++ r = array (map payload_item l') ++ r' ->
  map hashed_line l = map hashed_line l' /\ r = r'.
Proof.
  unfold array. rewrite ?app_assoc, ?app_String, ?app_empty.
  intros H. apply cons_inv in H.
  destruct l as [|i l], l' as [|j l']; simpl map in *;
    rewrite ?commas_cons, ?app_assoc, ?app_String, ?app_empty in H.
  - apply cons_inv in H. subst r'. auto.
  - exfalso.
    destruct (payload_item_brace j (more (map payload_item l') ++ String "]" r'))
      as [t E].
    rewrite E in H. discriminate H.
  - exfalso.
    destruct (payload_item_brace i (more (map payload_item l) ++ String "]" r))
      as [t E].
    rewrite E in H. discriminate H.
  - apply payload_item_inj in H as [Hij H].
    apply more_inj in H as [Hl ->]. rewrite Hij, Hl. auto.
Qed.

Lemma method_name_inj m m' r r' :
  str (method_name m) ++ r = str (method_name m') ++ r' -> m = m' /\ r = r'.
Proof.
  intros H. apply str_inj in H as [H ->].
  destruct m, m'; try discriminate H; auto.
Qed.

(** The message that is hashed gives back the lines as they are
    hashed, the shipping method and the shipping fee. *)
Lemma hash_message_inj c c' m m' f f' :
  hash_message c m f = hash_message c' m' f' ->
  map hashed_line (SessionCart.items c) = map hashed_line (SessionCart.items c')
  /\ m = m' /\ f = f'.
Proof.
  unfold hash_message.
  rewrite ?app_assoc, ?app_String, ?app_empty, ?key_app.
  rewrite ?app_assoc, ?app_String, ?app_empty, ?key_app.
  intros H. apply cons_inv in H.
  apply str_inj in H as [_ H]. apply cons_inv in H. apply cons_inv in H.
  apply str_inj in H as [_ H]. apply cons_inv in H.
  apply array_inj in H as [Hl H]. apply cons_inv in H. apply cons_inv in H.
  apply str_inj in H as [_ H]. apply cons_inv in H.
  apply method_name_inj in H as [-> H]. apply cons_inv in H.
  apply str_inj in H as [_ H]. apply cons_inv in H.
  apply money_inj in H as [-> _]; [auto|apply ends_brace..].
Qed.

Lemma payload_item_ext i j :
  hashed_line i = hashed_line j -> payload_item i = payload_item j.
Proof.
  unfold hashed_line, payload_item.
  generalize (truthy (Some (CartService.productId i)))
             (truthy (Some (CartService.productId j))).
  intros ti tj [= -> -> -> ->]. reflexivity.
Qed.

Lemma list_cons_inv {A} (x y : A) l l' :
  x :: l = y :: l' -> x = y /\ l = l'.
Proof.
  intros H. split.
  - exact (f_equal (hd x) H).
  - exact (f_equal (@tl A) H).
Qed.

Lemma payload_items_ext l : forall l',
  map hashed_line l = map hashed_line l' ->
  map payload_item l = map payload_item l'.
Proof.
  induction l as [|i l IH]; intros [|j l']; cbn [map]; intros H;
    try discriminate H; [reflexivity|].
  apply list_cons_inv in H as [Hij Hl].
  rewrite (payload_item_ext _ _ Hij), (IH _ Hl). reflexivity.
Qed.

(** C4, as the code has it.  The digest is the SHA-256 of a message
    that holds, in order, the productId, title, price and quantity of
    every line (the price is the base price of the line) and the
    shipping method and fee.  Two inputs that agree on these get the
    same digest, whatever their promotional prices; two inputs get the
    same message only when they agree on all of these. *)
Theorem cart_hash_reads (c c' : SessionCart.t) (m m' : ShippingMethod)
        (f f' : Money) :
  computeCartHash c m f = Sha256.sha256_hex (hash_message c m f)
  /\ (map hashed_line (SessionCart.items c)
       = map hashed_line (SessionCart.items c') ->
      m = m' -> f = f' ->
      computeCartHash c m f = computeCartHash c' m' f')
  /\ (hash_message c m f = hash_message c' m' f' ->
      map hashed_line (SessionCart.items c)
      = map hashed_line (SessionCart.items c')
      /\ m = m' /\ f = f').
Proof.
  split; [reflexivity|]. split.
  - intros Hl -> ->. unfold computeCartHash, hash_message.
    rewrite (payload_items_ext _ _ Hl). reflexivity.
  - apply hash_message_inj.
Qed.

(** ** The digest at work on the sample data *)

Import Sample.

Example sha256_abc :
  Sha256.sha256_hex "abc"
  = "ba7816bf8f01cfea414140de5dae2223b00361a396177a9cb410ff61f20015ad".
Proof. vm_compute. reflexivity. Qed.

Example sha256_two_blocks :
  Sha256.sha256_hex "abcdbcdecdefdefgefghfghighijhijkijkljklmklmnlmnomnopnopq"
  = "248d6a61d20638b8e5c026930c3e6039a33ce45964ff2167f6ecedd419db06c1".
Proof. vm_compute. reflexivity. Qed.

Example cart_hash_mate :
  computeCartHash (session_cart cart_mate) pickup 0
  = "9dd66fa25f9cf0941761e686dc38b85d51b16d06d75b112b51be7afcaf03fd8e".
Proof. vm_compute. reflexivity. Qed.

Example cart_hash_mate_termo :
  computeCartHash (session_cart cart_mate_termo) delivery 200000
  = "b75fa6ce864f7bdcff3949742b38f311cfd4faa8337750307f55171397c91035".
Proof. vm_compute. reflexivity. Qed.

(** C4, as the specification states it, fails on two carts that differ in the
    promotional price of their line (750.00 and 700.00 for a base price
    of 1000.00): they get the same digest. *)
Lemma cart_hash_counterexample :
  map CartService.promoPrice (CartService.items cart_mate) = [Some 75000%Z]
  /\ map CartService.promoPrice (CartService.items cart_mate30) = [Some 70000%Z]
  /\ computeCartHash (session_cart cart_mate) pickup 0
     = computeCartHash (session_cart cart_mate30) pickup 0.
Proof. repeat split; vm_compute; reflexivity. Qed.

Lemma cart_hash_reads_witness :
  computeCartHash (session_cart cart_mate) pickup 0
  = computeCartHash (session_cart cart_mate30) pickup 0
  /\ hash_message (session_cart cart_mate) pickup 0
     <> hash_message (session_cart cart_full) pickup 0.
Proof.
  destruct (cart_hash_reads (session_cart cart_mate) (session_cart cart_mate30)
              pickup pickup 0%Z 0%Z) as (_ & Hsame & _).
  destruct (cart_hash_reads (session_cart cart_mate) (session_cart cart_full)
              pickup pickup 0%Z 0%Z) as (_ & _ & Hdiff).
  split.
  - apply Hsame; reflexivity.
  - intros H. apply Hdiff in H as [H _]. vm_compute in H. discriminate H.
Defined.

End HashFacts.

(** * More properties of the cart *)

Module CartMore.

Import CartService CartLines CartFacts.

(** ** What [recalc] leaves *)

Lemma recalc_line_out fresh it it' a b :
  recalc_line fresh it = Some (it', a, b) ->
  a = lineFinalCents it' /\ b = lineDiscountCents it' /\ settled it'
  /\ match fresh with
     | Some f => refreshed_from f it'
     | None => qty it' = qty it /\ stock it' = stock it
     end.
Proof.
  unfold recalc_line. destruct fresh as [f|].
  - destruct (clampStock (ProductDoc.stock f) <=? 0) eqn:Hs; [discriminate|].
    apply Z.leb_gt in Hs.
    destruct (ProductDoc.stock f) as [s|] eqn:Hfs; [|simpl in Hs; lia].
    simpl in Hs. unfold recalc_refresh. rewrite Hfs.
    destruct (Z.max s 0 <? qty it) eqn:Hlt; simpl.
    + destruct (Z.max s 0 <=? 0) eqn:Hq; [discriminate|]. simpl.
      intros [= <- <- <-]. unfold settled, refreshed_from, lineFinalCents, lineDiscountCents. simpl. rewrite Hfs. simpl.
      repeat split; eauto; try lia; try (eexists; split; [reflexivity|lia]).
    + destruct (qty it <=? 0) eqn:Hq; [discriminate|]. simpl.
      apply Z.leb_gt in Hq. apply Z.ltb_ge in Hlt.
      intros [= <- <- <-]. unfold settled, refreshed_from, lineFinalCents, lineDiscountCents. simpl. rewrite Hfs. simpl.
      repeat split; eauto; try lia; try (eexists; split; [reflexivity|lia]).
  - simpl recalc_refresh.
    destruct (clampStock (stock it) <=? 0) eqn:Hs; [discriminate|].
    destruct (qty it <=? 0) eqn:Hq; [discriminate|]. simpl.
    apply Z.leb_gt in Hs. apply Z.leb_gt in Hq.
    destruct (stock it) as [s|] eqn:Hst; [|simpl in Hs; lia]. simpl in Hs.
    destruct (cents it) as [u|] eqn:Hc; intros [= <- <- <-];
      unfold settled, lineFinalCents, lineDiscountCents, fromCents; simpl;
      rewrite ?Hc, ?Hst; simpl;
      repeat split; eauto; try lia; try (eexists; split; [reflexivity|lia]).
Qed.

Lemma recalc_loop_out pm l : forall acc l' s,
  recalc_loop pm l acc = (l', s) ->
  s_subtotal s = s_subtotal acc + sum_of lineFinalCents l'
  /\ s_discount s = s_discount acc + sum_of lineDiscountCents l'
  /\ s_count s = s_count acc + sum_of qty l'
  /\ Forall (fun it => settled it
              /\ match lookup_fresh pm it with
                 | Some f => refreshed_from f it
                 | None => True
                 end) l'.
Proof.
  induction l as [|x l IH]; intros acc l' s; simpl.
  - intros [= <- <-]. simpl. repeat split; try lia. constructor.
  - destruct (recalc_line (lookup_fresh pm x) x) as [[[x' a] b]|] eqn:Hx;
      [|apply IH].
    destruct (recalc_loop pm l _) as [r out] eqn:Hr.
    intros [= <- <-].
    destruct (IH _ _ _ Hr) as (H1 & H2 & H3 & H4). simpl in H1, H2, H3.
    destruct (recalc_line_out _ _ _ _ _ Hx) as (-> & -> & Hset & Hfr).
    simpl. repeat split; try lia.
    constructor; [|exact H4]. split; [exact Hset|].
    rewrite (lookup_fresh_productId pm x x')
      by (eapply recalc_line_productId; eassumption).
    destruct (lookup_fresh pm x); [exact Hfr|exact I].
Qed.

Lemma recalc_lines_all (productsMap : option (gmap string ProductDoc.t))
        (c : Cart) :
  Forall (fun it => settled it
            /\ match lookup_fresh productsMap it with
               | Some f => refreshed_from f it
               | None => True
               end)
         (items (recalc productsMap c)).
Proof.
  rewrite recalc_items.
  destruct (recalc_loop productsMap (items c) (mkSums 0 0 0)) as [l s] eqn:Hl.
  exact (proj2 (proj2 (proj2 (recalc_loop_out _ _ _ _ _ Hl)))).
Qed.

Lemma recalc_sums_eq (productsMap : option (gmap string ProductDoc.t))
        (c : Cart) :
  let c' := recalc productsMap c in
  count c' = sum_of qty (items c')
  /\ subtotal c' = sum_of lineFinalCents (items c')
  /\ total c' = sum_of lineFinalCents (items c')
  /\ discount c' = sum_of lineDiscountCents (items c')
  /\ sum_of lineSubtotal (items c') = sum_of lineFinalCents (items c')
  /\ Forall settled (items c').
Proof.
  unfold recalc.
  destruct (recalc_loop productsMap (items c) (mkSums 0 0 0)) as [l s] eqn:Hl.
  destruct (recalc_loop_out _ _ _ _ _ Hl) as (H1 & H2 & H3 & H4).
  simpl in *. unfold fromCents.
  assert (Hset : Forall settled l)
    by (eapply Forall_impl; [exact H4|]; intros x [Hx _]; exact Hx).
  assert (Hsub : sum_of lineSubtotal l = sum_of lineFinalCents l).
  { clear -Hset.
    induction Hset as [|x l (_ & _ & _ & Hx) _ IH]; simpl; [reflexivity|].
    rewrite Hx, IH. reflexivity. }
  assert (Hnn : 0 <= sum_of lineFinalCents l).
  { clear. induction l as [|x l IH]; simpl; [lia|].
    unfold lineFinalCents at 1. destruct (cents x); lia. }
  repeat split; try lia; exact Hset.
Qed.

(** X2.  After [recalc] the count is the sum of the quantities of the
    lines that are left, the subtotal and the total are the sum of their
    subtotals, and the discount is the sum of their discounts. *)
Theorem recalc_sums (productsMap : option (gmap string ProductDoc.t))
        (c : Cart) :
  let c' := recalc productsMap c in
  count c' = sum_of qty (items c')
  /\ subtotal c' = sum_of lineSubtotal (items c')
  /\ total c' = sum_of lineSubtotal (items c')
  /\ discount c' = sum_of lineDiscountCents (items c').
Proof.
  destruct (recalc_sums_eq productsMap c) as (H1 & H2 & H3 & H4 & H5 & _).
  cbv zeta in *. rewrite H5. auto.
Qed.

(** ** Quantities stay within the stock *)

Lemma within_capped it : within_stock it -> capped it.
Proof. intros (s & Hs & Hq) s' Hs' _. rewrite Hs in Hs'. injection Hs' as <-. lia. Qed.

Lemma recalc_line_within fresh it it' a b :
  recalc_line fresh it = Some (it', a, b) -> capped it -> within_stock it'.
Proof.
  intros Hl Hc.
  destruct (recalc_line_out _ _ _ _ _ Hl) as (_ & _ & Hset & Hfr).
  destruct Hset as (Hq & (s & Hs & Hs1) & _).
  exists s. split; [exact Hs|]. split; [exact Hq|].
  destruct fresh as [f|].
  - destruct Hfr as (Hst & Hle & _). rewrite Hs in Hst. injection Hst as ->.
    exact Hle.
  - destruct Hfr as [Hqq Hss]. rewrite Hqq. apply Hc; [congruence|lia].
Qed.

Lemma recalc_within pm c :
  Forall capped (items c) -> Forall within_stock (items (recalc pm c)).
Proof.
  intros Hc. rewrite recalc_items.
  destruct (recalc_loop pm (items c) (mkSums 0 0 0)) as [l s] eqn:Hl. simpl.
  apply Forall_forall. intros it' Hin.
  destruct (recalc_loop_elem _ _ _ _ _ Hl it' Hin) as (it & a & b & Hit & Hline).
  eapply recalc_line_within; [exact Hline|].
  rewrite Forall_forall in Hc. exact (Hc it Hit).
Qed.

Lemma Forall_insert_same {A} (P : A -> Prop) (l : list A) i x :
  Forall P l -> P x -> Forall P (<[i := x]> l).
Proof.
  intros Hl Hx. apply Forall_forall. intros y Hy.
  apply list_elem_of_lookup in Hy as [j Hj].
  destruct (decide (j = i)) as [->|Hne].
  - destruct (decide (i < length l)%nat) as [Hlt|Hge].
    + rewrite list_lookup_insert_eq in Hj by exact Hlt. congruence.
    + rewrite list_insert_ge in Hj by lia.
      rewrite Forall_forall in Hl. apply Hl. eapply list_elem_of_lookup_2, Hj.
  - rewrite list_lookup_insert_ne in Hj by congruence.
    rewrite Forall_forall in Hl. apply Hl. eapply list_elem_of_lookup_2, Hj.
Qed.

Lemma Forall_sublist_alt {A} (P : A -> Prop) (l1 l2 : list A) :
  sublist l1 l2 -> Forall P l2 -> Forall P l1.
Proof.
  intros Hs Hl. apply Forall_forall. intros x Hx.
  rewrite Forall_forall in Hl. apply Hl. eapply elem_of_sublist; eassumption.
Qed.

(** The lines that an operation hands to [recalc]. *)
Lemma after_edit o c :
  Forall capped (items c) ->
  after o c = c
  \/ exists pm c0, after o c = recalc pm c0 /\ Forall capped (items c0).
Proof.
  intros Hc. unfold after. destruct o as [p q|pid q p| pid | | pm]; simpl run.
  - destruct (add p q c) as [[e|[]] c'] eqn:Ha.
    + left. simpl.
      destruct (add_validation p q c) as (_ & _ & _ & _ & _ & H).
      exact (H _ _ Ha).
    + right. destruct (add_success_inv _ _ _ _ Ha) as (Hid & Hact & Hst & Hq).
      destruct (add_checked p q c Hid Hact Hst Hq) as (l & Heq & Hl).
      rewrite Heq in Ha. injection Ha as <-. simpl.
      eexists _, _. split; [reflexivity|]. simpl.
      destruct (findIndex _ (items c)) as [[idx it]|].
      * subst l. apply Forall_insert_same; [exact Hc|].
        intros s Hs _. simpl in *. injection Hs as <-. lia.
      * destruct Hl as (new & -> & _ & Hnq & Hns).
        apply Forall_app. split; [exact Hc|]. constructor; [|constructor].
        intros s Hs _. rewrite Hns in Hs. injection Hs as <-. lia.
  - unfold setQty, mbind, SE_bind, se_bind, data, get_state. simpl.
    destruct (findIndex pid (items c)) as [[idx it]|] eqn:Hf; [|left; reflexivity].
    destruct q as [newQty|]; [|left; reflexivity].
    destruct (newQty <? 1).
    { right. simpl. eexists _, _. split; [reflexivity|]. simpl.
      eapply Forall_sublist_alt; [apply sublist_delete|exact Hc]. }
    destruct p as [p|]; [destruct (ProductDoc.stock p)|]; right; simpl;
      (eexists _, _; split; [reflexivity|]; simpl;
       apply Forall_insert_same; [exact Hc|];
       intros s Hs Hpos; simpl in *;
       try (injection Hs as <-); try (rewrite Hs; simpl); lia).
  - right. unfold remove, mbind, SE_bind, se_bind, data, get_state. simpl.
    eexists _, _. split; [reflexivity|]. simpl.
    eapply Forall_sublist_alt; [apply sublist_filter|exact Hc].
  - right. unfold clear, mbind, SE_bind, se_bind. simpl.
    eexists _, _. split; [reflexivity|]. simpl. constructor.
  - right. unfold do_recalc. simpl. eauto.
Qed.

Lemma reachable_within c : reachable c -> Forall within_stock (items c).
Proof.
  induction 1 as [|o c Hc IH].
  - constructor.
  - assert (Hcap : Forall capped (items c))
      by (eapply Forall_impl; [exact IH|exact within_capped]).
    destruct (after_edit o c Hcap) as [->|(pm & c0 & -> & H)]; [exact IH|].
    apply recalc_within, H.
Qed.

(** ** [recalc] without a map on lines that are within their stock *)

Lemma recalc_line_None_within it :
  within_stock it ->
  exists it' a b, recalc_line None it = Some (it', a, b)
                  /\ line_key it' = line_key it.
Proof.
  intros (s & Hs & Hq). unfold recalc_line. simpl recalc_refresh.
  rewrite Hs. simpl clampStock.
  replace (Z.max s 0 <=? 0) with false by (symmetry; apply Z.leb_gt; lia).
  replace (qty it <=? 0) with false by (symmetry; apply Z.leb_gt; lia).
  simpl. eexists _, _, _. split; [reflexivity|].
  destruct (cents it); reflexivity.
Qed.

Lemma recalc_loop_None_keeps l :
  Forall within_stock l ->
  forall acc, line_key <$> (recalc_loop None l acc).1 = line_key <$> l.
Proof.
  induction 1 as [|x l Hx Hl IH]; intros acc; simpl; [reflexivity|].
  destruct (recalc_line_None_within x Hx) as (x' & a & b & Hx' & Hk).
  simpl in Hx'. rewrite Hx'.
  specialize (IH (mkSums (s_subtotal acc + a) (s_discount acc + b)
                         (s_count acc + qty x'))).
  destruct (recalc_loop None l _) as [r out]. simpl in IH |- *.
  f_equal; [exact Hk|exact IH].
Qed.

(** X4.  On a cart whose lines are within their stock, [remove]
    drops the lines of the product and nothing else: every other line
    stays, in its place and with its quantity. *)
Theorem remove_exact (pid : string) (c : Cart) :
  Forall within_stock (items c) ->
  line_key <$> items (after (OpRemove pid) c)
  = line_key <$> filter (fun it => productId it <> pid) (items c).
Proof.
  intros Hc. unfold after. simpl run.
  unfold remove, mbind, SE_bind, se_bind, data, get_state. simpl.
  rewrite recalc_items. simpl.
  apply recalc_loop_None_keeps.
  eapply Forall_sublist_alt; [apply sublist_filter|exact Hc].
Qed.

Lemma remove_exact_witness :
  Forall within_stock (items Sample.cart_mate_termo)
  /\ line_key <$> items (after (OpRemove (productId Sample.line_full))
                               Sample.cart_mate_termo)
     = line_key <$> filter (fun it => productId it <> productId Sample.line_full)
                           (items Sample.cart_mate_termo).
Proof.
  assert (H : Forall within_stock (items Sample.cart_mate_termo))
    by (apply reachable_within, reach_op, reach_op, reach_new).
  split; [exact H|]. exact (remove_exact _ _ H).
Defined.

(** ** [setQty] *)

Lemma nodup_same_product (l : list Item) i j x y :
  NoDup (productId <$> l) ->
  l !! i = Some x -> l !! j = Some y -> productId y = productId x -> j = i.
Proof.
  intros Hnd Hi Hj Hp.
  eapply NoDup_lookup; [exact Hnd| |]; rewrite list_lookup_fmap.
  - rewrite Hj. simpl. rewrite Hp. reflexivity.
  - rewrite Hi. reflexivity.
Qed.

(** A line that [recalc] leaves without a map comes from a line of
    the same product. *)
Lemma recalc_None_from c it' :
  it' ∈ items (recalc None c) ->
  exists it a b, it ∈ items c /\ recalc_line None it = Some (it', a, b)
                 /\ productId it' = productId it.
Proof.
  rewrite recalc_items.
  destruct (recalc_loop None (items c) (mkSums 0 0 0)) as [l s] eqn:Hl. simpl.
  intros Hin.
  destruct (recalc_loop_elem _ _ _ _ _ Hl it' Hin) as (it & a & b & Hit & Hline).
  exists it, a, b. repeat split; try assumption.
  eapply recalc_line_productId; eassumption.
Qed.

(** X5.  On a cart whose lines have distinct products, [setQty] with
    a quantity below one leaves no line of the product. *)
Theorem setQty_below_one (pid : string) (q : Z)
        (product : option ProductDoc.t) (c : Cart) :
  NoDup (productId <$> items c) ->
  q < 1 ->
  Forall (fun it => productId it <> pid)
         (items (after (OpSetQty pid (Some q) product) c)).
Proof.
  intros Hnd Hq. unfold after. simpl run.
  unfold setQty, mbind, SE_bind, se_bind, data, get_state. simpl.
  unfold findIndex.
  destruct (list_find _ (items c)) as [[idx it0]|] eqn:Hf.
  - apply list_find_Some in Hf as (Hidx & Hp0 & _).
    replace (q <? 1) with true by (symmetry; apply Z.ltb_lt; lia).
    simpl. apply Forall_forall. intros it' Hin Hp.
    apply recalc_None_from in Hin as (it & a & b & Hit & _ & Hpp).
    simpl in Hit. apply list_elem_of_lookup in Hit as [j Hj].
    rewrite list_lookup_delete in Hj.
    destruct (decide (j < idx)%nat) as [Hlt|Hge].
    + assert (j = idx)
        by (eapply nodup_same_product; [exact Hnd|exact Hidx|exact Hj|congruence]).
      lia.
    + assert (S j = idx)
        by (eapply nodup_same_product; [exact Hnd|exact Hidx|exact Hj|congruence]).
      lia.
  - apply list_find_None in Hf. simpl. exact Hf.
Qed.

Lemma setQty_below_one_witness :
  NoDup (productId <$> items Sample.cart_mate_termo)
  /\ Forall (fun it => productId it <> productId Sample.line_full)
       (items (after (OpSetQty (productId Sample.line_full) (Some 0) None)
                     Sample.cart_mate_termo)).
Proof.
  assert (H : NoDup (productId <$> items Sample.cart_mate_termo))
    by (apply reachable_nodup, reach_op, reach_op, reach_new).
  split; [exact H|]. apply (setQty_below_one _ 0 None _ H). lia.
Defined.

(** ** The unit price *)

Lemma Math_round_Z (b : Z) : Math_round (inject_Z b) = b.
Proof.
  unfold Math_round, Qfloor, Qplus, inject_Z. simpl.
  symmetry. apply (Z.div_unique _ _ _ 1); lia.
Qed.

Lemma Math_round_mono (x y : Q) : (x <= y)%Q -> Math_round x <= Math_round y.
Proof.
  intros H. unfold Math_round. apply Qfloor_resp_le.
  apply Qplus_le_compat; [exact H|apply Qle_refl].
Qed.

Lemma toCents_nonneg (q : Q) : (0 <= q)%Q -> 0 <= toCents q.
Proof.
  intros H. unfold toCents. rewrite <- (Math_round_Z 0).
  apply Math_round_mono. change (inject_Z 0) with 0%Q. lra.
Qed.

Lemma promo_factor (pct : Q) (b : Z) :
  (0 <= pct)%Q -> (pct <= 100)%Q -> 0 <= b ->
  (0 <= inject_Z b * (1 - pct / 100))%Q
  /\ (inject_Z b * (1 - pct / 100) <= inject_Z b)%Q.
Proof.
  intros H0 H1 Hb.
  assert (HB : (0 <= inject_Z b)%Q)
    by (change 0%Q with (inject_Z 0); rewrite <- Zle_Qle; exact Hb).
  assert (Ht : (0 <= 1 - pct / 100)%Q /\ (1 - pct / 100 <= 1)%Q).
  { change (pct / 100)%Q with (pct * (1 # 100))%Q. split; lra. }
  destruct Ht as [Ht0 Ht1]. generalize dependent (1 - pct / 100)%Q.
  intros t Ht0 Ht1. split; nra.
Qed.

(** X7.  For a price that is not negative, [computeUnitPrice] gives a
    final price between zero and the base price and a discount that is
    their difference; a promotion of 100 per cent or more makes the
    final price zero. *)
Theorem computeUnitPrice_bounds (product : Priced) :
  (0 <= default 0 (p_price product))%Q ->
  let u := computeUnitPrice product in
  0 <= unitFinalCents u <= unitBaseCents u
  /\ unitDiscountCents u = unitBaseCents u - unitFinalCents u
  /\ match p_promoEnabled product, p_promoPct product with
     | true, Some pct =>
         if Qle_bool 100 pct then unitFinalCents u = 0 else True
     | _, _ => True
     end.
Proof.
  intros Hp. pose proof (toCents_nonneg _ Hp) as Hb.
  unfold computeUnitPrice.
  set (b := toCents (default 0%Q (p_price product))) in *.
  destruct (p_promoEnabled product); [|simpl; repeat split; lia].
  destruct (p_promoPct product) as [pct|]; [|simpl; repeat split; lia].
  destruct (Qlt_le_dec 0 pct) as [Hpos|Hneg].
  - set (k := Qmin (Qmax pct 0) 100).
    assert (Hk0 : (0 <= k)%Q).
    { unfold k. apply Q.min_glb; [apply Q.le_max_r|lra]. }
    assert (Hk1 : (k <= 100)%Q) by (unfold k; apply Q.le_min_r).
    destruct (promo_factor k b Hk0 Hk1 Hb) as [Hx0 Hx1].
    apply Math_round_mono in Hx0, Hx1.
    rewrite Math_round_Z in Hx1. change 0%Q with (inject_Z 0) in Hx0.
    rewrite Math_round_Z in Hx0. simpl.
    repeat split; try lia.
    destruct (Qle_bool 100 pct) eqn:Hle; [|exact I].
    apply Qle_bool_iff in Hle.
    assert (Hk : (100 <= k)%Q).
    { unfold k. apply Q.min_glb; [|lra].
      eapply Qle_trans; [exact Hle|apply Q.le_max_l]. }
    assert (Hz : (inject_Z b * (1 - k / 100) <= 0)%Q).
    { assert (HB : (0 <= inject_Z b)%Q)
        by (change 0%Q with (inject_Z 0); rewrite <- Zle_Qle; exact Hb).
      assert (Ht : (1 - k / 100 <= 0)%Q)
        by (change (k / 100)%Q with (k * (1 # 100))%Q; lra).
      generalize dependent (1 - k / 100)%Q. intros; nra. }
    apply Math_round_mono in Hz. change 0%Q with (inject_Z 0) in Hz.
    rewrite Math_round_Z in Hz. lia.
  - simpl. repeat split; try lia.
    destruct (Qle_bool 100 pct) eqn:Hle; [|exact I].
    apply Qle_bool_iff in Hle. lra.
Qed.

Lemma computeUnitPrice_bounds_witness :
  let u := computeUnitPrice (priced_of_product Sample.mate) in
  0 <= unitFinalCents u <= unitBaseCents u
  /\ unitDiscountCents u = unitBaseCents u - unitFinalCents u.
Proof.
  intros u.
  destruct (computeUnitPrice_bounds (priced_of_product Sample.mate))
    as (H1 & H2 & _); [vm_compute; discriminate|].
  split; [exact H1|exact H2].
Defined.

End CartMore.

(** * More properties of the orders *)

Module OrderMore.

Import OrderModel OrderController CheckoutRoutes OrderFacts.

(** ** What a return page writes *)

Lemma find_by_id_in o d :
  In o (docs d) ->
  exists o2, find (fun x => Nat.eqb (_id x) (_id o)) (docs d) = Some o2
             /\ In o2 (docs d) /\ _id o2 = _id o.
Proof.
  intros Hin. destruct (find _ (docs d)) as [x|] eqn:Hf.
  - apply find_some in Hf as [Hx Ex]. apply Nat.eqb_eq in Ex. eauto.
  - apply (find_none _ _ Hf) in Hin. rewrite Nat.eqb_refl in Hin. discriminate.
Qed.

Lemma find_by_id_wf o d :
  ids_wf d -> In o (docs d) ->
  find (fun x => Nat.eqb (_id x) (_id o)) (docs d) = Some o.
Proof.
  intros [Hnd _] Hin. destruct (find_by_id_in o d Hin) as (o2 & -> & Hin2 & Hid).
  f_equal. apply list_elem_of_In in Hin, Hin2.
  apply list_elem_of_lookup in Hin as [i Hi], Hin2 as [j Hj].
  assert (i = j).
  { eapply NoDup_lookup; [exact Hnd| |]; rewrite list_lookup_fmap.
    - rewrite Hi. reflexivity.
    - rewrite Hj. simpl. rewrite Hid. reflexivity. }
  subst j. congruence.
Qed.

Lemma find_order_db p d r d' : find_order p d = (r, d') -> d' = d.
Proof.
  unfold find_order, mbind, SE_bind, se_bind.
  destruct (externalReference p) as [[|id]|]; simpl.
  - intros [= _ <-]. reflexivity.
  - destruct (find _ (docs d)); simpl; [intros [= _ <-]; reflexivity|].
    destruct (preferenceId p); simpl; intros [= _ <-]; reflexivity.
  - destruct (preferenceId p); simpl; intros [= _ <-]; reflexivity.
Qed.

(** The two outcomes of a return page: nothing is written and no
    order is shown, or the order found by its identifier is patched and
    shown. *)
Lemma return_page_cases r q w :
  (return_page r q w).1 = w /\ shown (return_page r q w).2 = None
  \/ exists o o2,
       find_order (getMpReturnParams q) (db w) = (inr (Some o), db w)
       /\ In o2 (docs (db w)) /\ _id o2 = _id o
       /\ find (fun x => Nat.eqb (_id x) (_id o)) (docs (db w)) = Some o2
       /\ let p := getMpReturnParams q in
          let o' := apply_patch
                      (mkPatch (or_else (paymentId p) (mpPaymentId o))
                               (or_else (preferenceId p) (mpPreferenceId o))
                               (written_status r p o)) o2 in
          db (return_page r q w).1
          = mkDb (replace_doc o' (docs (db w))) (nextId (db w))
          /\ cart (return_page r q w).1
             = (if clears_cart r (status o') then None else cart w)
          /\ shown (return_page r q w).2 = Some o'
          /\ code (return_page r q w).2 = 200%nat.
Proof.
  destruct w as [d c].
  destruct (find_order (getMpReturnParams q) d) as [[e|[o|]] d'] eqn:Hfind.
  - left. pose proof (find_order_db _ _ _ _ Hfind).
    subst d'.
    destruct r; unfold return_page, getCheckoutSuccess, getCheckoutPending,
      getCheckoutFailure, handle, mbind, SE_bind, se_bind; cbn [db cart];
      rewrite Hfind; split; reflexivity.
  - destruct (find_order_in _ _ _ _ Hfind) as [-> Hin].
    destruct (find_by_id_in o d Hin) as (o2 & Hf & Hin2 & Hid).
    assert (Hgo : forall st,
      let o' := apply_patch
                  (mkPatch (or_else (paymentId (getMpReturnParams q)) (mpPaymentId o))
                           (or_else (preferenceId (getMpReturnParams q))
                                    (mpPreferenceId o)) st) o2 in
      updateOrderMpFields (_id o)
        (mkPatch (or_else (paymentId (getMpReturnParams q)) (mpPaymentId o))
                 (or_else (preferenceId (getMpReturnParams q)) (mpPreferenceId o))
                 st) d
      = (if collides o' (docs d) then (inl DuplicateKey, d)
         else (inr (Some o'), mkDb (replace_doc o' (docs d)) (nextId d)))).
    { intros st. unfold updateOrderMpFields, findByIdAndUpdate. rewrite Hf.
      reflexivity. }
    destruct r;
      unfold return_page, getCheckoutSuccess, getCheckoutPending,
        getCheckoutFailure, handle, mbind, SE_bind, se_bind; cbn [db cart];
      rewrite Hfind; cbv beta iota zeta; rewrite Hgo;
      match goal with |- context [collides ?x ?l] =>
        destruct (collides x l) end;
      try (left; split; reflexivity);
      right; exists o, o2; (split; [reflexivity|]);
      (split; [exact Hin2|]); (split; [exact Hid|]); (split; [exact Hf|]);
      cbv zeta; cbn [fst snd db cart shown code mret SE_ret se_ret].
    + split; [reflexivity|]. split; [|split; reflexivity]. reflexivity.
    + split; [reflexivity|]. split; [|split; reflexivity]. reflexivity.
    + split; [reflexivity|]. split; [|split; reflexivity]. reflexivity.
  - left. pose proof (find_order_db _ _ _ _ Hfind).
    subst d'.
    destruct r; unfold return_page, getCheckoutSuccess, getCheckoutPending,
      getCheckoutFailure, handle, mbind, SE_bind, se_bind; cbn [db cart];
      rewrite Hfind; split; reflexivity.
Qed.

Lemma ids_wf_single (o : Order) :
  ids_wf (mkDb [o] (S (_id o))).
Proof.
  split; simpl.
  - apply NoDup_cons_2; [apply not_elem_of_nil|apply NoDup_nil_2].
  - constructor; [lia|constructor].
Qed.

Lemma ids_wf_world_paid : ids_wf (db Sample.world_paid).
Proof. exact (ids_wf_single Sample.order_paid). Qed.

Lemma ids_wf_db_created : ids_wf Sample.db_created.
Proof. exact (ids_wf_single Sample.order0). Qed.

(** X8.  A return page that shows no order (the order was not found,
    or an error was answered) has written nothing: the collection and
    the cart of the session are as they were. *)
Theorem return_page_without_order (r : ReturnPage) (q : Query) (w : World) :
  shown (return_page r q w).2 = None -> (return_page r q w).1 = w.
Proof.
  intros Hs.
  destruct (return_page_cases r q w) as [[Hw _]|(o & o2 & _ & _ & _ & _ & H)];
    [exact Hw|].
  cbv zeta in H. destruct H as (_ & _ & Hshown & _). congruence.
Qed.

Lemma return_page_without_order_witness :
  shown (return_page Failure (mkQuery None None (Some "rejected"%string) None
                                      (Some "pref-unknown"%string) None)
                     Sample.world_paid).2 = None
  /\ (return_page Failure (mkQuery None None (Some "rejected"%string) None
                                   (Some "pref-unknown"%string) None)
                  Sample.world_paid).1 = Sample.world_paid.
Proof.
  assert (H : shown (return_page Failure
                       (mkQuery None None (Some "rejected"%string) None
                                (Some "pref-unknown"%string) None)
                       Sample.world_paid).2 = None)
    by (vm_compute; reflexivity).
  split; [exact H|]. exact (return_page_without_order _ _ _ H).
Defined.

Lemma same_id_same_doc (l : list Order) x y :
  NoDup (map _id l) -> In x l -> In y l -> _id x = _id y -> x = y.
Proof.
  intros Hnd Hx Hy E. apply list_elem_of_In in Hx, Hy.
  apply list_elem_of_lookup in Hx as [i Hi], Hy as [j Hj].
  assert (i = j).
  { eapply NoDup_lookup; [exact Hnd| |]; rewrite list_lookup_fmap.
    - rewrite Hi. reflexivity.
    - rewrite Hj. simpl. rewrite E. reflexivity. }
  subst j. congruence.
Qed.

Lemma kept_replace p o (l : list Order) :
  NoDup (map _id l) -> In o l ->
  map kept (replace_doc (apply_patch p o) l) = map kept l.
Proof.
  intros Hnd Hin. unfold replace_doc. rewrite map_map.
  apply map_ext_in. intros x Hx.
  destruct (Nat.eqb_spec (_id x) (_id (apply_patch p o))) as [E|_];
    [|reflexivity].
  simpl in E. rewrite (same_id_same_doc l x o Hnd Hx Hin E). reflexivity.
Qed.

(** X9.  A return page neither adds nor removes an order, and leaves
    the user, the lines, the amounts, the shipping, the digest of the
    cart, the count and the date of the attempts, the expiry and the
    date of creation of every order as they were. *)
Theorem return_page_frame (r : ReturnPage) (q : Query) (w : World) :
  ids_wf (db w) ->
  nextId (db (return_page r q w).1) = nextId (db w)
  /\ map kept (docs (db (return_page r q w).1)) = map kept (docs (db w)).
Proof.
  intros Hwf.
  destruct (return_page_cases r q w) as [[-> _]|(o & o2 & _ & Hin2 & _ & _ & H)];
    [split; reflexivity|].
  cbv zeta in H. destruct H as (-> & _). simpl. split; [reflexivity|].
  apply kept_replace; [exact (proj1 Hwf)|exact Hin2].
Qed.

Lemma return_page_frame_witness :
  ids_wf (db Sample.world_paid)
  /\ nextId (db (return_page Pending (Sample.back "pending") Sample.world_paid).1)
     = nextId (db Sample.world_paid)
  /\ map kept (docs (db (return_page Pending (Sample.back "pending")
                                     Sample.world_paid).1))
     = map kept (docs (db Sample.world_paid)).
Proof.
  pose proof ids_wf_world_paid as H.
  split; [exact H|]. exact (return_page_frame _ _ _ H).
Defined.

(** X10.  The success page, for the order it has found: when the
    gateway reports [approved] the order becomes [approved] and the cart
    of the session is emptied; with any other report the status stays as
    it was, and the cart is emptied only if the order already was
    [approved]. *)
Theorem success_page (q : Query) (w : World) (o : Order) :
  ids_wf (db w) ->
  find_order (getMpReturnParams q) (db w) = (inr (Some o), db w) ->
  let w' := (getCheckoutSuccess q w).1 in
  if bool_decide (p_status (getMpReturnParams q) = Some "approved"%string)
  then status_of (_id o) (db w') = Some approved /\ cart w' = None
  else status_of (_id o) (db w') = Some (status o)
       /\ cart w' = (if bool_decide (status o = approved) then None else cart w).
Proof.
  intros Hwf Hfind.
  destruct (find_order_in _ _ _ _ Hfind) as [_ Hin].
  assert (Hold : status_of (_id o) (db w) = Some (status o)).
  { unfold status_of, order_of. rewrite (find_by_id_wf o (db w) Hwf Hin).
    reflexivity. }
  destruct (return_page_cases Success q w)
    as [[Hw Hs]|(o1 & o2 & Hfind' & Hin2 & Hid & Hf & H)].
  - (* nothing written: the index has refused a second open order *)
    change (return_page Success q w) with (getCheckoutSuccess q w) in Hw, Hs.
    cbv zeta. rewrite Hw.
    revert Hs. unfold getCheckoutSuccess, handle, mbind, SE_bind, se_bind.
    rewrite Hfind. cbv beta iota zeta.
    unfold updateOrderMpFields, findByIdAndUpdate.
    rewrite (find_by_id_wf o (db w) Hwf Hin).
    destruct (bool_decide (p_status _ = _)) eqn:Hrep.
    + rewrite collides_not_created by discriminate. discriminate.
    + destruct (decide (status o = created)) as [Hc|Hc].
      * intros _. split; [exact Hold|].
        rewrite bool_decide_eq_false_2 by congruence. reflexivity.
      * rewrite collides_not_created by exact Hc. discriminate.
  - change (return_page Success q w) with (getCheckoutSuccess q w) in H.
    rewrite Hfind in Hfind'. injection Hfind' as <-.
    rewrite (find_by_id_wf o (db w) Hwf Hin) in Hf. injection Hf as <-.
    cbv zeta in H |- *. destruct H as (Hdb & Hcart & _ & _).
    rewrite Hdb, Hcart. unfold status_of, order_of. cbn [docs].
    match goal with |- context [replace_doc ?x _] =>
      change (_id o) with (_id x);
      rewrite (order_of_replace x (db w)) by (exists o; auto) end.
    cbn [fmap option_fmap option_map apply_patch status patch_status
         written_status clears_cart].
    destruct (bool_decide (p_status _ = _)).
    + split; [reflexivity|]. rewrite bool_decide_eq_true_2; reflexivity.
    + split; reflexivity.
Qed.

Lemma success_page_witness :
  ids_wf Sample.db_created
  /\ find_order (getMpReturnParams (Sample.back "approved")) Sample.db_created
     = (inr (Some Sample.order0), Sample.db_created)
  /\ status_of 0 (db Sample.world_paid) = Some approved
  /\ cart Sample.world_paid = None.
Proof.
  pose proof ids_wf_db_created as Hwf.
  assert (Hf : find_order (getMpReturnParams (Sample.back "approved"))
                          Sample.db_created
               = (inr (Some Sample.order0), Sample.db_created))
    by (vm_compute; reflexivity).
  split; [exact Hwf|]. split; [exact Hf|].
  exact (success_page (Sample.back "approved")
           (mkWorld Sample.db_created (Some Sample.cart_mate))
           Sample.order0 Hwf Hf).
Defined.

(** X11.  The cart of the session is emptied by the success page
    when it shows an order that is [approved], and by nothing else: the
    pending and failure pages leave it as it was. *)
Theorem cart_emptied_on_approval (r : ReturnPage) (q : Query) (w : World) :
  cart (return_page r q w).1
  = match r, shown (return_page r q w).2 with
    | Success, Some o' =>
        if bool_decide (status o' = approved) then None else cart w
    | _, _ => cart w
    end.
Proof.
  destruct (return_page_cases r q w) as [[Hw Hs]|(o & o2 & _ & _ & _ & _ & H)].
  - rewrite Hw. destruct r; try reflexivity. rewrite Hs. reflexivity.
  - cbv zeta in H. destruct H as (_ & Hcart & Hshown & _).
    rewrite Hcart. destruct r; try reflexivity. rewrite Hshown. reflexivity.
Qed.

(** X12.  A return page never blanks an identifier of the gateway:
    an order that had a payment or a preference identifier has one
    afterwards, and no order disappears. *)
Theorem gateway_ids_kept (r : ReturnPage) (q : Query) (w : World)
        (id : nat) (o : Order) :
  ids_wf (db w) ->
  order_of id (db w) = Some o ->
  exists o', order_of id (db (return_page r q w).1) = Some o'
    /\ (is_Some (mpPaymentId o) -> is_Some (mpPaymentId o'))
    /\ (is_Some (mpPreferenceId o) -> is_Some (mpPreferenceId o')).
Proof.
  intros Hwf Ho.
  destruct (return_page_cases r q w)
    as [[-> _]|(o1 & o2 & Hfind & Hin2 & Hid & Hf & H)];
    [exists o; split; [exact Ho|split; auto]|].
  cbv zeta in H. destruct H as (-> & _).
  destruct (find_order_in _ _ _ _ Hfind) as [_ Hin1].
  rewrite (find_by_id_wf o1 (db w) Hwf Hin1) in Hf. injection Hf as <-.
  pose proof Ho as Ho'. unfold order_of in Ho'.
  apply find_some in Ho' as [Hin E]. apply Nat.eqb_eq in E.
  destruct (Nat.eq_dec (_id o) (_id o1)) as [Eid|Nid].
  - assert (o = o1) by (eapply same_id_same_doc; [exact (proj1 Hwf)|..]; eauto).
    subst o1. eexists. split.
    + unfold order_of. cbn [docs]. rewrite <- E.
      match goal with |- context [replace_doc ?x _] =>
        change (_id o) with (_id x);
        apply (order_of_replace x (db w)) end.
      exists o. auto.
    + cbn [apply_patch mpPaymentId mpPreferenceId patch_mpPaymentId
           patch_mpPreferenceId]. unfold or_else.
      split; intros Hsome; destruct (truthy _); eauto.
  - exists o. split; [|split; auto].
    unfold order_of in *. cbn [docs]. unfold replace_doc.
    revert Ho. generalize (docs (db w)) as l.
    induction l as [|x l IH]; simpl; [discriminate|].
    destruct (Nat.eqb_spec (_id x) id) as [Ex|Nx].
    + intros [= ->]. destruct (Nat.eqb_spec (_id o) (_id o1)); [contradiction|].
      simpl. rewrite E, Nat.eqb_refl. reflexivity.
    + intros Hl. destruct (Nat.eqb (_id x) (_id o1)); simpl.
      * destruct (Nat.eqb_spec (_id o1) id) as [E1|_]; [congruence|].
        apply IH, Hl.
      * destruct (Nat.eqb_spec (_id x) id); [contradiction|]. apply IH, Hl.
Qed.

Lemma gateway_ids_kept_witness :
  ids_wf (db Sample.world_paid)
  /\ order_of 0 (db Sample.world_paid) = Some Sample.order_paid
  /\ is_Some (mpPaymentId Sample.order_paid)
  /\ exists o',
       order_of 0 (db (return_page Failure
                         (mkQuery None None None None None (Some (Oid 0)))
                         Sample.world_paid).1) = Some o'
       /\ (is_Some (mpPaymentId Sample.order_paid) -> is_Some (mpPaymentId o'))
       /\ (is_Some (mpPreferenceId Sample.order_paid)
           -> is_Some (mpPreferenceId o')).
Proof.
  pose proof ids_wf_world_paid as H.
  assert (Ho : order_of 0 (db Sample.world_paid) = Some Sample.order_paid)
    by (vm_compute; reflexivity).
  split; [exact H|]. split; [exact Ho|].
  split; [vm_compute; eauto|].
  exact (gateway_ids_kept Failure _ Sample.world_paid 0 Sample.order_paid H Ho).
Defined.

(** X13.  [getMpReturnParams] gives no empty string: an empty
    parameter counts as missing; and a [payment_id] or a [status] that
    is present, even empty, hides [collection_id] or
    [collection_status]. *)
Theorem return_params_not_empty (q : Query) :
  let p := getMpReturnParams q in
  paymentId p <> Some EmptyString
  /\ p_status p <> Some EmptyString
  /\ preferenceId p <> Some EmptyString
  /\ match payment_id q with
     | Some s => paymentId p = truthy (Some s)
     | None => paymentId p = truthy (collection_id q)
     end
  /\ match q_status q with
     | Some s => p_status p = truthy (Some s)
     | None => p_status p = truthy (collection_status q)
     end.
Proof.
  assert (H : forall x, truthy x <> Some EmptyString).
  { intros [[|c s]|]; simpl; discriminate. }
  simpl. repeat split; try apply H.
  - destruct (payment_id q); reflexivity.
  - destruct (q_status q); reflexivity.
Qed.

(** ** More on a checkout *)

(** The open order is retired and a new one is created: the
    collection afterwards. *)
Lemma retired_lookup u cart body now d o s :
  Db_wf d -> open_of u d = Some o ->
  let gone := with_status o s in
  let new := fresh_doc u cart body now (nextId d) in
  let d' := mkDb (replace_doc gone (docs d) ++ [new]) (S (nextId d)) in
  order_of (nextId d) d' = Some new /\ order_of (_id o) d' = Some gone.
Proof.
  intros Hwf Hopen gone new d'.
  destruct (open_of_in _ _ _ Hopen) as [Hin Ho].
  destruct Hwf as ([Hnd Hlt] & _ & _). rewrite Forall_forall in Hlt.
  assert (Hfresh : forall y, In y (docs d) -> Nat.eqb (_id y) (nextId d) = false).
  { intros y Hy. apply Nat.eqb_neq.
    specialize (Hlt y (proj2 (list_elem_of_In _ _) Hy)). lia. }
  split.
  - unfold order_of, d'. cbn [docs]. rewrite find_app_r.
    + simpl. rewrite Nat.eqb_refl. reflexivity.
    + intros y Hy. unfold replace_doc in Hy.
      apply in_map_iff in Hy as (z & <- & Hz).
      destruct (Nat.eqb (_id z) (_id gone)); [apply (Hfresh o Hin)|apply (Hfresh z Hz)].
  - unfold order_of, d'. cbn [docs]. apply find_app_l.
    apply (order_of_replace gone d). exists o. auto.
Qed.

(** X14.  When the open order of a user has expired, a checkout with
    a cart that the schema accepts sets it to [expired] and creates a new
    order, which expires a day later, even when the cart is the same as
    before. *)
Theorem expired_checkout (u : string) (cart : SessionCart.t)
        (body : option Body.t) (now : Z) (d : Db) (o : Order) :
  Db_wf d ->
  open_of u d = Some o ->
  isExpired_at now (Some o) = true ->
  accepted cart body = true ->
  exists r d',
    getOrCreateOrderFromCart u cart body now d = (inr r, d')
    /\ status (order r) = created
    /\ _id (order r) = nextId d
    /\ attemptCount (order r) = 0
    /\ expiresAt (order r) = Some (now + 86400000)
    /\ order_of (nextId d) d' = Some (order r)
    /\ order_of (_id o) d' = Some (with_status o expired).
Proof.
  intros Hwf Hopen Hexp Hacc.
  destruct (retire_then_create u cart body now d o expired Hwf Hopen
              ltac:(discriminate) Hacc) as [Hsave Hcreate].
  rewrite materialize_eq, Hopen, Hexp. simpl negb. simpl andb. cbv iota.
  rewrite Hsave. simpl snd. rewrite Hcreate.
  destruct (retired_lookup u cart body now d o expired Hwf Hopen) as [Hnew Hgone].
  eexists _, _. split; [reflexivity|]. simpl order.
  repeat split; assumption.
Qed.

Lemma Db_wf_db_created : Db_wf Sample.db_created.
Proof. apply run_call_wf, Db_wf_empty. Qed.

Lemma expired_checkout_witness :
  open_of Sample.user1 Sample.db_created = Some Sample.order0
  /\ cartHash Sample.order0
     = Some (hash_of (session_cart Sample.cart_mate) None)
  /\ exists r d',
       getOrCreateOrderFromCart Sample.user1 (session_cart Sample.cart_mate)
                                None Sample2.next_day Sample.db_created
       = (inr r, d')
       /\ status (order r) = created
       /\ _id (order r) = 1%nat
       /\ attemptCount (order r) = 0
       /\ expiresAt (order r) = Some (Sample2.next_day + 86400000)
       /\ order_of 1 d' = Some (order r)
       /\ order_of 0 d' = Some (with_status Sample.order0 expired).
Proof.
  assert (Hopen : open_of Sample.user1 Sample.db_created = Some Sample.order0)
    by (vm_compute; reflexivity).
  split; [exact Hopen|]. split; [vm_compute; reflexivity|].
  apply (expired_checkout Sample.user1 (session_cart Sample.cart_mate) None
           Sample2.next_day Sample.db_created Sample.order0
           Db_wf_db_created Hopen).
  - reflexivity.
  - vm_compute. reflexivity.
Defined.

(** X15.  A checkout with a cart that the schema refuses fails with a
    validation error; when the user had an open order that the request
    does not reuse, that order has been retired all the same, so that the
    user is left with no open order. *)
Theorem refused_cart_retires (u : string) (cart : SessionCart.t)
        (body : option Body.t) (now : Z) (d : Db) (o : Order) :
  Db_wf d ->
  open_of u d = Some o ->
  negb (isExpired_at now (Some o))
  && bool_decide (cartHash o = Some (hash_of cart body)) = false ->
  accepted cart body = false ->
  let s := if isExpired_at now (Some o) then expired else abandoned in
  let d' := mkDb (replace_doc (with_status o s) (docs d)) (nextId d) in
  getOrCreateOrderFromCart u cart body now d = (inl ValidationError, d')
  /\ order_of (_id o) d' = Some (with_status o s)
  /\ open_orders u d' = [].
Proof.
  intros Hwf Hopen Hcond Hacc s d'.
  destruct (open_of_in _ _ _ Hopen) as [Hin Ho].
  assert (Hs : s <> created) by (unfold s; destruct (isExpired_at _ _); discriminate).
  assert (Hsave : save (with_status o s) d = (inr tt, d')).
  { unfold save.
    change (validate (with_status o s)) with (validate o).
    destruct Hwf as (_ & Hval & _). rewrite Forall_forall in Hval.
    rewrite (Hval o (proj2 (list_elem_of_In _ _) Hin)). simpl negb. cbv iota.
    rewrite collides_not_created by exact Hs. reflexivity. }
  split; [|split].
  - rewrite materialize_eq, Hopen, Hcond. fold s. rewrite Hsave. simpl snd.
    unfold create. rewrite validate_fresh, Hacc. reflexivity.
  - unfold order_of, d'. cbn [docs].
    apply (order_of_replace (with_status o s) d). exists o. auto.
  - unfold open_orders, d'. cbn [docs]. apply filter_replace_none.
    + intros o' Hin' Ho'. simpl.
      pose proof (open_orders_single _ _ _ Hwf Hopen) as Hsingle.
      assert (In o' (open_orders u d)) by (apply filter_In; auto).
      rewrite Hsingle in H. destruct H as [<-|[]]. reflexivity.
    + unfold is_created_of. simpl.
      rewrite (bool_decide_eq_false_2 (s = created)) by exact Hs.
      apply andb_false_r.
Qed.

Lemma refused_cart_retires_witness :
  open_of Sample.user1 Sample.db_created = Some Sample.order0
  /\ accepted (session_cart Sample2.cart_blank) None = false
  /\ getOrCreateOrderFromCart Sample.user1 (session_cart Sample2.cart_blank)
                              None 61000 Sample.db_created
     = (inl ValidationError,
        mkDb [with_status Sample.order0 abandoned] 1)
  /\ open_orders Sample.user1 (mkDb [with_status Sample.order0 abandoned] 1) = [].
Proof.
  assert (Hopen : open_of Sample.user1 Sample.db_created = Some Sample.order0)
    by (vm_compute; reflexivity).
  assert (Hacc : accepted (session_cart Sample2.cart_blank) None = false)
    by (vm_compute; reflexivity).
  split; [exact Hopen|]. split; [exact Hacc|].
  destruct (refused_cart_retires Sample.user1 (session_cart Sample2.cart_blank)
              None 61000 Sample.db_created Sample.order0
              Db_wf_db_created Hopen) as (H1 & _ & H3);
    [vm_compute; reflexivity|exact Hacc|].
  split; [exact H1|exact H3].
Defined.

(** X16.  A checkout that reuses the open order does not extend its
    life: the order keeps its expiry, its creation date, its digest and
    its identifiers of the gateway; the collection has the same
    documents, of which that one is replaced. *)
Theorem reuse_keeps_expiry (u : string) (cart : SessionCart.t)
        (body : option Body.t) (now : Z) (d : Db) (o : Order) :
  Db_wf d ->
  open_of u d = Some o ->
  isExpired_at now (Some o) = false ->
  cartHash o = Some (hash_of cart body) ->
  accepted cart body = true ->
  exists r d',
    getOrCreateOrderFromCart u cart body now d = (inr r, d')
    /\ expiresAt (order r) = expiresAt o
    /\ createdAt (order r) = createdAt o
    /\ cartHash (order r) = cartHash o
    /\ mpPreferenceId (order r) = mpPreferenceId o
    /\ mpPaymentId (order r) = mpPaymentId o
    /\ lastAttemptAt (order r) = Some now
    /\ map _id (docs d') = map _id (docs d)
    /\ nextId d' = nextId d
    /\ order_of (_id o) d' = Some (order r).
Proof.
  intros Hwf Hopen Hexp Hh Hacc.
  pose proof (open_orders_single _ _ _ Hwf Hopen) as Hsingle.
  destruct (open_of_in _ _ _ Hopen) as [Hin Ho].
  destruct (is_created_of_inv _ _ Ho) as [Hu _].
  rewrite materialize_eq, Hopen, Hexp.
  rewrite bool_decide_eq_true_2 by exact Hh. simpl negb. simpl andb. cbv iota.
  unfold save. rewrite validate_reused, Hacc. simpl negb. cbv iota.
  rewrite (collides_single (reused o cart body now) o d);
    [|simpl; rewrite Hu; exact Hsingle|reflexivity].
  eexists _, _. split; [reflexivity|]. cbn [order result_of docs nextId].
  repeat split.
  - apply replace_doc_ids.
  - unfold order_of. cbn [docs].
    apply (order_of_replace (reused o cart body now) d). exists o. auto.
Qed.

Lemma reuse_keeps_expiry_witness :
  open_of Sample.user1 Sample.db_created = Some Sample.order0
  /\ exists r d',
       getOrCreateOrderFromCart Sample.user1 (session_cart Sample.cart_mate)
                                None 61000 Sample.db_created = (inr r, d')
       /\ expiresAt (order r) = expiresAt Sample.order0
       /\ createdAt (order r) = createdAt Sample.order0
       /\ cartHash (order r) = cartHash Sample.order0
       /\ mpPreferenceId (order r) = mpPreferenceId Sample.order0
       /\ mpPaymentId (order r) = mpPaymentId Sample.order0
       /\ lastAttemptAt (order r) = Some 61000
       /\ map _id (docs d') = map _id (docs Sample.db_created)
       /\ nextId d' = nextId Sample.db_created
       /\ order_of (_id Sample.order0) d' = Some (order r).
Proof.
  assert (Hopen : open_of Sample.user1 Sample.db_created = Some Sample.order0)
    by (vm_compute; reflexivity).
  split; [exact Hopen|].
  apply (reuse_keeps_expiry Sample.user1 (session_cart Sample.cart_mate) None
           61000 Sample.db_created Sample.order0 Db_wf_db_created Hopen).
  - reflexivity.
  - vm_compute. reflexivity.
  - vm_compute. reflexivity.
Defined.

Lemma in_replace_other x (l : list Order) o :
  In o l -> _id o <> _id x -> In o (replace_doc x l).
Proof.
  intros Hin Hne. unfold replace_doc. apply in_map_iff. exists o.
  split; [|exact Hin]. apply Nat.eqb_neq in Hne. rewrite Hne. reflexivity.
Qed.

Lemma save_frame x d (P : Order -> Prop) :
  (forall o, In o (docs d) -> P o -> _id o <> _id x) ->
  map _id (docs (snd (save x d))) = map _id (docs d)
  /\ forall o, In o (docs d) -> P o -> In o (docs (snd (save x d))).
Proof.
  intros Hx.
  destruct (save_cases x d) as [[e ->]|(-> & _)]; simpl; [auto|].
  split; [apply replace_doc_ids|].
  intros o Hin Ho. apply in_replace_other; auto.
Qed.

Lemma create_frame mk d :
  (exists extra, map _id (docs (snd (create mk d))) = map _id (docs d) ++ extra
                 /\ (length extra <= 1)%nat)
  /\ forall o, In o (docs d) -> In o (docs (snd (create mk d))).
Proof.
  destruct (create_cases mk d) as [[e ->]|(-> & _)]; simpl.
  - split; [exists []; rewrite app_nil_r; auto|auto].
  - split; [|intros o Ho; apply in_or_app; auto].
    exists [_id (mk (nextId d))]. rewrite map_app. auto.
Qed.

(** X17.  A checkout of a user touches nothing but the open order of
    that user: every order of another user, and every order that is not
    in status [created], is in the collection afterwards as it was; no
    identifier disappears and at most one is added. *)
Theorem checkout_frame (d : Db) (c : Call) :
  ids_wf d ->
  (exists extra,
     map _id (docs (run_call d c)) = map _id (docs d) ++ extra
     /\ (length extra <= 1)%nat)
  /\ Forall (fun o => is_created_of (c_userId c) o = false ->
                      In o (docs (run_call d c)))
            (docs d).
Proof.
  intros Hwf. rewrite Forall_forall.
  assert (Hother : forall o0 x, open_of (c_userId c) d = Some o0 ->
            _id x = _id o0 ->
            forall o, In o (docs d) -> is_created_of (c_userId c) o = false ->
                      _id o <> _id x).
  { intros o0 x Hopen Hid o Hin Ho E.
    destruct (open_of_in _ _ _ Hopen) as [Hin0 Ho0].
    assert (o = o0)
      by (eapply same_id_same_doc; [exact (proj1 Hwf)|..]; eauto; congruence).
    subst o0. congruence. }
  unfold run_call. rewrite materialize_eq.
  destruct (open_of (c_userId c) d) as [o0|] eqn:Hopen.
  - destruct (negb _ && _).
    + destruct (save_frame (reused o0 (c_cart c) (c_body c) (c_now c)) d
                  (fun o => is_created_of (c_userId c) o = false))
        as [Hids Hkeep]; [apply (Hother o0); reflexivity|].
      destruct (save _ d) as [[e|[]] d']; simpl in *;
        (split; [exists []; rewrite app_nil_r; auto|]);
        intros o Ho Hc; apply Hkeep; auto; apply list_elem_of_In, Ho.
    + match goal with |- context [save ?x d] =>
        destruct (save_frame x d (fun o => is_created_of (c_userId c) o = false))
          as [Hids Hkeep]; [apply (Hother o0); reflexivity|];
        set (d1 := snd (save x d)) in * end.
      destruct (create_frame (fresh_doc (c_userId c) (c_cart c) (c_body c)
                                        (c_now c)) d1)
        as [(extra & Hex & Hlen) Hkeep1].
      destruct (create _ d1) as [[e|o'] d']; simpl in *;
        (split; [exists extra; rewrite Hex, Hids; auto|]);
        intros o Ho Hc; apply Hkeep1, Hkeep; auto; apply list_elem_of_In, Ho.
  - destruct (create_frame (fresh_doc (c_userId c) (c_cart c) (c_body c)
                                      (c_now c)) d)
      as [(extra & Hex & Hlen) Hkeep1].
    destruct (create _ d) as [[e|o'] d']; simpl in *;
      (split; [exists extra; auto|]);
      intros o Ho Hc; apply Hkeep1; apply list_elem_of_In, Ho.
Qed.

Lemma checkout_frame_witness :
  ids_wf (db Sample.world_paid)
  /\ (exists extra,
        map _id (docs (run_call (db Sample.world_paid)
                         (mkCall Sample.user1
                            (session_cart Sample.cart_mate_termo) None 61000)))
        = map _id (docs (db Sample.world_paid)) ++ extra
        /\ (length extra <= 1)%nat)
  /\ Forall (fun o => is_created_of Sample.user1 o = false ->
                In o (docs (run_call (db Sample.world_paid)
                              (mkCall Sample.user1
                                 (session_cart Sample.cart_mate_termo)
                                 None 61000))))
            (docs (db Sample.world_paid)).
Proof.
  split; [exact ids_wf_world_paid|].
  exact (checkout_frame (db Sample.world_paid)
           (mkCall Sample.user1 (session_cart Sample.cart_mate_termo) None 61000)
           ids_wf_world_paid).
Defined.

End OrderMore.

(** * Properties of [postCheckout] *)

Module CheckoutFacts.

Import OrderModel OrderController MpService Checkout OrderFacts.


Lemma keys_update_cases id u d :
  findByIdAndUpdate_keys id u d = (inr None, d)
  \/ exists o,
       find (fun x => Nat.eqb (_id x) id) (docs d) = Some o
       /\ (findByIdAndUpdate_keys id u d = (inl DuplicateKey, d)
           \/ findByIdAndUpdate_keys id u d
              = (inr (Some (apply_update u o)),
                 mkDb (replace_doc (apply_update u o) (docs d)) (nextId d))).
Proof.
  unfold findByIdAndUpdate_keys.
  destruct (find _ (docs d)) as [o|]; [|left; reflexivity].
  right. exists o. split; [reflexivity|].
  destruct (collides _ _); [left|right]; reflexivity.
Qed.

Lemma keys_update_ids id u d :
  map _id (docs (findByIdAndUpdate_keys id u d).2) = map _id (docs d)
  /\ nextId (findByIdAndUpdate_keys id u d).2 = nextId d.
Proof.
  destruct (keys_update_cases id u d) as [->|(o & _ & [->| ->])]; simpl; auto.
  split; [apply replace_doc_ids|reflexivity].
Qed.

Lemma guard_inv (e : Env) (now : Z) (req : Request) (w : World) :
  userId_of req = None
  \/ match cart w with
     | Some c => CartService.items c = []
     | None => True
     end ->
  (postCheckout e now req w).1 = w
  /\ started (postCheckout e now req w).2 = false
  /\ gateway_url (postCheckout e now req w).2 = None.
Proof.
  unfold postCheckout. intros [Hu|Hc].
  - rewrite Hu. destruct (wantsJson req); repeat split.
  - destruct (userId_of req); [|destruct (wantsJson req); repeat split].
    destruct (cart w) as [[its n s1 s2 s3 m]|];
      [simpl in Hc; subst its|]; destruct (wantsJson req); repeat split.
Qed.

(** X18.  Without a user in the session, or with no cart or an empty
    one, [postCheckout] writes nothing and does not send the buyer to
    the gateway. *)
Theorem postCheckout_guard (e : Env) (now : Z) (req : Request) (w : World) :
  userId_of req = None
  \/ match cart w with
     | Some c => CartService.items c = []
     | None => True
     end ->
  (postCheckout e now req w).1 = w
  /\ started (postCheckout e now req w).2 = false
  /\ gateway_url (postCheckout e now req w).2 = None.
Proof. exact (guard_inv e now req w). Qed.

Lemma postCheckout_guard_witness :
  (postCheckout Sample2.gateway_up 1000 Sample2.form_post
                (mkWorld Sample.db_created (Some CartService.ensureCart))).1
  = mkWorld Sample.db_created (Some CartService.ensureCart)
  /\ started (postCheckout Sample2.gateway_up 1000 Sample2.form_post
                (mkWorld Sample.db_created (Some CartService.ensureCart))).2
     = false
  /\ gateway_url (postCheckout Sample2.gateway_up 1000 Sample2.form_post
                (mkWorld Sample.db_created (Some CartService.ensureCart))).2
     = None.
Proof.
  apply (postCheckout_guard Sample2.gateway_up 1000 Sample2.form_post
           (mkWorld Sample.db_created (Some CartService.ensureCart))).
  right. reflexivity.
Defined.

(** [postCheckout] past its two guards. *)
Lemma postCheckout_eq e now req w u c :
  userId_of req = Some u -> cart w = Some c -> CartService.items c <> [] ->
  postCheckout e now req w =
  match getOrCreateOrderFromCart u (session_cart c) (body req) now (db w) with
  | (inl err, db1) => (mkWorld db1 (cart w), failed (wantsJson req) (DbFailed err))
  | (inr m, db1) =>
      match createPreference (mp e) (gateway e) (Some (session_cart c))
                             (Some (_id (order m))) with
      | inl err => (mkWorld db1 (cart w), failed (wantsJson req) (MpFailed err))
      | inr pref =>
          match findByIdAndUpdate_keys (_id (order m))
                  (mkUpdate None (Some (Some (Pref.id pref))) None) db1 with
          | (inl err, db2) =>
              (mkWorld db2 (cart w), failed (wantsJson req) (DbFailed err))
          | (inr _, db2) =>
              let isProd := bool_decide (NODE_ENV e = Some "production"%string) in
              let url :=
                if isProd then Pref.init_point pref
                else default (Pref.init_point pref)
                             (truthy (Pref.sandbox_init_point pref)) in
              (mkWorld db2 (cart w),
               if wantsJson req
               then Created
                      (mkStarted (_id (order m)) (Pref.id pref)
                         (Pref.init_point pref) (Pref.sandbox_init_point pref)
                         url
                         (if isProd then "production" else "development"))
               else SeeOther url)
          end
      end
  end.
Proof.
  intros Hu Hc Hne. unfold postCheckout. rewrite Hu, Hc.
  destruct c as [its n s1 s2 s3 m0]. simpl in Hne.
  destruct its as [|it its]; [contradiction|]. reflexivity.
Qed.

Lemma failed_not_started b err :
  started (failed b err) = false /\ gateway_url (failed b err) = None.
Proof. destruct b; split; reflexivity. Qed.

(** X19.  The order is written before the gateway is asked: when the
    preference cannot be created (the gateway fails, or a line is
    refused), [postCheckout] does not send the buyer to the gateway, and
    yet the collection is the one that the checkout has left, with the
    open order of the user in it. *)
Theorem order_before_gateway (e : Env) (now : Z) (req : Request) (w : World)
        (u : string) (c : CartService.Cart) :
  Db_wf (db w) ->
  userId_of req = Some u -> cart w = Some c -> CartService.items c <> [] ->
  accepted (session_cart c) (body req) = true ->
  (forall oid, exists err,
      createPreference (mp e) (gateway e) (Some (session_cart c)) (Some oid)
      = inl err) ->
  started (postCheckout e now req w).2 = false
  /\ db (postCheckout e now req w).1 = run_call (db w) (call_of u c req now)
  /\ exists o,
       open_orders u (db (postCheckout e now req w).1) = [o]
       /\ cartHash o = Some (hash_of (session_cart c) (body req)).
Proof.
  intros Hwf Hu Hc Hne Hacc Hfail.
  rewrite (postCheckout_eq e now req w u c Hu Hc Hne).
  unfold run_call, call_of. cbn [c_userId c_cart c_body c_now].
  destruct (materialize_total u (session_cart c) (body req) now (db w) Hwf Hacc)
    as (r & d1 & Hm).
  destruct (materialize_returns _ _ _ _ _ _ _ (proj1 Hwf) Hm)
    as (_ & Hopen & _ & Hh & _).
  rewrite Hm. destruct (Hfail (_id (order r))) as [err ->]. cbn [fst snd db].
  split; [apply failed_not_started|]. split; [reflexivity|].
  exists (order r). auto.
Qed.

Lemma order_before_gateway_witness :
  started (postCheckout Sample2.gateway_down 1000 Sample2.form_post
                        Sample2.world_cart).2 = false
  /\ db (postCheckout Sample2.gateway_down 1000 Sample2.form_post
                      Sample2.world_cart).1 = Sample.db_created
  /\ exists o,
       open_orders Sample.user1
         (db (postCheckout Sample2.gateway_down 1000 Sample2.form_post
                           Sample2.world_cart).1) = [o]
       /\ cartHash o = Some (hash_of (session_cart Sample.cart_mate) None).
Proof.
  apply (order_before_gateway Sample2.gateway_down 1000 Sample2.form_post
           Sample2.world_cart Sample.user1 Sample.cart_mate).
  - exact Db_wf_empty.
  - reflexivity.
  - reflexivity.
  - vm_compute. discriminate.
  - vm_compute. reflexivity.
  - intros oid. exists SdkError. vm_compute. reflexivity.
Defined.

Lemma create_preference_sent cfg gw cart oid pref :
  createPreference cfg gw cart (Some oid) = inr pref ->
  exists c b,
    cart = Some c
    /\ gw b = Some pref
    /\ PreferenceBody.external_reference b = oid
    /\ map_items (SessionCart.items c) = inr (PreferenceBody.items b).
Proof.
  unfold createPreference. destruct cart as [c|]; [|discriminate].
  destruct (SessionCart.items c) as [|it its] eqn:Hits; [discriminate|].
  destruct (map_items (it :: its)) as [err|items] eqn:Hmap; [discriminate|].
  destruct (negb _); [discriminate|].
  match goal with |- context [gw ?b] => destruct (gw b) as [p|] eqn:Hg end;
    [|discriminate].
  intros [= <-]. eexists c, _. split; [reflexivity|]. split; [exact Hg|].
  split; [reflexivity|]. simpl. rewrite Hits. exact Hmap.
Qed.

Lemma open_order_in u d o : open_orders u d = [o] ->
  In o (docs d) /\ userId o = u /\ status o = created.
Proof.
  intros H. assert (Hin : In o (open_orders u d)) by (rewrite H; left; reflexivity).
  apply filter_In in Hin as [Hin Ho].
  destruct (is_created_of_inv _ _ Ho). auto.
Qed.

(** The order that a checkout has returned, once the preference is
    written on it. *)
Lemma preference_written u d o pref :
  ids_wf d -> open_orders u d = [o] ->
  let o' := apply_update (mkUpdate None (Some (Some pref)) None) o in
  findByIdAndUpdate_keys (_id o) (mkUpdate None (Some (Some pref)) None) d
  = (inr (Some o'), mkDb (replace_doc o' (docs d)) (nextId d))
  /\ open_orders u (mkDb (replace_doc o' (docs d)) (nextId d)) = [o']
  /\ order_of (_id o) (mkDb (replace_doc o' (docs d)) (nextId d)) = Some o'.
Proof.
  intros Hwf Hopen o'.
  destruct (open_order_in _ _ _ Hopen) as (Hin & Hu & Hs).
  assert (Hcol : collides o' (docs d) = false).
  { apply (collides_single o' o d); [|reflexivity].
    simpl. rewrite Hu. exact Hopen. }
  split; [|split].
  - unfold findByIdAndUpdate_keys.
    rewrite (OrderMore.find_by_id_wf o d Hwf Hin). fold o'. rewrite Hcol.
    reflexivity.
  - rewrite <- Hu.
    apply (open_after_save o' o d Hwf Hin); [reflexivity|exact Hs|exact Hcol].
  - unfold order_of. cbn [docs]. apply (order_of_replace o' d). exists o. auto.
Qed.

(** What a [postCheckout] that sends the buyer to the gateway has
    done. *)
Lemma started_inv (e : Env) (now : Z) (req : Request) (w : World) :
  ids_wf (db w) ->
  started (postCheckout e now req w).2 = true ->
  exists u c o b pref,
    userId_of req = Some u
    /\ cart w = Some c
    /\ CartService.items c <> []
    /\ accepted (session_cart c) (body req) = true
    /\ gateway e b = Some pref
    /\ PreferenceBody.external_reference b = _id o
    /\ map_items (CartService.items c) = inr (PreferenceBody.items b)
    /\ ids_wf (db (postCheckout e now req w).1)
    /\ cart (postCheckout e now req w).1 = cart w
    /\ open_orders u (db (postCheckout e now req w).1) = [o]
    /\ order_of (_id o) (db (postCheckout e now req w).1) = Some o
    /\ mpPreferenceId o = Some (Pref.id pref)
    /\ cartHash o = Some (hash_of (session_cart c) (body req))
    /\ gateway_url (postCheckout e now req w).2
       = Some (if bool_decide (NODE_ENV e = Some "production"%string)
               then Pref.init_point pref
               else default (Pref.init_point pref)
                            (truthy (Pref.sandbox_init_point pref))).
Proof.
  intros Hwf Hst.
  destruct (userId_of req) as [u|] eqn:Hu.
  2:{ destruct (guard_inv e now req w (or_introl Hu)) as (_ & H & _).
      congruence. }
  destruct (cart w) as [c|] eqn:Hc.
  2:{ destruct (guard_inv e now req w) as (_ & H & _);
        [right; rewrite Hc; exact I|congruence]. }
  destruct (CartService.items c) as [|it its] eqn:Hits.
  { destruct (guard_inv e now req w) as (_ & H & _);
      [right; rewrite Hc; exact Hits|congruence]. }
  assert (Hne : CartService.items c <> []) by (rewrite Hits; discriminate).
  revert Hst. rewrite (postCheckout_eq e now req w u c Hu Hc Hne).
  destruct (getOrCreateOrderFromCart u (session_cart c) (body req) now (db w))
    as [[err|m] d1] eqn:Hm;
    [cbn [fst snd]; intros H; rewrite (proj1 (failed_not_started _ _)) in H;
     discriminate|].
  destruct (materialize_returns _ _ _ _ _ _ _ Hwf Hm)
    as (Hwf1 & Hopen & _ & Hh & Hacc & _).
  destruct (createPreference _ _ _ _) as [err|pref] eqn:Hp;
    [cbn [fst snd]; intros H; rewrite (proj1 (failed_not_started _ _)) in H;
     discriminate|].
  destruct (create_preference_sent _ _ _ _ _ Hp) as (c' & b & [= <-] & Hg & Href & Hmap).
  destruct (preference_written u d1 (order m) (Pref.id pref) Hwf1 Hopen)
    as (Hupd & Hopen' & Hord).
  rewrite Hupd. intros _. cbn [fst snd db cart].
  match type of Hopen' with _ = [?x] => exists u, c, x, b, pref end.
  split; [reflexivity|]. split; [reflexivity|]. split; [exact Hne|].
  split; [exact Hacc|]. split; [exact Hg|].
  split; [exact Href|]. split; [exact Hmap|].
  split; [apply ids_wf_replace, Hwf1|].
  split; [first [exact Hc|symmetry; exact Hc|reflexivity]|].
  split; [exact Hopen'|]. split; [exact Hord|].
  split; [reflexivity|]. split; [exact Hh|].
  destruct (wantsJson req); reflexivity.
Qed.

(** X20.  When [postCheckout] sends the buyer to the gateway, the
    gateway has created a preference whose external reference is the
    identifier of the open order of the user, that order stores the
    identifier of the preference, and the address is [init_point] in
    production and [sandbox_init_point], if there is one, otherwise. *)
Theorem started_checkout (e : Env) (now : Z) (req : Request) (w : World) :
  ids_wf (db w) ->
  started (postCheckout e now req w).2 = true ->
  exists u c o b pref,
    userId_of req = Some u
    /\ cart w = Some c
    /\ gateway e b = Some pref
    /\ PreferenceBody.external_reference b = _id o
    /\ map_items (CartService.items c) = inr (PreferenceBody.items b)
    /\ open_orders u (db (postCheckout e now req w).1) = [o]
    /\ order_of (_id o) (db (postCheckout e now req w).1) = Some o
    /\ mpPreferenceId o = Some (Pref.id pref)
    /\ cartHash o = Some (hash_of (session_cart c) (body req))
    /\ gateway_url (postCheckout e now req w).2
       = Some (if bool_decide (NODE_ENV e = Some "production"%string)
               then Pref.init_point pref
               else default (Pref.init_point pref)
                            (truthy (Pref.sandbox_init_point pref))).
Proof.
  intros Hwf Hst.
  destruct (started_inv e now req w Hwf Hst)
    as (u & c & o & b & pref & H1 & H2 & _ & _ & H3 & H4 & H5 & _ & _ & H6 & H7
        & H8 & H9 & H10).
  exists u, c, o, b, pref. repeat split; assumption.
Qed.

Lemma started_checkout_witness :
  ids_wf (db Sample2.world_cart)
  /\ started (postCheckout Sample2.gateway_up 1000 Sample2.form_post
                           Sample2.world_cart).2 = true
  /\ gateway_url (postCheckout Sample2.gateway_up 1000 Sample2.form_post
                               Sample2.world_cart).2
     = Some "https://sandbox.mp.example/pay"%string
  /\ exists o,
       order_of 0 (db (postCheckout Sample2.gateway_up 1000 Sample2.form_post
                                    Sample2.world_cart).1) = Some o
       /\ mpPreferenceId o = Some "pref-0001"%string.
Proof.
  assert (Hst : started (postCheckout Sample2.gateway_up 1000 Sample2.form_post
                           Sample2.world_cart).2 = true)
    by (vm_compute; reflexivity).
  split; [exact ids_wf_empty|]. split; [exact Hst|].
  split; [vm_compute; reflexivity|].
  destruct (started_checkout Sample2.gateway_up 1000 Sample2.form_post
              Sample2.world_cart ids_wf_empty Hst)
    as (u & c & o & b & pref & _ & _ & Hg & Href & _ & _ & Hord & Hpref & _).
  exists o.
  assert (Hid : _id o = 0%nat).
  { unfold order_of in Hord. apply find_some in Hord as [Hin _].
    revert Hin. vm_compute. intros [<-|[]]. reflexivity. }
  rewrite Hid in *. split; [exact Hord|].
  rewrite Hpref. f_equal.
  simpl in Hg. injection Hg as <-. simpl. rewrite Href. reflexivity.
Defined.

(** The reuse branch on a collection that holds one open order of the
    user. *)
Lemma reuse_step u cart body now d o :
  open_orders u d = [o] ->
  isExpired_at now (Some o) = false ->
  cartHash o = Some (hash_of cart body) ->
  accepted cart body = true ->
  getOrCreateOrderFromCart u cart body now d
  = (inr (result_of cart body (reused o cart body now)),
     mkDb (replace_doc (reused o cart body now) (docs d)) (nextId d)).
Proof.
  intros Hopen Hexp Hh Hacc.
  destruct (open_order_in _ _ _ Hopen) as (Hin & Hu & Hs).
  rewrite materialize_eq. unfold open_of. rewrite Hopen.
  simpl fold_left. cbv beta iota. rewrite Hexp.
  rewrite bool_decide_eq_true_2 by exact Hh. simpl negb. simpl andb. cbv iota.
  unfold save. rewrite validate_reused, Hacc. simpl negb. cbv iota.
  rewrite (collides_single (reused o cart body now) o d);
    [reflexivity|simpl; rewrite Hu; exact Hopen|reflexivity].
Qed.

(** X21.  When [postCheckout] has sent the buyer to the gateway, the
    same request posted again before the open order of the user expires
    creates no order: the collection has the same documents, and the
    open order of the user has one attempt more, whether the gateway
    answers this time or not. *)
Theorem postCheckout_again (e1 e2 : Env) (now1 now2 : Z) (req : Request)
        (w : World) :
  ids_wf (db w) ->
  started (postCheckout e1 now1 req w).2 = true ->
  (forall u, userId_of req = Some u ->
     Forall (fun o => isExpired_at now2 (Some o) = false)
            (open_orders u (db (postCheckout e1 now1 req w).1))) ->
  let w1 := (postCheckout e1 now1 req w).1 in
  let w2 := (postCheckout e2 now2 req w1).1 in
  map _id (docs (db w2)) = map _id (docs (db w1))
  /\ nextId (db w2) = nextId (db w1)
  /\ exists u o1 o2,
       open_orders u (db w1) = [o1]
       /\ order_of (_id o1) (db w2) = Some o2
       /\ attemptCount o2 = attemptCount o1 + 1
       /\ status o2 = created.
Proof.
  intros Hwf Hst Hfresh w1 w2.
  destruct (started_inv e1 now1 req w Hwf Hst)
    as (u & c & o1 & b & pref & Hu & Hc & Hne & Hacc & _ & _ & _ & Hwf1 & Hc1
        & Hopen1 & _ & _ & Hh & _).
  specialize (Hfresh u Hu).
  fold w1 in Hwf1, Hc1, Hopen1, Hfresh.
  destruct (open_order_in _ _ _ Hopen1) as (Hin1 & Hu1 & Hs1).
  assert (Hexp : isExpired_at now2 (Some o1) = false).
  { rewrite Hopen1 in Hfresh. apply Forall_inv in Hfresh. exact Hfresh. }
  rewrite Hc in Hc1.
  pose proof (reuse_step u (session_cart c) (body req) now2 (db w1) o1
                Hopen1 Hexp Hh Hacc) as Hm.
  set (o2 := reused o1 (session_cart c) (body req) now2) in *.
  set (d3 := mkDb (replace_doc o2 (docs (db w1))) (nextId (db w1))) in *.
  assert (Hwf3 : ids_wf d3) by (apply ids_wf_replace, Hwf1).
  assert (Hopen3 : open_orders u d3 = [o2]).
  { rewrite <- Hu1.
    apply (open_after_save o2 o1 (db w1) Hwf1 Hin1); [reflexivity|exact Hs1|].
    apply (collides_single o2 o1 (db w1)); [|reflexivity].
    simpl. rewrite Hu1. exact Hopen1. }
  assert (Hord3 : order_of (_id o1) d3 = Some o2).
  { unfold order_of, d3. cbn [docs]. apply (order_of_replace o2 (db w1)).
    exists o1. auto. }
  assert (Hids3 : map _id (docs d3) = map _id (docs (db w1)))
    by apply replace_doc_ids.
  unfold w2. rewrite (postCheckout_eq e2 now2 req w1 u c Hu Hc1 Hne), Hm.
  cbn [order result_of].
  destruct (createPreference _ _ _ _) as [err|pref2]; cbn [fst snd db].
  { split; [exact Hids3|]. split; [reflexivity|].
    exists u, o1, o2. repeat split; auto. }
  destruct (preference_written u d3 o2 (Pref.id pref2) Hwf3 Hopen3)
    as (Hupd & _ & Hord4).
  rewrite Hupd. cbn [fst snd db docs nextId].
  split; [rewrite replace_doc_ids; exact Hids3|]. split; [reflexivity|].
  eexists u, o1, _. split; [exact Hopen1|]. split; [exact Hord4|].
  split; [reflexivity|exact Hs1].
Qed.

Lemma postCheckout_again_witness :
  let w1 := (postCheckout Sample2.gateway_up 1000 Sample2.form_post
                          Sample2.world_cart).1 in
  let w2 := (postCheckout Sample2.gateway_down 61000 Sample2.form_post w1).1 in
  started (postCheckout Sample2.gateway_up 1000 Sample2.form_post
                        Sample2.world_cart).2 = true
  /\ map _id (docs (db w2)) = map _id (docs (db w1))
  /\ nextId (db w2) = nextId (db w1)
  /\ exists u o1 o2,
       open_orders u (db w1) = [o1]
       /\ order_of (_id o1) (db w2) = Some o2
       /\ attemptCount o2 = attemptCount o1 + 1
       /\ status o2 = created.
Proof.
  intros w1 w2.
  assert (Hst : started (postCheckout Sample2.gateway_up 1000 Sample2.form_post
                           Sample2.world_cart).2 = true)
    by (vm_compute; reflexivity).
  split; [exact Hst|].
  apply (postCheckout_again Sample2.gateway_up Sample2.gateway_down 1000 61000
           Sample2.form_post Sample2.world_cart ids_wf_empty Hst).
  intros u [= <-]. vm_compute. repeat constructor.
Defined.

End CheckoutFacts.

(** * Properties of the handlers of the cart *)

Module CartControllerFacts.

Import CartService CartLines CartSession CartController CartFacts.

Lemma add_qty_pos n : 1 <= add_qty n.
Proof.
  unfold add_qty. destruct n as [q| | |]; simpl; try lia.
  destruct (Z.ltb_spec 0 (Math_trunc q)); lia.
Qed.

Lemma found_active catalog id p :
  findOne_active catalog id = Some p ->
  In p catalog /\ ProductDoc._id p = Some id /\ ProductDoc.active p = Some true.
Proof.
  intros H. apply find_some in H as [Hin H].
  apply andb_true_iff in H as [H1 H2].
  apply bool_decide_eq_true in H1. apply bool_decide_eq_true in H2. auto.
Qed.

(** X23.  [addToCart] for a product identifier that is not empty: the
    product is not in the catalogue or not active, and the session is as
    it was; or it has no stock, and the cart is as it was; or [add]
    succeeds with a quantity of one or more.  Whatever the form sends as
    a quantity, [add] never refuses it. *)
Theorem addToCart_outcome (catalog : Catalog) (id : string) (n : JsNumber)
        (s : option Cart) :
  id <> EmptyString ->
  let r := addToCart catalog id n s in
  (findOne_active catalog id = None
   /\ session r = s
   /\ flashes r = [mkFlash "error" "El producto no existe o no está disponible."]
   /\ answer r = RedirectTo "back")
  \/ (exists p,
        findOne_active catalog id = Some p
        /\ availableStock p = 0
        /\ session r = Some (cart_of s)
        /\ flashes r = [mkFlash "error" "Sin stock disponible."]
        /\ answer r = RedirectTo "/cart")
  \/ (exists p c',
        findOne_active catalog id = Some p
        /\ 0 < availableStock p
        /\ 1 <= add_qty n
        /\ add p (Some (add_qty n)) (cart_of s) = (inr tt, c')
        /\ session r = Some c'
        /\ flashes r = [mkFlash "success" (added_text p)]
        /\ answer r = RedirectTo "/cart").
Proof.
  intros Hid r. unfold r, addToCart.
  destruct (findOne_active catalog id) as [p|] eqn:Hf; [|left; auto].
  right. destruct (found_active _ _ _ Hf) as (_ & Hp & Hact).
  assert (Hl : lacks_id p = false).
  { unfold lacks_id. rewrite Hp. destruct (decide (id = EmptyString)); congruence. }
  assert (Hd : deactivated p = false) by (unfold deactivated; rewrite Hact; reflexivity).
  pose proof (add_qty_pos n) as Hq.
  assert (Hst : 0 <= availableStock p) by (unfold availableStock; lia).
  destruct (Z.eq_dec (availableStock p) 0) as [H0|H0].
  - left. exists p. split; [reflexivity|]. split; [exact H0|].
    unfold add. rewrite Hl, Hd, H0. simpl. auto.
  - right.
    destruct (add_checked p (Some (add_qty n)) (cart_of s) Hl Hd) as (l & Heq & _);
      [lia|simpl; lia|].
    rewrite Heq. eexists p, _. split; [reflexivity|]. split; [lia|].
    split; [exact Hq|]. simpl. split; [exact Heq|]. auto.
Qed.

Lemma addToCart_outcome_witness :
  session (addToCart Sample2.shop "64b7f0a1c2d3e4f5a6b7c8dc"
                     (Finite (-(7 # 2))) (Some Sample.cart_mate))
  = Some Sample.cart_mate
  /\ flashes (addToCart Sample2.shop "64b7f0a1c2d3e4f5a6b7c8dc"
                        (Finite (-(7 # 2))) (Some Sample.cart_mate))
     = [mkFlash "error" "Sin stock disponible."].
Proof.
  destruct (addToCart_outcome Sample2.shop "64b7f0a1c2d3e4f5a6b7c8dc"
              (Finite (-(7 # 2))) (Some Sample.cart_mate))
    as [(H & _)|[(p & _ & _ & Hs & Hfl & _)|(p & c' & H & H0 & _)]];
    [discriminate|vm_compute in H; discriminate|split; [exact Hs|exact Hfl]|].
  vm_compute in H. injection H as <-. vm_compute in H0. discriminate.
Defined.

(** ** The map of the fresh products *)

Lemma map_set_keeps l : forall m k,
  is_Some (m !! k) -> is_Some (fold_left map_set l m !! k).
Proof.
  induction l as [|d l IH]; simpl; intros m k H; [exact H|].
  apply IH. unfold map_set. destruct (ProductDoc._id d) as [k'|]; [|exact H].
  destruct (decide (k' = k)) as [->|Hne].
  - rewrite lookup_insert_eq. eauto.
  - rewrite lookup_insert_ne by exact Hne. exact H.
Qed.

Lemma map_set_from l : forall m k f,
  fold_left map_set l m !! k = Some f ->
  (In f l /\ ProductDoc._id f = Some k) \/ m !! k = Some f.
Proof.
  induction l as [|d l IH]; simpl; intros m k f H; [right; exact H|].
  destruct (IH _ _ _ H) as [[Hin Hid]|Hm]; [left; auto|].
  unfold map_set in Hm. destruct (ProductDoc._id d) as [k'|] eqn:Hd; [|right; exact Hm].
  destruct (decide (k' = k)) as [->|Hne].
  - rewrite lookup_insert_eq in Hm. injection Hm as <-. left. auto.
  - rewrite lookup_insert_ne in Hm by exact Hne. right. exact Hm.
Qed.

Lemma map_set_has l : forall m k f,
  In f l -> ProductDoc._id f = Some k -> is_Some (fold_left map_set l m !! k).
Proof.
  induction l as [|d l IH]; simpl; intros m k f Hin Hid; [contradiction|].
  destruct Hin as [->|Hin]; [|eapply IH; eassumption].
  apply map_set_keeps. unfold map_set. rewrite Hid, lookup_insert_eq. eauto.
Qed.

Lemma products_map_some catalog ids k f :
  getProductsMap catalog ids !! k = Some f ->
  In f catalog /\ is_active k f = true.
Proof.
  unfold getProductsMap. intros H.
  apply map_set_from in H as [[Hin Hid]|H]; [|rewrite lookup_empty in H; discriminate].
  apply filter_In in Hin as [Hin Hw]. split; [exact Hin|].
  unfold wanted in Hw. apply andb_true_iff in Hw as [_ Ha].
  unfold is_active. rewrite Ha, andb_true_r. apply bool_decide_eq_true_2, Hid.
Qed.

Lemma products_map_none catalog ids k :
  getProductsMap catalog ids !! k = None -> k ∈ ids ->
  Forall (fun f => is_active k f = false) catalog.
Proof.
  intros Hnone Hk. apply List.Forall_forall. intros f Hin.
  destruct (is_active k f) eqn:Ha; [|reflexivity]. exfalso.
  unfold is_active in Ha. apply andb_true_iff in Ha as [H1 H2].
  apply bool_decide_eq_true in H1.
  assert (Hw : wanted ids f = true).
  { unfold wanted. rewrite H1, H2, andb_true_r. apply bool_decide_eq_true_2, Hk. }
  destruct (map_set_has (List.filter (wanted ids) catalog) ∅ k f) as [x Hx];
    [apply filter_In; auto|exact H1|].
  unfold getProductsMap in Hnone. congruence.
Qed.

(** ** [viewCart] *)

(** The cart that [viewCart] leaves in the session. *)
Lemma viewCart_session catalog s :
  let pm := getProductsMap catalog (map productId (items (cart_of s))) in
  let c1 := recalc (Some pm) (cart_of s) in
  exists c,
    session (viewCart catalog s) = Some c
    /\ (c = c1 /\ existsb _adjusted (items c1) = false
        \/ c = with_items c1 (map without_flag (items c1)))
    /\ answer (viewCart catalog s)
       = match items c with
         | [] => RedirectTo "/"
         | _ => Render "cart/cart" (getSummary c)
         end.
Proof.
  intros pm c1. unfold viewCart. fold pm. fold c1.
  destruct (existsb _adjusted (items c1)) eqn:Hadj.
  - exists (with_items c1 (map without_flag (items c1))).
    destruct (items (with_items _ _)); simpl; auto.
  - exists c1. destruct (items c1); simpl; auto.
Qed.

Lemma recalc_line_from pm c it' :
  it' ∈ items (recalc pm c) -> productId it' ∈ (productId <$> items c).
Proof.
  rewrite recalc_items.
  destruct (recalc_loop pm (items c) (mkSums 0 0 0)) as [l s] eqn:Hl. simpl.
  intros Hin.
  destruct (recalc_loop_elem _ _ _ _ _ Hl it' Hin) as (it & a & b & Hit & Hline).
  rewrite (recalc_line_productId _ _ _ _ _ Hline).
  apply list_elem_of_fmap. eauto.
Qed.

(** X24.  [viewCart] leaves a cart in which no line is flagged as
    adjusted and every line has a quantity and a stock above zero, and
    its cents; a line whose product is active in the catalogue has the
    stock and the prices of an active document of that product and a
    quantity within that stock.  It redirects to the catalogue when the
    cart is empty and renders the summary of the cart otherwise. *)
Theorem viewCart_lines (catalog : Catalog) (s : option Cart) :
  exists c,
    session (viewCart catalog s) = Some c
    /\ Forall (fun it =>
                 _adjusted it = false
                 /\ live it
                 /\ ((exists f, In f catalog
                                /\ is_active (productId it) f = true
                                /\ refreshed_from f it)
                     \/ Forall (fun f => is_active (productId it) f = false)
                               catalog))
              (items c)
    /\ answer (viewCart catalog s)
       = match items c with
         | [] => RedirectTo "/"
         | _ => Render "cart/cart" (getSummary c)
         end.
Proof.
  destruct (viewCart_session catalog s) as (c & Hs & Hc & Ha).
  cbv zeta in Hc.
  set (ids := map productId (items (cart_of s))) in *.
  set (pm := getProductsMap catalog ids) in *.
  set (c1 := recalc (Some pm) (cart_of s)) in *.
  exists c. split; [exact Hs|]. split; [|exact Ha].
  assert (H1 : Forall (fun it =>
                 live it
                 /\ ((exists f, In f catalog
                                /\ is_active (productId it) f = true
                                /\ refreshed_from f it)
                     \/ Forall (fun f => is_active (productId it) f = false)
                               catalog))
              (items c1)).
  { apply Forall_forall. intros it Hit.
    pose proof (CartMore.recalc_lines_all (Some pm) (cart_of s)) as Hall.
    rewrite Forall_forall in Hall. destruct (Hall it Hit) as [Hset Hfr].
    split; [destruct Hset as (Hq & (st & Hst & Hpos) & Hu & _);
            repeat split; [lia|exists st; split; [exact Hst|lia]|exact Hu]|].
    simpl in Hfr. destruct (pm !! productId it) as [f|] eqn:Hpm.
    - left. exists f. destruct (products_map_some _ _ _ _ Hpm). auto.
    - right. apply (products_map_none catalog ids); [exact Hpm|].
      apply recalc_line_from in Hit. exact Hit. }
  destruct Hc as [[-> Hadj]| ->].
  - apply Forall_forall. intros it Hit.
    rewrite Forall_forall in H1. destruct (H1 it Hit) as [Hset Hfr].
    split; [|auto].
    destruct (_adjusted it) eqn:Hflag; [|reflexivity].
    assert (existsb _adjusted (items c1) = true)
      by (apply existsb_exists; exists it; split;
          [apply list_elem_of_In, Hit|exact Hflag]).
    congruence.
  - simpl. apply Forall_map. eapply Forall_impl; [exact H1|].
    intros it [Hset Hfr]. split; [reflexivity|]. split; [exact Hset|exact Hfr].
Qed.

Lemma recalc_loop_in pm l : forall acc it it' a b,
  In it l -> recalc_line (lookup_fresh pm it) it = Some (it', a, b) ->
  In it' (recalc_loop pm l acc).1.
Proof.
  induction l as [|x l IH]; simpl; intros acc it it' a b Hin Hline; [contradiction|].
  destruct Hin as [->|Hin].
  - rewrite Hline. destruct (recalc_loop pm l _). left. reflexivity.
  - destruct (recalc_line (lookup_fresh pm x) x) as [[[x' a'] b']|].
    + specialize (IH (mkSums (CartService.s_subtotal acc + a')
                             (CartService.s_discount acc + b')
                             (CartService.s_count acc + qty x'))
                     it it' a b Hin Hline).
      destruct (recalc_loop pm l _). right. exact IH.
    + eapply IH; eassumption.
Qed.

(** X25.  [viewCart] does not remove the line of a product that is
    no longer active, or no longer in the catalogue: such a line, when
    its quantity is within the stock it has kept, stays in the cart with
    its quantity. *)
Theorem viewCart_keeps_orphans (catalog : Catalog) (c : Cart) (it : Item) :
  In it (items c) ->
  within_stock it ->
  Forall (fun f => is_active (productId it) f = false) catalog ->
  exists c',
    session (viewCart catalog (Some c)) = Some c'
    /\ In (line_key it) (map line_key (items c')).
Proof.
  intros Hin Hws Horphan.
  destruct (viewCart_session catalog (Some c)) as (c' & Hs & Hc & _).
  cbv zeta in Hc. change (cart_of (Some c)) with c in Hc.
  set (pm := getProductsMap catalog (map productId (items c))) in *.
  exists c'. split; [exact Hs|].
  assert (Hnone : lookup_fresh (Some pm) it = None).
  { simpl. destruct (pm !! productId it) as [f|] eqn:Hpm; [|reflexivity].
    destruct (products_map_some _ _ _ _ Hpm) as [Hf Ha].
    rewrite List.Forall_forall in Horphan. rewrite (Horphan f Hf) in Ha.
    discriminate. }
  destruct (CartMore.recalc_line_None_within it Hws) as (it' & a & b & Hline & Hkey).
  assert (Hin' : In it' (items (recalc (Some pm) c))).
  { rewrite recalc_items. eapply recalc_loop_in; [exact Hin|].
    rewrite Hnone. exact Hline. }
  rewrite <- Hkey.
  destruct Hc as [[-> _]| ->].
  - apply in_map. exact Hin'.
  - simpl. rewrite map_map.
    change (fun x => line_key (without_flag x)) with line_key.
    apply in_map. exact Hin'.
Qed.

Lemma viewCart_keeps_orphans_witness :
  Forall (fun f => is_active "64b7f0a1c2d3e4f5a6b7c8da" f = false)
         Sample2.shop_later
  /\ exists c',
       session (viewCart Sample2.shop_later (Some Sample.cart_mate_termo))
       = Some c'
       /\ In ("64b7f0a1c2d3e4f5a6b7c8da"%string, 1)
             (map line_key (items c')).
Proof.
  assert (Ho : Forall (fun f => is_active "64b7f0a1c2d3e4f5a6b7c8da" f = false)
                      Sample2.shop_later)
    by (repeat constructor).
  split; [exact Ho|].
  apply (viewCart_keeps_orphans Sample2.shop_later Sample.cart_mate_termo
           (mkItem "64b7f0a1c2d3e4f5a6b7c8da" "Termo" None 1 (Some 3) 2550 None
                   (Some (mkUnitPrice 2550 2550 0)) 2550 false)).
  - vm_compute. right. left. reflexivity.
  - exists 3. split; [reflexivity|]. simpl. lia.
  - exact Ho.
Defined.

(** ** The cart of the session stays tidy *)

Lemma tidy_new : tidy ensureCart.
Proof. repeat split; simpl; constructor. Qed.

Lemma in_stock_within it : in_stock it <-> within_stock it.
Proof.
  split; intros (st & Hst & Hq); exists st; (split; [exact Hst|lia]).
Qed.

Lemma tidy_after o c : tidy c -> tidy (after o c).
Proof.
  intros (Hnd & Hws & Ht).
  assert (Hcap : Forall capped (items c)).
  { eapply Forall_impl; [exact Hws|]. intros it Hit.
    apply CartMore.within_capped, in_stock_within, Hit. }
  split; [|split].
  - destruct (after_shape o c) as [->|(pm & c0 & -> & H)]; [exact Hnd|].
    apply recalc_nodup, H, Hnd.
  - destruct (CartMore.after_edit o c Hcap) as [->|(pm & c0 & -> & H)];
      [exact Hws|].
    eapply Forall_impl; [apply CartMore.recalc_within, H|].
    intros it Hit. apply in_stock_within, Hit.
  - destruct (after_cases o c) as [->|(pm & c0 & ->)]; [exact Ht|].
    apply recalc_total.
Qed.

Lemma tidy_without_flags c :
  tidy c -> tidy (with_items c (map without_flag (items c))).
Proof.
  intros (Hnd & Hws & Ht). split; [|split].
  - simpl. rewrite <- list_fmap_compose. exact Hnd.
  - simpl. apply Forall_map. exact Hws.
  - exact Ht.
Qed.

Lemma tidy_cart_of s : tidy_session s -> tidy (cart_of s).
Proof. destruct s as [c|]; simpl; [auto|intros _; exact tidy_new]. Qed.

(** X26.  Every handler of the cart leaves a tidy cart in a session
    whose cart was tidy or missing: one line per product, every quantity
    above zero and within the stock of its line, and a total equal to
    the subtotal. *)
Theorem serve_keeps_tidy (catalog : Catalog) (a : Action) (s : option Cart) :
  tidy_session s -> tidy_session (session (serve catalog a s)).
Proof.
  intros Hs. pose proof (tidy_cart_of s Hs) as Hc.
  destruct a as [|id n|id n|id|]; simpl serve.
  - destruct (viewCart_session catalog s) as (c & -> & Hcase & _).
    cbv zeta in Hcase. simpl.
    match type of Hcase with context [recalc ?pm ?c0] =>
      pose proof (tidy_after (OpRecalc pm) c0 Hc) as H1 end.
    destruct Hcase as [[-> _]| ->]; [exact H1|].
    apply tidy_without_flags. exact H1.
  - unfold addToCart. destruct (findOne_active catalog id) as [p|]; [|exact Hs].
    pose proof (tidy_after (OpAdd p (Some (add_qty n))) (cart_of s) Hc) as H1.
    unfold after in H1. simpl run in H1.
    destruct (add p _ _) as [[code|[]] c']; exact H1.
  - unfold updateQty.
    pose proof (tidy_after (OpSetQty id (update_qty n) (findOne_active catalog id))
                  (cart_of s) Hc) as H1.
    unfold after in H1. simpl run in H1.
    destruct (setQty _ _ _ _) as [[code|[]] c']; exact H1.
  - simpl. apply tidy_after, Hc.
  - simpl. apply tidy_after, Hc.
Qed.

Lemma serve_keeps_tidy_witness :
  tidy_session (Some Sample.cart_mate_termo)
  /\ tidy_session (session (serve Sample2.shop_later GetCart
                              (Some Sample.cart_mate_termo))).
Proof.
  assert (H : tidy_session (Some Sample.cart_mate_termo))
    by (apply (tidy_after _ Sample.cart_mate), (tidy_after _ ensureCart), tidy_new).
  split; [exact H|].
  exact (serve_keeps_tidy Sample2.shop_later GetCart _ H).
Defined.

End CartControllerFacts.

(** * Updates of an order by its identifier *)

Module UpdateFacts.

Import OrderModel OrderController CheckoutRoutes Checkout AdminController
       OrderFacts.

Lemma allowed_four field st :
  allowed field = Some st -> st <> abandoned /\ st <> expired.
Proof.
  unfold allowed. destruct field as [s|]; [|discriminate].
  repeat (destruct (bool_decide _); [intros [= <-]; split; discriminate|]).
  discriminate.
Qed.

Lemma updateOne_status_cases indexed n st d :
  (updateOne_status indexed n st d).2 = d
  \/ exists o,
       In o (docs d)
       /\ (indexed = true ->
           collides (apply_update (mkUpdate None None (Some st)) o) (docs d)
           = false)
       /\ (updateOne_status indexed n st d).2
          = mkDb (replace_doc (apply_update (mkUpdate None None (Some st)) o)
                              (docs d)) (nextId d).
Proof.
  unfold updateOne_status.
  destruct (find _ (docs d)) as [o|] eqn:Hf; [|left; reflexivity].
  apply find_some in Hf as [Hin _].
  destruct indexed; simpl.
  - destruct (collides _ _) eqn:Hc; [left; reflexivity|].
    right. exists o. auto.
  - right. exists o. split; [exact Hin|]. split; [discriminate|reflexivity].
Qed.

(** X28.  The manual change of status adds and removes no order; an
    order that it has changed is in one of the four allowed statuses,
    never [abandoned] or [expired], and a status that is not allowed
    writes nothing.  Where the unique index of the model has been built,
    it keeps at most one order in status [created] per user: the index
    refuses the change that would give a user a second one. *)
Theorem updateOrderStatus_keeps_index (indexed : bool) (id : Ref)
        (field : option string) (d : Db) (u : string) :
  ids_wf d ->
  (length (open_orders u d) <= 1)%nat ->
  let d' := (updateOrderStatus indexed id field d).1 in
  ids_wf d'
  /\ map _id (docs d') = map _id (docs d)
  /\ Forall (fun o' => In o' (docs d)
                       \/ (status o' <> abandoned /\ status o' <> expired))
            (docs d')
  /\ match allowed field with None => d' = d | Some _ => True end
  /\ (if indexed then (length (open_orders u d') <= 1)%nat else True).
Proof.
  intros Hwf Hone. unfold updateOrderStatus.
  assert (Hsame : Forall (fun o' => In o' (docs d)
                       \/ (status o' <> abandoned /\ status o' <> expired))
                         (docs d)).
  { apply Forall_forall. intros o Ho. left. apply list_elem_of_In, Ho. }
  assert (Hbase : ids_wf d /\ map _id (docs d) = map _id (docs d)
            /\ Forall (fun o' => In o' (docs d)
                   \/ (status o' <> abandoned /\ status o' <> expired)) (docs d)
            /\ (if indexed then (length (open_orders u d) <= 1)%nat else True))
    by (repeat split; try apply Hwf; try exact Hsame; destruct indexed; auto).
  destruct (allowed field) as [st|] eqn:Hst;
    [|cbv zeta; simpl; destruct Hbase as (H1 & H2 & H3 & H4);
      repeat split; solve [reflexivity | assumption | apply Hwf]].
  destruct id as [|n];
    [cbv zeta; simpl; destruct Hbase as (H1 & H2 & H3 & H4);
     repeat split; solve [reflexivity | assumption | apply Hwf | exact I]|].
  assert (Hgo : ids_wf (updateOne_status indexed n st d).2
                /\ map _id (docs (updateOne_status indexed n st d).2)
                   = map _id (docs d)
                /\ Forall (fun o' => In o' (docs d)
                       \/ (status o' <> abandoned /\ status o' <> expired))
                     (docs (updateOne_status indexed n st d).2)
                /\ (if indexed
                    then (length (open_orders u (updateOne_status indexed n st d).2)
                          <= 1)%nat
                    else True)).
  { destruct (updateOne_status_cases indexed n st d) as [->|(o & Hin & Hcol & ->)];
      [exact Hbase|].
    set (o' := apply_update (mkUpdate None None (Some st)) o) in *.
    split; [apply ids_wf_replace, Hwf|].
    split; [apply replace_doc_ids|]. split.
    - apply Forall_forall. intros x Hx. apply list_elem_of_In in Hx.
      unfold replace_doc in Hx. simpl in Hx.
      apply in_map_iff in Hx as (y & <- & Hy).
      destruct (Nat.eqb _ _); [|left; exact Hy].
      right. simpl. exact (allowed_four _ _ Hst).
    - destruct indexed; [|exact I]. specialize (Hcol eq_refl).
      unfold open_orders. simpl.
      destruct (is_created_of u o') eqn:Hu.
      + apply andb_true_iff in Hu as [Hu Hs].
        apply bool_decide_eq_true in Hu. apply bool_decide_eq_true in Hs.
        apply filter_replace_same; [apply Hwf|].
        intros x Hx Hx'. subst u. eapply collides_false; eassumption.
      + etransitivity; [apply filter_replace_other, Hu|exact Hone]. }
  destruct Hgo as (H1 & H2 & H3 & H4).
  cbv zeta.
  destruct (updateOne_status indexed n st d) as [[e|[|k]] d1]; simpl in *;
    repeat split; solve [assumption | apply H1 | exact I].
Qed.

(** The order 0 of [Sample2.db_two_orders] is [rejected] and its
    order 1 is open.  Where the index is built the change of the order 0
    to [created] is refused; where it is not, the user has two open
    orders afterwards. *)
Lemma updateOrderStatus_keeps_index_witness :
  ids_wf Sample2.db_two_orders
  /\ length (open_orders Sample.user1 Sample2.db_two_orders) = 1%nat
  /\ updateOrderStatus true (Oid 0) (Some "created"%string)
                       Sample2.db_two_orders
     = (Sample2.db_two_orders, NextErr DuplicateKey)
  /\ (length (open_orders Sample.user1
                (updateOrderStatus true (Oid 0) (Some "created"%string)
                                   Sample2.db_two_orders).1) <= 1)%nat
  /\ length (open_orders Sample.user1
               (updateOrderStatus false (Oid 0) (Some "created"%string)
                                  Sample2.db_two_orders).1) = 2%nat.
Proof.
  assert (Hwf : ids_wf Sample2.db_two_orders).
  { apply run_call_inv with (u := Sample.user1).
    - apply ids_wf_replace, OrderMore.ids_wf_db_created.
    - vm_compute. lia. }
  assert (Hone : length (open_orders Sample.user1 Sample2.db_two_orders) = 1%nat)
    by (vm_compute; reflexivity).
  split; [exact Hwf|]. split; [exact Hone|].
  split; [vm_compute; reflexivity|].
  split; [|vm_compute; reflexivity].
  pose proof (updateOrderStatus_keeps_index true (Oid 0)
                (Some "created"%string) Sample2.db_two_orders Sample.user1 Hwf)
    as H.
  cbv zeta in H. apply H. rewrite Hone. lia.
Defined.

Lemma replace_same_doc o (l : list Order) :
  NoDup (map _id l) -> In o l -> replace_doc o l = l.
Proof.
  intros Hnd Hin. unfold replace_doc. rewrite <- (map_id l) at 2.
  apply map_ext_in. intros x Hx.
  destruct (Nat.eqb_spec (_id x) (_id o)) as [E|_]; [|reflexivity].
  symmetry. eapply OrderMore.same_id_same_doc; eassumption.
Qed.

Lemma map_replace_proj {A} (f : Order -> A) o' o (l : list Order) :
  NoDup (map _id l) -> In o l -> _id o' = _id o -> f o' = f o ->
  map f (replace_doc o' l) = map f l.
Proof.
  intros Hnd Hin Hid Hf. unfold replace_doc. rewrite map_map.
  apply map_ext_in. intros x Hx.
  destruct (Nat.eqb_spec (_id x) (_id o')) as [E|_]; [|reflexivity].
  rewrite Hid in E.
  rewrite (OrderMore.same_id_same_doc l x o Hnd Hx Hin E). exact Hf.
Qed.

(** X29.  The static [updateMpFields] of the model sets the
    preference identifier, the payment identifier and the status only
    when the patch gives a truthy value: one that is missing or empty
    leaves that field of every order as it was.  It adds and removes no
    order, and the user, the lines, the amounts, the shipping, the digest
    of the cart, the attempts, the expiry and the date of creation of
    every order are as they were. *)
Theorem updateMpFields_frame (orderId : nat) (pref pay : option string)
        (st : option Status) (d : Db) :
  ids_wf d ->
  let d' := (updateMpFields orderId pref pay st d).2 in
  nextId d' = nextId d
  /\ map kept (docs d') = map kept (docs d)
  /\ match truthy pref with
     | None => map mpPreferenceId (docs d') = map mpPreferenceId (docs d)
     | Some _ => True
     end
  /\ match truthy pay with
     | None => map mpPaymentId (docs d') = map mpPaymentId (docs d)
     | Some _ => True
     end
  /\ match st with
     | None => map status (docs d') = map status (docs d)
     | Some _ => True
     end.
Proof.
  intros [Hnd Hlt]. unfold updateMpFields.
  set (upd := mkUpdate (Some <$> truthy pay) (Some <$> truthy pref) st).
  destruct (CheckoutFacts.keys_update_cases orderId upd d)
    as [->|(o & Hf & [->| ->])]; simpl;
    try (repeat split; try reflexivity;
         repeat (match goal with |- match ?x with _ => _ end => destruct x end);
         try exact I; reflexivity).
  apply find_some in Hf as [Hin _].
  split; [reflexivity|].
  split; [apply map_replace_proj with (o := o); auto|].
  split.
  { destruct (truthy pref) eqn:Hp; [exact I|].
    apply map_replace_proj with (o := o); auto. }
  split.
  { destruct (truthy pay) eqn:Hp; [exact I|].
    apply map_replace_proj with (o := o); auto. }
  destruct st; [exact I|]. apply map_replace_proj with (o := o); auto.
Qed.

Lemma updateMpFields_frame_witness :
  ids_wf (db Sample.world_paid)
  /\ map mpPreferenceId
       (docs (updateMpFields 0 (Some EmptyString) None (Some pending)
                             (db Sample.world_paid)).2)
     = map mpPreferenceId (docs (db Sample.world_paid))
  /\ map mpPaymentId
       (docs (updateMpFields 0 (Some "pref-0002"%string) None (Some pending)
                             (db Sample.world_paid)).2)
     = map mpPaymentId (docs (db Sample.world_paid)).
Proof.
  pose proof OrderMore.ids_wf_world_paid as Hwf.
  split; [exact Hwf|]. split.
  - exact (proj1 (proj2 (proj2
             (updateMpFields_frame 0 (Some EmptyString) None (Some pending)
                                   (db Sample.world_paid) Hwf)))).
  - exact (proj1 (proj2 (proj2 (proj2
             (updateMpFields_frame 0 (Some "pref-0002"%string) None
                                   (Some pending) (db Sample.world_paid) Hwf))))).
Defined.

End UpdateFacts.

(** * The return address of a form *)

Module ReturnToFacts.

Import OrderController CategoryController.

(** X30.  [safeReturnTo] returns nothing, or an address of this site:
    a string that starts with one slash and not with two. *)
Theorem safeReturnTo_internal (q b : option string) (r : string) :
  safeReturnTo q b = Some r ->
  exists rest,
    r = String "/" rest
    /\ startsWith rest "/" = false
    /\ r = OrderModel.trim (default EmptyString (or_else q (truthy b))).
Proof.
  unfold safeReturnTo.
  set (raw := OrderModel.trim _).
  destruct raw as [|c rest] eqn:Hraw; [discriminate|].
  cbn [OrderModel.nonempty negb startsWith].
  destruct (Ascii.eqb_spec "/" c) as [<-|Hne]; [|discriminate].
  destruct rest as [|c' rest']; cbn [startsWith andb negb orb].
  - intros [= <-]. exists EmptyString. auto.
  - destruct (Ascii.eqb_spec "/" c') as [<-|Hne']; [discriminate|].
    cbn [andb negb orb].
    intros [= <-]. exists (String c' rest'). split; [reflexivity|].
    split; [|reflexivity]. cbn [startsWith].
    destruct (Ascii.eqb_spec "/" c'); [contradiction|reflexivity].
Qed.

Lemma safeReturnTo_internal_witness :
  safeReturnTo (Some " /admin/products/new "%string) None
  = Some "/admin/products/new"%string
  /\ safeReturnTo None (Some "//evil.example/"%string) = None
  /\ exists rest,
       "/admin/products/new"%string = String "/" rest
       /\ startsWith rest "/" = false.
Proof.
  assert (H : safeReturnTo (Some " /admin/products/new "%string) None
              = Some "/admin/products/new"%string) by (vm_compute; reflexivity).
  split; [exact H|]. split; [vm_compute; reflexivity|].
  destruct (safeReturnTo_internal _ _ _ H) as (rest & H1 & H2 & _).
  exists rest. auto.
Defined.

End ReturnToFacts.

(** * The cart with the numbers of the Product schema *)

Module CartNumFacts.

Import CartNum.

Local Open Scope Q_scope.

Lemma Qltb_lt (x y : Q) : Qltb x y = true <-> x < y.
Proof.
  unfold Qltb. rewrite negb_true_iff, <- not_true_iff_false, Qle_bool_iff.
  split; [apply Qnot_le_lt|apply Qlt_not_le].
Qed.

Lemma Qltb_ge (x y : Q) : Qltb x y = false <-> y <= x.
Proof.
  unfold Qltb. rewrite negb_false_iff. apply Qle_bool_iff.
Qed.

Lemma Qle_bool_gt (x y : Q) : Qle_bool x y = false <-> y < x.
Proof.
  rewrite <- not_true_iff_false, Qle_bool_iff.
  split; [apply Qnot_le_lt|apply Qlt_not_le].
Qed.

Lemma Qmax_0_pos (s : Q) : 0 < Qmax s 0 -> 0 < s /\ Qmax s 0 == s.
Proof.
  intros H. destruct (Q.max_spec s 0) as [[H1 H2]|[H1 H2]].
  - rewrite H2 in H. lra.
  - split; [|exact H2]. rewrite H2 in H. exact H.
Qed.

Lemma Qmax_0_nonneg (s : Q) : 0 <= Qmax s 0.
Proof. apply Q.le_max_r. Qed.

Lemma Qmin_le_r (a b : Q) : Qmin a b <= b.
Proof. apply Q.le_min_r. Qed.

Lemma Qmin_le_l (a b : Q) : Qmin a b <= a.
Proof. apply Q.le_min_l. Qed.

Lemma Qmin_ge (a b c : Q) : c <= a -> c <= b -> c <= Qmin a b.
Proof. intros; apply Q.min_glb; assumption. Qed.

Lemma one_le_inject (z : Z) : (0 < z)%Z -> 1 <= inject_Z z.
Proof.
  intros H. change 1 with (inject_Z 1). rewrite <- Zle_Qle. lia.
Qed.

(** ** What [recalc] leaves *)

Lemma recalc_items_num pm c :
  items (recalc pm c) = fst (recalc_loop pm (items c) (mkSums 0 0 0)).
Proof. unfold recalc. destruct (recalc_loop _ _ _). reflexivity. Qed.

Lemma recalc_refresh_productId_num fresh it :
  productId (recalc_refresh fresh it) = productId it.
Proof.
  unfold recalc_refresh. destruct fresh as [f|]; [|reflexivity].
  destruct (Qltb _ _); reflexivity.
Qed.

Lemma recalc_line_productId_num fresh it it' a b :
  recalc_line fresh it = Some (it', a, b) -> productId it' = productId it.
Proof.
  unfold recalc_line. destruct (_ || _); [discriminate|].
  intros [= <- _ _]. simpl.
  destruct (cents (recalc_refresh fresh it)); simpl;
    apply recalc_refresh_productId_num.
Qed.

Lemma recalc_loop_elem_num pm l : forall acc l' s,
  recalc_loop pm l acc = (l', s) ->
  forall it', it' ∈ l' ->
    exists it a b, it ∈ l /\ recalc_line (lookup_fresh pm it) it = Some (it', a, b).
Proof.
  induction l as [|x l IH]; intros acc l' s; simpl.
  - intros [= <- _] it' Hin. inversion Hin.
  - destruct (recalc_line (lookup_fresh pm x) x) as [[[x' a] b]|] eqn:Hx.
    + destruct (recalc_loop pm l _) as [r out] eqn:Hr.
      intros [= <- _] it' Hin. apply elem_of_cons in Hin as [->|Hin].
      * exists x, a, b. split; [left|assumption].
      * destruct (IH _ _ _ Hr it' Hin) as (it & a' & b' & Hit & Hl).
        exists it, a', b'. split; [right; assumption|assumption].
    + intros Hr it' Hin.
      destruct (IH _ _ _ Hr it' Hin) as (it & a' & b' & Hit & Hl).
      exists it, a', b'. split; [right; assumption|assumption].
Qed.

Lemma lookup_fresh_productId_num pm it it' :
  productId it' = productId it -> lookup_fresh pm it' = lookup_fresh pm it.
Proof. intros H. unfold lookup_fresh. rewrite H. reflexivity. Qed.

Lemma recalc_line_out_num fresh it it' a b :
  recalc_line fresh it = Some (it', a, b) ->
  a = lineFinalCents it' /\ b = lineDiscountCents it' /\ settled it'
  /\ match fresh with
     | Some f => refreshed_from f it'
     | None => qty it' = qty it /\ stock it' = stock it
     end.
Proof.
  unfold recalc_line. destruct fresh as [f|].
  - destruct (Qle_bool (clampStock (ProductNum.stock f)) 0) eqn:Hs;
      [discriminate|].
    apply Qle_bool_gt in Hs.
    destruct (ProductNum.stock f) as [s|] eqn:Hfs;
      [|simpl in Hs; exfalso; lra].
    simpl in Hs. unfold recalc_refresh. rewrite Hfs.
    destruct (Qltb (Qmax s 0) (qty it)) eqn:Hlt; simpl.
    + destruct (Qle_bool (Qmax s 0) 0) eqn:Hq; [discriminate|]. simpl.
      intros [= <- <- <-].
      unfold settled, refreshed_from, lineFinalCents, lineDiscountCents.
      simpl. rewrite Hfs. simpl.
      repeat split; eauto; try lra; try (eexists; split; [reflexivity|lra]).
    + destruct (Qle_bool (qty it) 0) eqn:Hq; [discriminate|]. simpl.
      apply Qle_bool_gt in Hq. apply Qltb_ge in Hlt.
      intros [= <- <- <-].
      unfold settled, refreshed_from, lineFinalCents, lineDiscountCents.
      simpl. rewrite Hfs. simpl.
      repeat split; eauto; try lra; try (eexists; split; [reflexivity|lra]).
  - simpl recalc_refresh.
    destruct (Qle_bool (clampStock (stock it)) 0) eqn:Hs; [discriminate|].
    destruct (Qle_bool (qty it) 0) eqn:Hq; [discriminate|]. simpl.
    apply Qle_bool_gt in Hs. apply Qle_bool_gt in Hq.
    destruct (stock it) as [s|] eqn:Hst; [|simpl in Hs; exfalso; lra].
    simpl in Hs. apply Qmax_0_pos in Hs as [Hs _].
    destruct (cents it) as [u|] eqn:Hc; intros [= <- <- <-];
      unfold settled, lineFinalCents, lineDiscountCents, CartService.fromCents;
      simpl; rewrite ?Hc, ?Hst; simpl;
      repeat split; eauto; try lra; try (eexists; split; [reflexivity|lra]).
Qed.

Lemma recalc_loop_out_num pm l : forall acc l' s,
  recalc_loop pm l acc = (l', s) ->
  Forall (fun it => settled it
            /\ match lookup_fresh pm it with
               | Some f => refreshed_from f it
               | None => True
               end) l'.
Proof.
  induction l as [|x l IH]; intros acc l' s; simpl.
  - intros [= <- <-]. constructor.
  - destruct (recalc_line (lookup_fresh pm x) x) as [[[x' a] b]|] eqn:Hx;
      [|apply IH].
    destruct (recalc_loop pm l _) as [r out] eqn:Hr.
    intros [= <- <-].
    destruct (recalc_line_out_num _ _ _ _ _ Hx) as (_ & _ & Hset & Hfr).
    constructor; [|exact (IH _ _ _ Hr)]. split; [exact Hset|].
    rewrite (lookup_fresh_productId_num pm x x')
      by (eapply recalc_line_productId_num; eassumption).
    destruct (lookup_fresh pm x); [exact Hfr|exact I].
Qed.

(** ** Quantities stay within the stock *)

Lemma within_capped_num it : within_stock it -> capped it.
Proof.
  intros (s & Hs & Hq & Hle) s' Hs' _. rewrite Hs in Hs'.
  injection Hs' as <-. exact Hle.
Qed.

Lemma recalc_line_within_num fresh it it' a b :
  recalc_line fresh it = Some (it', a, b) -> capped it -> within_stock it'.
Proof.
  intros Hl Hc.
  destruct (recalc_line_out_num _ _ _ _ _ Hl) as (_ & _ & Hset & Hfr).
  destruct Hset as (Hq & (s & Hs & Hs1) & _).
  exists s. split; [exact Hs|]. split; [exact Hq|].
  destruct fresh as [f|].
  - destruct Hfr as (Hst & Hle & _). rewrite Hs in Hst. injection Hst as ->.
    exact Hle.
  - destruct Hfr as [Hqq Hss]. rewrite Hqq. apply Hc; [congruence|exact Hs1].
Qed.

Lemma recalc_within_num pm c :
  Forall capped (items c) -> Forall within_stock (items (recalc pm c)).
Proof.
  intros Hc. rewrite recalc_items_num.
  destruct (recalc_loop pm (items c) (mkSums 0 0 0)) as [l s] eqn:Hl. simpl.
  apply Forall_forall. intros it' Hin.
  destruct (recalc_loop_elem_num _ _ _ _ _ Hl it' Hin) as (it & a & b & Hit & Hline).
  eapply recalc_line_within_num; [exact Hline|].
  rewrite Forall_forall in Hc. exact (Hc it Hit).
Qed.

(** ** [add] *)

Lemma add_success_inv_num product qty0 cart cart' :
  add product qty0 cart = (inr tt, cart') ->
  lacks_id product = false /\ deactivated product = false
  /\ 0 < availableStock product /\ (0 < CartService.requestedQty qty0)%Z.
Proof.
  unfold add.
  destruct (lacks_id product); [discriminate|].
  destruct (deactivated product); [discriminate|].
  rewrite !CartFacts.when_throw_false.
  destruct (Qle_bool (availableStock product) 0) eqn:Hs; [discriminate|].
  rewrite CartFacts.when_throw_false.
  destruct (Z.leb_spec (CartService.requestedQty qty0) 0); [discriminate|].
  apply Qle_bool_gt in Hs. auto.
Qed.

(** The body of [add] once its four checks have passed. *)
Lemma add_checked_num product qty0 cart :
  lacks_id product = false ->
  deactivated product = false ->
  0 < availableStock product ->
  (0 < CartService.requestedQty qty0)%Z ->
  exists l, add product qty0 cart
            = (inr tt, recalc None (mkCart l (count cart) (subtotal cart)
                                     (discount cart) (total cart) (_meta cart)))
            /\ (match list_find
                        (fun it => productId it
                                   = default EmptyString (ProductNum._id product))
                        (items cart) with
                | Some (idx, it) =>
                    l = <[idx := refresh_snapshot product it
                                   (Qmin (qty it
                                          + inject_Z (CartService.requestedQty qty0))
                                         (availableStock product))
                                   (availableStock product) (_adjusted it)]>
                          (items cart)
                | None =>
                    exists new, l = items cart ++ [new]
                      /\ productId new
                         = default EmptyString (ProductNum._id product)
                      /\ qty new
                         = Qmin (inject_Z (CartService.requestedQty qty0))
                                (availableStock product)
                      /\ stock new = Some (availableStock product)
                end).
Proof.
  intros Hid Hact Hst Hq. unfold add.
  rewrite Hid, Hact, !CartFacts.when_throw_false.
  replace (Qle_bool (availableStock product) 0) with false
    by (symmetry; apply Qle_bool_gt; exact Hst).
  rewrite CartFacts.when_throw_false.
  replace (CartService.requestedQty qty0 <=? 0)%Z with false
    by (symmetry; apply Z.leb_gt; lia).
  rewrite CartFacts.when_throw_false.
  destruct (list_find _ (items cart)) as [[idx it]|] eqn:Hf.
  - eexists. split.
    + unfold mbind, SE_bind, se_bind, data, get_state. simpl. rewrite Hf.
      reflexivity.
    + reflexivity.
  - eexists. split.
    + unfold mbind, SE_bind, se_bind, data, get_state. simpl. rewrite Hf.
      reflexivity.
    + eexists. split; [reflexivity|]. simpl. auto.
Qed.

(** A failure of [add] leaves the cart as it was. *)
Lemma add_failure_keeps product qty0 cart e cart' :
  add product qty0 cart = (inl e, cart') -> cart' = cart.
Proof.
  destruct (lacks_id product) eqn:Hid;
    [unfold add; rewrite Hid; intros [= _ <-]; reflexivity|].
  destruct (deactivated product) eqn:Hact;
    [unfold add; rewrite Hid, Hact; intros [= _ <-]; reflexivity|].
  destruct (Qle_bool (availableStock product) 0) eqn:Hs.
  { unfold add. rewrite Hid, Hact, !CartFacts.when_throw_false, Hs.
    intros [= _ <-]; reflexivity. }
  destruct (Z.leb_spec (CartService.requestedQty qty0) 0) as [Hq|Hq].
  { unfold add. rewrite Hid, Hact, !CartFacts.when_throw_false, Hs.
    rewrite CartFacts.when_throw_false.
    replace (CartService.requestedQty qty0 <=? 0)%Z with true
      by (symmetry; apply Z.leb_le; lia).
    intros [= _ <-]; reflexivity. }
  apply Qle_bool_gt in Hs.
  destruct (add_checked_num product qty0 cart) as (l & -> & _); auto.
  discriminate.
Qed.

Lemma nodup_same_product_num (l : list Item) i j x y :
  NoDup (productId <$> l) ->
  l !! i = Some x -> l !! j = Some y -> productId y = productId x -> j = i.
Proof.
  intros Hnd Hi Hj Hp.
  eapply NoDup_lookup; [exact Hnd| |]; rewrite list_lookup_fmap.
  - rewrite Hj. simpl. rewrite Hp. reflexivity.
  - rewrite Hi. reflexivity.
Qed.

(** A line that [recalc] leaves without a map comes from a line of
    the same product, with the same quantity and stock. *)
Lemma recalc_None_from_num c it' :
  it' ∈ items (recalc None c) ->
  exists it, it ∈ items c /\ productId it' = productId it
             /\ qty it' = qty it /\ stock it' = stock it /\ settled it'.
Proof.
  rewrite recalc_items_num.
  destruct (recalc_loop None (items c) (mkSums 0 0 0)) as [l s] eqn:Hl. simpl.
  intros Hin.
  destruct (recalc_loop_elem_num _ _ _ _ _ Hl it' Hin) as (it & a & b & Hit & Hline).
  simpl in Hline.
  destruct (recalc_line_out_num _ _ _ _ _ Hline) as (_ & _ & Hset & Hq & Hs).
  exists it. split; [exact Hit|].
  split; [eapply recalc_line_productId_num; eassumption|].
  split; [exact Hq|]. split; [exact Hs|exact Hset].
Qed.

(** The line of the product after an [add] that has succeeded. *)
Lemma add_line product qty0 cart cart' it' :
  NoDup (productId <$> items cart) ->
  add product qty0 cart = (inr tt, cart') ->
  it' ∈ items cart' ->
  productId it' = default EmptyString (ProductNum._id product) ->
  0 < qty it' /\ stock it' = Some (availableStock product)
  /\ (qty it' = Qmin (inject_Z (CartService.requestedQty qty0))
                     (availableStock product)
      \/ exists it, it ∈ items cart
           /\ qty it' = Qmin (qty it + inject_Z (CartService.requestedQty qty0))
                             (availableStock product)).
Proof.
  intros Hnd Hadd Hin Hpid.
  destruct (add_success_inv_num _ _ _ _ Hadd) as (Hid & Hact & Hst & Hq).
  destruct (add_checked_num product qty0 cart Hid Hact Hst Hq) as (l & Heq & Hl).
  rewrite Heq in Hadd. injection Hadd as <-.
  apply recalc_None_from_num in Hin as (it & Hit & Hp & Hqq & Hss & Hset).
  simpl in Hit. rewrite Hqq, Hss. split; [rewrite <- Hqq; apply Hset|].
  set (pid := default EmptyString (ProductNum._id product)) in *.
  assert (Hitp : productId it = pid) by congruence.
  destruct (list_find _ (items cart)) as [[idx it0]|] eqn:Hf.
  - subst l. apply list_find_Some in Hf as (Hidx & Hp0 & _).
    apply list_elem_of_lookup in Hit as [j Hj].
    destruct (decide (j = idx)) as [->|Hne].
    + rewrite list_lookup_insert_eq in Hj by (eapply lookup_lt_Some; eassumption).
      injection Hj as <-. simpl. split; [reflexivity|].
      right. exists it0. split; [|reflexivity].
      eapply list_elem_of_lookup_2, Hidx.
    + rewrite list_lookup_insert_ne in Hj by congruence.
      exfalso. apply Hne.
      eapply nodup_same_product_num; [exact Hnd|exact Hidx|exact Hj|congruence].
  - destruct Hl as (new & -> & Hnp & Hnq & Hns).
    apply list_find_None in Hf.
    apply elem_of_app in Hit as [Hit|Hit].
    + exfalso. rewrite Forall_forall in Hf. exact (Hf _ Hit Hitp).
    + apply list_elem_of_singleton in Hit as ->. rewrite Hnq, Hns. auto.
Qed.

(** C8, as the code has it.  After an [add] that succeeds on a cart
    whose lines have distinct products, every line of the added product
    (there is one at most) has a quantity above zero and not above the
    available stock.  The quantity is one or more when the available
    stock is one or more, or a whole number, and no line of the cart had
    a negative quantity. *)
Theorem add_clamps_number (product : ProductNum.t) (qty0 : option Z)
        (cart cart' : Cart) :
  NoDup (productId <$> items cart) ->
  add product qty0 cart = (inr tt, cart') ->
  forall it, it ∈ items cart' ->
    productId it = default EmptyString (ProductNum._id product) ->
    0 < qty it /\ qty it <= availableStock product
    /\ (1 <= availableStock product
        \/ (exists n : Z, availableStock product == inject_Z n) ->
        Forall (fun i => 0 <= qty i) (items cart) ->
        1 <= qty it).
Proof.
  intros Hnd Hadd it' Hin Hpid.
  destruct (add_success_inv_num _ _ _ _ Hadd) as (_ & _ & Hst & Hq).
  destruct (add_line _ _ _ _ _ Hnd Hadd Hin Hpid) as (Hpos & _ & Hcase).
  apply one_le_inject in Hq.
  split; [exact Hpos|].
  split; [destruct Hcase as [->|(it & _ & ->)]; apply Qmin_le_r|].
  intros Hwhole Hnn.
  assert (H1 : 1 <= availableStock product).
  { destruct Hwhole as [H|[n Hn]]; [exact H|].
    rewrite Hn in Hst |- *. change 0 with (inject_Z 0) in Hst.
    rewrite <- Zlt_Qlt in Hst. apply one_le_inject. exact Hst. }
  destruct Hcase as [->|(it & Hit & ->)]; apply Qmin_ge; try assumption.
  rewrite Forall_forall in Hnn. specialize (Hnn it Hit). lra.
Qed.

Lemma add_clamps_number_witness :
  NoDup (productId <$> items cart_half)
  /\ add yerba_more (Some 1%Z) cart_half = (inr tt, cart_more)
  /\ line_more ∈ items cart_more
  /\ 0 < qty line_more /\ qty line_more <= availableStock yerba_more
  /\ 1 <= qty line_more.
Proof.
  set (it := line_more).
  assert (Hnd : NoDup (productId <$> items cart_half))
    by (vm_compute; apply NoDup_singleton).
  assert (Hadd : add yerba_more (Some 1%Z) cart_half = (inr tt, cart_more))
    by (vm_compute; reflexivity).
  assert (Hin : it ∈ items cart_more) by (vm_compute; left).
  split; [exact Hnd|]. split; [exact Hadd|]. split; [exact Hin|].
  destruct (add_clamps_number yerba_more (Some 1%Z) cart_half cart_more
              Hnd Hadd it Hin eq_refl) as (H1 & H2 & H3).
  split; [exact H1|]. split; [exact H2|]. apply H3.
  - left. vm_compute. discriminate.
  - vm_compute. repeat constructor; discriminate.
Defined.

(** C8, as the specification states it, fails on a product with half
    a unit in stock: [add] succeeds and leaves a line of half a unit,
    within the stock and below one. *)
Lemma add_below_one_counterexample :
  add yerba_half (Some 1%Z) ensureCart
  = (inr tt, mkCart [line_half] (1 # 2) 505%Z 0%Z 505%Z
                    (CartService.mkMeta 505 0 505))
  /\ productId line_half = default EmptyString (ProductNum._id yerba_half)
  /\ qty line_half <= availableStock yerba_half
  /\ ~ 1 <= qty line_half.
Proof.
  split; [vm_compute; reflexivity|].
  split; [reflexivity|].
  split; vm_compute; [discriminate|]. intros H. apply H. reflexivity.
Qed.

(** ** [recalc], and the carts that are reached *)

(** X1.  After [recalc] every line has a quantity and a stock above
    zero, its cents, and a subtotal that is its final unit price times
    its quantity, rounded to the cent; a line whose product is in the map
    has the stock and the prices of that document and a quantity within
    its stock. *)
Theorem recalc_lines_number (productsMap : option (gmap string ProductNum.t))
        (c : Cart) :
  Forall (fun it => settled it
            /\ match lookup_fresh productsMap it with
               | Some f => refreshed_from f it
               | None => True
               end)
         (items (recalc productsMap c)).
Proof.
  rewrite recalc_items_num.
  destruct (recalc_loop productsMap (items c) (mkSums 0 0 0)) as [l s] eqn:Hl.
  exact (recalc_loop_out_num _ _ _ _ _ Hl).
Qed.

Lemma capped_min it q m :
  stock it = Some m -> capped (with_qty it (Qmin q (Qmax m 0))).
Proof.
  intros Hs s Hs' Hpos. simpl in Hs'. rewrite Hs in Hs'. injection Hs' as <-.
  simpl. eapply Qle_trans; [apply Qmin_le_r|].
  destruct (Qmax_0_pos m) as [_ ->]; [|apply Qle_refl].
  eapply Qlt_le_trans; [exact Hpos|apply Q.le_max_l].
Qed.

Lemma capped_min_default it q :
  capped (with_qty it (Qmin q (Qmax (default 0 (stock it)) 0))).
Proof.
  destruct (stock it) as [m|] eqn:Hs.
  - simpl. apply capped_min. exact Hs.
  - intros s Hs'. simpl in Hs'. congruence.
Qed.

(** The lines that an operation hands to [recalc]. *)
Lemma after_edit_num o c :
  Forall capped (items c) ->
  after o c = c
  \/ exists pm c0, after o c = recalc pm c0 /\ Forall capped (items c0).
Proof.
  intros Hc. unfold after. destruct o as [p q|pid q p| pid | | pm]; simpl run.
  - destruct (add p q c) as [[e|[]] c'] eqn:Ha.
    + left. simpl. eapply add_failure_keeps. exact Ha.
    + right. destruct (add_success_inv_num _ _ _ _ Ha) as (Hid & Hact & Hst & Hq).
      destruct (add_checked_num p q c Hid Hact Hst Hq) as (l & Heq & Hl).
      rewrite Heq in Ha. injection Ha as <-. simpl.
      eexists _, _. split; [reflexivity|]. simpl.
      destruct (list_find _ (items c)) as [[idx it]|].
      * subst l. apply CartMore.Forall_insert_same; [exact Hc|].
        intros s Hs _. simpl in *. injection Hs as <-. apply Qmin_le_r.
      * destruct Hl as (new & -> & _ & Hnq & Hns).
        apply Forall_app. split; [exact Hc|]. constructor; [|constructor].
        intros s Hs _. rewrite Hns in Hs. injection Hs as <-.
        rewrite Hnq. apply Qmin_le_r.
  - unfold setQty, mbind, SE_bind, se_bind, data, get_state. simpl.
    destruct (list_find _ (items c)) as [[idx it]|] eqn:Hf;
      [|left; reflexivity].
    destruct q as [newQty|]; [|left; reflexivity].
    destruct (newQty <? 1)%Z.
    { right. simpl. eexists _, _. split; [reflexivity|]. simpl.
      eapply CartMore.Forall_sublist_alt; [apply sublist_delete|exact Hc]. }
    destruct p as [p|]; [destruct (ProductNum.stock p)|]; right; simpl;
      (eexists _, _; split; [reflexivity|]; simpl;
       apply CartMore.Forall_insert_same; [exact Hc|]);
      [apply capped_min; reflexivity|apply capped_min_default..].
  - right. unfold remove, mbind, SE_bind, se_bind, data, get_state. simpl.
    eexists _, _. split; [reflexivity|]. simpl.
    eapply CartMore.Forall_sublist_alt; [apply sublist_filter|exact Hc].
  - right. unfold clear, mbind, SE_bind, se_bind. simpl.
    eexists _, _. split; [reflexivity|]. simpl. constructor.
  - right. unfold do_recalc. simpl. eauto.
Qed.

Lemma reachable_within_num c : reachable c -> Forall within_stock (items c).
Proof.
  induction 1 as [|o c Hc IH].
  - constructor.
  - assert (Hcap : Forall capped (items c))
      by (eapply Forall_impl; [exact IH|exact within_capped_num]).
    destruct (after_edit_num o c Hcap) as [->|(pm & c0 & -> & H)]; [exact IH|].
    apply recalc_within_num, H.
Qed.

(** X3.  In every cart that the operations of the cart service
    reach, every line has a stock, and a quantity above zero that is not
    above that stock. *)
Theorem reachable_within_number (c : Cart) :
  reachable c -> Forall within_stock (items c).
Proof. exact (reachable_within_num c). Qed.

Lemma reachable_within_number_witness :
  reachable cart_yerba_mate
  /\ Forall within_stock (items cart_yerba_mate).
Proof.
  assert (Hr : reachable cart_yerba_mate)
    by (apply reach_op, reach_op, reach_new).
  split; [exact Hr|]. exact (reachable_within_number _ Hr).
Defined.

(** ** [setQty] *)

(** X6.  On a cart whose lines have distinct products, [setQty] with
    a quantity of one or more leaves the line of the product, if there
    is one, with a quantity above zero that is within its stock and not
    above the quantity asked for; the stock is that of the fresh document
    when one is given with a stock. *)
Theorem setQty_clamps_number (pid : string) (q : Z)
        (product : option ProductNum.t) (c : Cart) :
  NoDup (productId <$> items c) ->
  (1 <= q)%Z ->
  Forall (fun it =>
            productId it = pid ->
            within_stock it /\ qty it <= inject_Z q
            /\ match given_stock product with
               | Some s => stock it = Some (Qmax s 0)
               | None => True
               end)
         (items (after (OpSetQty pid (Some q) product) c)).
Proof.
  intros Hnd Hq. unfold after. simpl run.
  unfold setQty, mbind, SE_bind, se_bind, data, get_state. simpl.
  destruct (list_find _ (items c)) as [[idx it0]|] eqn:Hf.
  - apply list_find_Some in Hf as (Hidx & Hp0 & _).
    replace (q <? 1)%Z with false by (symmetry; apply Z.ltb_ge; lia).
    assert (Hgo : forall it1 m,
      productId it1 = pid ->
      (stock it1 = Some m \/ (m = default 0 (stock it1))) ->
      match given_stock product with
      | Some s => stock it1 = Some (Qmax s 0)
      | None => True
      end ->
      Forall (fun it => productId it = pid ->
                within_stock it /\ qty it <= inject_Z q
                /\ match given_stock product with
                   | Some s => stock it = Some (Qmax s 0)
                   | None => True
                   end)
        (items (recalc None
           (mkCart (<[idx := with_qty it1 (Qmin (inject_Z q) (Qmax m 0))]>
                      (items c))
                   (count c) (subtotal c) (discount c) (total c) (_meta c))))).
    { intros it1 m Hp1 Hm Hgiven. apply Forall_forall. intros it' Hin Hp.
      apply recalc_None_from_num in Hin as (it & Hit & Hpp & Hqq & Hss & Hset).
      simpl in Hit. apply list_elem_of_lookup in Hit as [j Hj].
      destruct (decide (j = idx)) as [->|Hne].
      - rewrite list_lookup_insert_eq in Hj by (eapply lookup_lt_Some; eassumption).
        injection Hj as <-.
        destruct Hset as (Hq1 & (s & Hs & Hs1) & _).
        simpl in Hqq, Hss.
        assert (Hms : m = s).
        { destruct Hm as [Hm|Hm]; [congruence|].
          rewrite <- Hss, Hs in Hm. exact Hm. }
        subst m. split; [|split].
        + exists s. split; [exact Hs|]. split; [exact Hq1|].
          rewrite Hqq. eapply Qle_trans; [apply Qmin_le_r|].
          apply Q.max_lub; [apply Qle_refl|apply Qlt_le_weak, Hs1].
        + rewrite Hqq. apply Qmin_le_l.
        + destruct (given_stock product); [congruence|exact I].
      - rewrite list_lookup_insert_ne in Hj by congruence.
        exfalso. apply Hne.
        eapply nodup_same_product_num; [exact Hnd|exact Hidx|exact Hj|congruence]. }
    destruct product as [p|]; simpl given_stock in *.
    + destruct (ProductNum.stock p) as [s|] eqn:Hps; simpl.
      * apply Hgo; [exact Hp0|left; reflexivity|reflexivity].
      * apply Hgo; [exact Hp0|right; reflexivity|exact I].
    + simpl. apply Hgo; [exact Hp0|right; reflexivity|exact I].
  - apply list_find_None in Hf. simpl.
    eapply Forall_impl; [exact Hf|]. intros it Hne Hp. contradiction.
Qed.

Lemma setQty_clamps_number_witness :
  NoDup (productId <$> items cart_half)
  /\ Forall (fun it =>
               productId it = "64b7f0a1c2d3e4f5a6b7c8dd"%string ->
               within_stock it /\ qty it <= inject_Z 2
               /\ stock it = Some (Qmax (3 # 2) 0))
        (items (after (OpSetQty "64b7f0a1c2d3e4f5a6b7c8dd" (Some 2%Z)
                                (Some yerba_more))
                      cart_half)).
Proof.
  assert (H : NoDup (productId <$> items cart_half))
    by (vm_compute; apply NoDup_singleton).
  split; [exact H|].
  apply (setQty_clamps_number "64b7f0a1c2d3e4f5a6b7c8dd" 2 (Some yerba_more)
           cart_half H).
  lia.
Defined.

End CartNumFacts.

(** * The two cart services on whole numbers *)

Module WholeFacts.

Import Whole.

Lemma inject_plus (a b : Z) : (inject_Z a + inject_Z b)%Q = inject_Z (a + b).
Proof.
  unfold Qplus, inject_Z. cbn [Qnum Qden]. rewrite !Z.mul_1_r. reflexivity.
Qed.

Lemma inject_max (a : Z) : Qmax (inject_Z a) 0 = inject_Z (Z.max a 0).
Proof.
  unfold Qmax, GenericMinMax.gmax, Qcompare, Z.max, inject_Z.
  cbn [Qnum Qden]. change (0 * 1) with 0. rewrite Z.mul_1_r.
  destruct (a ?= 0); reflexivity.
Qed.

Lemma inject_min (a b : Z) :
  Qmin (inject_Z a) (inject_Z b) = inject_Z (Z.min a b).
Proof.
  unfold Qmin, GenericMinMax.gmin, Qcompare, Z.min, inject_Z.
  cbn [Qnum Qden]. rewrite !Z.mul_1_r. destruct (a ?= b); reflexivity.
Qed.

Lemma inject_le_bool (a b : Z) :
  Qle_bool (inject_Z a) (inject_Z b) = (a <=? b).
Proof.
  unfold Qle_bool, inject_Z. cbn [Qnum Qden]. rewrite !Z.mul_1_r. reflexivity.
Qed.

Lemma inject_ltb (a b : Z) : CartNum.Qltb (inject_Z a) (inject_Z b) = (a <? b).
Proof.
  unfold CartNum.Qltb. rewrite inject_le_bool. symmetry. apply Z.ltb_antisym.
Qed.

Lemma line_cents_whole (u q : Z) :
  CartNum.line_cents u (inject_Z q) = Z.max (u * q) 0.
Proof.
  unfold CartNum.line_cents.
  change (inject_Z u * inject_Z q)%Q with (inject_Z (u * q)).
  rewrite CartMore.Math_round_Z. reflexivity.
Qed.

Lemma recalc_refresh_whole fresh it :
  CartNum.recalc_refresh (of_product <$> fresh) (of_item it)
  = of_item (CartService.recalc_refresh fresh it).
Proof.
  destruct fresh as [f|]; [|reflexivity].
  unfold CartNum.recalc_refresh, CartService.recalc_refresh. cbn [fmap option_fmap option_map].
  assert (Hs : match ProductNum.stock (of_product f) with
               | Some s => Qmax s 0
               | None => default 0%Q (CartNum.stock (of_item it))
               end
               = inject_Z match ProductDoc.stock f with
                          | Some s => Z.max s 0
                          | None => default 0 (CartService.stock it)
                          end).
  { cbn [of_product of_item ProductNum.stock CartNum.stock].
    destruct (ProductDoc.stock f) as [s|]; cbn [fmap option_fmap option_map].
    - apply inject_max.
    - destruct (CartService.stock it); reflexivity. }
  rewrite Hs. change (CartNum.qty (of_item it)) with (inject_Z (CartService.qty it)).
  rewrite inject_ltb. destruct (_ <? _); reflexivity.
Qed.

Lemma clampStock_whole (s : option Z) :
  CartNum.clampStock (inject_Z <$> s) = inject_Z (CartService.clampStock s).
Proof. destruct s as [n|]; [apply inject_max|reflexivity]. Qed.

Lemma recalc_line_whole fresh it :
  CartNum.recalc_line (of_product <$> fresh) (of_item it)
  = of_line <$> CartService.recalc_line fresh it.
Proof.
  unfold CartNum.recalc_line, CartService.recalc_line.
  rewrite recalc_refresh_whole.
  set (it1 := CartService.recalc_refresh fresh it).
  assert (Hs : match of_product <$> fresh with
               | Some f => CartNum.clampStock (ProductNum.stock f)
               | None => CartNum.clampStock (CartNum.stock (of_item it1))
               end
               = inject_Z match fresh with
                          | Some f => CartService.clampStock (ProductDoc.stock f)
                          | None => CartService.clampStock (CartService.stock it1)
                          end).
  { destruct fresh as [f|]; cbn [fmap option_fmap option_map];
      apply clampStock_whole. }
  rewrite Hs. change (CartNum.qty (of_item it1)) with (inject_Z (CartService.qty it1)).
  change 0%Q with (inject_Z 0). rewrite !inject_le_bool.
  destruct (_ || _); [reflexivity|].
  cbn [fmap option_fmap option_map of_line]. 
  change (CartNum.cents (of_item it1)) with (CartService.cents it1).
  destruct (CartService.cents it1) as [u|] eqn:Hc.
  - cbn [CartNum.cents of_item default]. rewrite Hc. cbn [default].
    change (CartNum.qty (of_item it1)) with (inject_Z (CartService.qty it1)).
    rewrite !line_cents_whole. reflexivity.
  - destruct fresh as [f|]; cbn [fmap option_fmap option_map];
      cbn [CartNum.with_cents CartNum.cents CartNum.qty of_item default
           CartService.with_cents CartService.cents CartService.qty];
      rewrite !line_cents_whole; reflexivity.
Qed.

Lemma lookup_fresh_whole pm it :
  CartNum.lookup_fresh (of_map pm) (of_item it)
  = of_product <$> CartService.lookup_fresh pm it.
Proof.
  destruct pm as [m|]; [|reflexivity]. simpl. apply lookup_fmap.
Qed.

Lemma recalc_loop_whole pm l : forall acc,
  CartNum.recalc_loop (of_map pm) (of_item <$> l) (of_sums acc)
  = (of_item <$> (CartService.recalc_loop pm l acc).1,
     of_sums (CartService.recalc_loop pm l acc).2).
Proof.
  induction l as [|x l IH]; intros acc; [reflexivity|].
  rewrite fmap_cons. cbn [CartNum.recalc_loop CartService.recalc_loop].
  rewrite lookup_fresh_whole, recalc_line_whole.
  destruct (CartService.recalc_line _ x) as [[[x' a] b]|];
    cbn [fmap option_fmap option_map of_line]; [|apply IH].
  change (CartNum.qty (of_item x')) with (inject_Z (CartService.qty x')).
  cbn [CartNum.s_subtotal CartNum.s_discount CartNum.s_count of_sums].
  rewrite inject_plus.
  specialize (IH (CartService.mkSums (CartService.s_subtotal acc + a)
                                     (CartService.s_discount acc + b)
                                     (CartService.s_count acc
                                      + CartService.qty x'))).
  unfold of_sums at 1 in IH. cbn [CartService.s_subtotal CartService.s_discount
                                   CartService.s_count] in IH.
  rewrite IH. destruct (CartService.recalc_loop pm l _). reflexivity.
Qed.

Lemma recalc_whole pm c :
  CartNum.recalc (of_map pm) (of_cart c) = of_cart (CartService.recalc pm c).
Proof.
  unfold CartNum.recalc, CartService.recalc.
  cbn [CartNum.items of_cart].
  pose proof (recalc_loop_whole pm (CartService.items c)
                (CartService.mkSums 0 0 0)) as H.
  change (of_sums (CartService.mkSums 0 0 0)) with (CartNum.mkSums 0 0 0%Q) in H.
  rewrite H. destruct (CartService.recalc_loop pm _ _) as [l s]. reflexivity.
Qed.

Lemma find_whole pid (l : list CartService.Item) :
  list_find (fun it => CartNum.productId it = pid) (of_item <$> l)
  = prod_map id of_item <$> CartService.findIndex pid l.
Proof.
  unfold CartService.findIndex.
  induction l as [|x l IH]; [reflexivity|].
  rewrite fmap_cons. cbn [list_find].
  change (CartNum.productId (of_item x)) with (CartService.productId x).
  destruct (decide (CartService.productId x = pid)); [reflexivity|].
  rewrite IH. destruct (list_find _ l) as [[i y]|]; reflexivity.
Qed.

Lemma set_items_whole l c :
  CartNum.set_items (of_item <$> l) (of_cart c)
  = (inr tt, of_cart (CartService.set_items l c).2).
Proof. reflexivity. Qed.

Lemma with_cart_whole l c :
  CartNum.mkCart (of_item <$> l) (CartNum.count (of_cart c))
                 (CartNum.subtotal (of_cart c)) (CartNum.discount (of_cart c))
                 (CartNum.total (of_cart c)) (CartNum._meta (of_cart c))
  = of_cart (CartService.mkCart l (CartService.count c) (CartService.subtotal c)
                                (CartService.discount c) (CartService.total c)
                                (CartService._meta c)).
Proof. reflexivity. Qed.

Lemma available_whole p :
  CartNum.availableStock (of_product p)
  = inject_Z (CartService.availableStock p).
Proof.
  unfold CartNum.availableStock, CartService.availableStock.
  cbn [of_product ProductNum.stock].
  destruct (ProductDoc.stock p) as [s|]; apply inject_max.
Qed.

Lemma add_whole p q c :
  CartNum.add (of_product p) q (of_cart c)
  = ((CartService.add p q c).1, of_cart (CartService.add p q c).2).
Proof.
  unfold CartNum.add, CartService.add.
  change (CartNum.lacks_id (of_product p)) with (CartService.lacks_id p).
  change (CartNum.deactivated (of_product p)) with (CartService.deactivated p).
  destruct (CartService.lacks_id p); [reflexivity|].
  destruct (CartService.deactivated p); [reflexivity|].
  rewrite !CartFacts.when_throw_false.
  rewrite available_whole. change 0%Q with (inject_Z 0).
  rewrite inject_le_bool.
  destruct (CartService.availableStock p <=? 0); [reflexivity|].
  rewrite !CartFacts.when_throw_false.
  destruct (CartService.requestedQty q <=? 0); [reflexivity|].
  rewrite !CartFacts.when_throw_false.
  unfold mbind, SE_bind, se_bind, CartNum.data, CartService.data, get_state.
  cbn [CartNum.items of_cart ProductNum._id of_product].
  rewrite find_whole.
  destruct (CartService.findIndex _ (CartService.items c)) as [[idx it]|];
    cbn [fmap option_fmap option_map prod_map id fst snd].
  - change (CartNum.qty (of_item it)) with (inject_Z (CartService.qty it)).
    rewrite inject_plus, inject_min.
    change (CartNum._adjusted (of_item it)) with (CartService._adjusted it).
    change (CartNum.refresh_snapshot (of_product p) (of_item it) ?a ?b ?d)
      with (of_item (CartService.refresh_snapshot p it
               (Z.min (CartService.qty it + CartService.requestedQty q)
                      (CartService.availableStock p))
               (CartService.availableStock p) (CartService._adjusted it))).
    rewrite <- list_fmap_insert.
    unfold CartNum.set_items, CartService.set_items, CartNum.do_recalc,
      CartService.do_recalc.
    rewrite with_cart_whole.
    change None with (of_map None) at 1. rewrite recalc_whole. reflexivity.
  - rewrite inject_min.
    unfold CartNum.set_items, CartService.set_items, CartNum.do_recalc,
      CartService.do_recalc.
    cbn [CartNum.items CartNum.count CartNum.subtotal CartNum.discount
         CartNum.total CartNum._meta of_cart].
    match goal with
    | |- context [CartNum.mkCart (?l ++ [?x])] =>
        match goal with
        | |- context [CartService.mkCart (_ ++ [?y])] =>
            change (l ++ [x]) with (l ++ (of_item <$> [y]))
        end
    end.
    rewrite <- fmap_app.
    change (CartNum.mkCart (of_item <$> ?l) (inject_Z (CartService.count c))
              (CartService.subtotal c) (CartService.discount c)
              (CartService.total c) (CartService._meta c))
      with (of_cart (CartService.mkCart l (CartService.count c)
                       (CartService.subtotal c) (CartService.discount c)
                       (CartService.total c) (CartService._meta c))).
    change None with (of_map None) at 1. rewrite recalc_whole. reflexivity.
Qed.

Lemma recalc_None_whole l c :
  CartNum.recalc None
    (CartNum.mkCart (of_item <$> l) (CartNum.count (of_cart c))
                    (CartNum.subtotal (of_cart c)) (CartNum.discount (of_cart c))
                    (CartNum.total (of_cart c)) (CartNum._meta (of_cart c)))
  = of_cart (CartService.recalc None
               (CartService.mkCart l (CartService.count c)
                  (CartService.subtotal c) (CartService.discount c)
                  (CartService.total c) (CartService._meta c))).
Proof.
  rewrite with_cart_whole. change None with (of_map None) at 1.
  apply recalc_whole.
Qed.

Lemma setQty_whole pid q p c :
  CartNum.setQty pid q (of_product <$> p) (of_cart c)
  = ((CartService.setQty pid q p c).1,
     of_cart (CartService.setQty pid q p c).2).
Proof.
  unfold CartNum.setQty, CartService.setQty.
  unfold mbind, SE_bind, se_bind, CartNum.data, CartService.data, get_state.
  cbn [CartNum.items of_cart].
  rewrite find_whole.
  destruct (CartService.findIndex pid (CartService.items c)) as [[idx it]|];
    cbn [fmap option_fmap option_map prod_map id fst snd]; [|reflexivity].
  destruct q as [newQty|]; [|reflexivity].
  destruct (newQty <? 1).
  { unfold CartNum.set_items, CartService.set_items, CartNum.do_recalc,
      CartService.do_recalc.
    rewrite <- list_fmap_delete, recalc_None_whole. reflexivity. }
  assert (Hgo : forall it1 m,
    (CartNum.set_items
       (<[idx := CartNum.with_qty (of_item it1)
                   (Qmin (inject_Z newQty) (Qmax (inject_Z m) 0))]>
          (of_item <$> CartService.items c));;
     CartNum.do_recalc None) (of_cart c)
    = (((CartService.set_items
           (<[idx := CartService.with_qty it1 (Z.min newQty (Z.max m 0))]>
              (CartService.items c));;
         CartService.do_recalc None) c).1,
       of_cart ((CartService.set_items
           (<[idx := CartService.with_qty it1 (Z.min newQty (Z.max m 0))]>
              (CartService.items c));;
         CartService.do_recalc None) c).2)).
  { intros it1 m. rewrite inject_max, inject_min.
    change (CartNum.with_qty (of_item it1) (inject_Z ?x))
      with (of_item (CartService.with_qty it1 x)).
    rewrite <- list_fmap_insert.
    unfold mbind, SE_bind, se_bind, CartNum.set_items, CartService.set_items,
      CartNum.do_recalc, CartService.do_recalc.
    rewrite recalc_None_whole. reflexivity. }
  change (CartNum.stock (of_item it)) with (inject_Z <$> CartService.stock it).
  assert (Hd : default 0%Q (inject_Z <$> CartService.stock it)
               = inject_Z (default 0 (CartService.stock it)))
    by (destruct (CartService.stock it); reflexivity).
  rewrite Hd.
  destruct p as [p|]; cbn [fmap option_fmap option_map]; [|apply Hgo].
  cbn [ProductNum.stock of_product].
  destruct (ProductDoc.stock p) as [s|]; cbn [fmap option_fmap option_map];
    [|apply Hgo].
  rewrite inject_max.
  change (CartNum.qty (of_item it)) with (inject_Z (CartService.qty it)).
  change (CartNum._adjusted (of_item it)) with (CartService._adjusted it).
  change (CartNum.refresh_snapshot (of_product p) (of_item it)
            (inject_Z (CartService.qty it)) (inject_Z (Z.max s 0))
            (CartService._adjusted it))
    with (of_item (CartService.refresh_snapshot p it (CartService.qty it)
                     (Z.max s 0) (CartService._adjusted it))).
  apply Hgo.
Qed.

Lemma remove_whole pid c :
  CartNum.remove pid (of_cart c)
  = ((CartService.remove pid c).1, of_cart (CartService.remove pid c).2).
Proof.
  unfold CartNum.remove, CartService.remove.
  unfold mbind, SE_bind, se_bind, CartNum.data, CartService.data, get_state,
    CartNum.set_items, CartService.set_items, CartNum.do_recalc,
    CartService.do_recalc.
  cbn [CartNum.items of_cart].
  assert (Hf : filter (fun it => CartNum.productId it <> pid)
                      (of_item <$> CartService.items c)
               = of_item <$> filter (fun it => CartService.productId it <> pid)
                                    (CartService.items c)).
  { induction (CartService.items c) as [|x l IH]; [reflexivity|].
    rewrite fmap_cons, !filter_cons.
    change (CartNum.productId (of_item x)) with (CartService.productId x).
    destruct (decide (CartService.productId x <> pid));
      rewrite IH; reflexivity. }
  cbn [fst snd]. rewrite Hf, recalc_None_whole. reflexivity.
Qed.

Lemma clear_whole c :
  CartNum.clear (of_cart c)
  = ((CartService.clear c).1, of_cart (CartService.clear c).2).
Proof.
  unfold CartNum.clear, CartService.clear.
  unfold mbind, SE_bind, se_bind, CartNum.set_items, CartService.set_items,
    CartNum.do_recalc, CartService.do_recalc.
  change (@nil CartNum.Item) with (of_item <$> @nil CartService.Item).
  rewrite recalc_None_whole. reflexivity.
Qed.

(** On documents and carts of whole numbers the two services agree:
    an operation of [CartNum] returns or throws as that of [CartService]
    does, and leaves the same cart. *)
Lemma run_whole (o : CartService.Op) (c : CartService.Cart) :
  CartNum.run (of_op o) (of_cart c)
  = ((CartService.run o c).1, of_cart (CartService.run o c).2).
Proof.
  destruct o as [p q|pid q p|pid| |pm]; cbn [of_op CartNum.run CartService.run].
  - apply add_whole.
  - apply setQty_whole.
  - apply remove_whole.
  - apply clear_whole.
  - unfold CartNum.do_recalc, CartService.do_recalc. cbn [fst snd].
    rewrite recalc_whole. reflexivity.
Qed.

Lemma after_whole (o : CartService.Op) (c : CartService.Cart) :
  CartNum.after (of_op o) (of_cart c) = of_cart (CartService.after o c).
Proof. unfold CartNum.after, CartService.after. rewrite run_whole. reflexivity. Qed.

(** A cart that [CartService] reaches is one that [CartNum] reaches. *)
Lemma reachable_whole (c : CartService.Cart) :
  CartService.reachable c -> CartNum.reachable (of_cart c).
Proof.
  induction 1 as [|o c Hc IH].
  - exact CartNum.reach_new.
  - rewrite <- after_whole. apply CartNum.reach_op, IH.
Qed.

End WholeFacts.
